(** * Girdbot_hedge: grid strategy, order tracker and hedge manager

    A shallow embedding of the Python sources
      girdbot/utils/helpers.py, girdbot/core/order_manager.py,
      girdbot/core/hedge_manager.py, girdbot/core/grid_strategy.py
    together with the part of Python's [decimal] module they rely on
    (default context: 28 significant digits, ROUND_HALF_EVEN,
    Emax = 999999, Emin = -999999, traps on InvalidOperation,
    DivisionByZero and Overflow). *)

From Stdlib Require Import ZArith Lia.
From stdpp Require Import prelude strings pretty gmap.

Local Open Scope Z_scope.

(** ** Exceptions and results *)

Inductive Exn : Type :=
  | InvalidOperation      (* decimal.InvalidOperation *)
  | DivisionByZero        (* decimal.DivisionByZero *)
  | Overflow              (* decimal.Overflow *)
  | KeyError              (* a missing dict key *)
  | VenueError.           (* any exception raised by an exchange call *)

Inductive Res (A : Type) : Type :=
  | Ok (a : A)
  | Raise (e : Exn).
Arguments Ok {A} a.
Arguments Raise {A} e.

Definition res_bind {A B} (r : Res A) (k : A -> Res B) : Res B :=
  match r with
  | Ok a => k a
  | Raise e => Raise e
  end.

Notation "x <-r r ; k" := (res_bind r (fun x => k))
  (at level 100, r at next level, right associativity).

(** ** Python's [decimal.Decimal] under the default context *)

Module Decimal.

(** A finite decimal [coef * 10 ^ expo].  The sign lives in [coef]; the
    sign of a zero, NaNs and infinities are not represented. *)
Record t : Type := mk { coef : Z; expo : Z }.

Definition prec : Z := 28.
Definition Emax : Z := 999999.
Definition Emin : Z := -999999.
Definition Etiny : Z := Emin - prec + 1.
Definition Etop : Z := Emax - prec + 1.

Fixpoint ndigits_aux (fuel : nat) (n : Z) : Z :=
  match fuel with
  | O => 1
  | S f => if n <? 10 then 1 else 1 + ndigits_aux f (n / 10)
  end.

(** [len(self._int)]: the number of decimal digits of [|n|]; 1 for 0. *)
Definition ndigits (n : Z) : Z :=
  ndigits_aux (S (Z.to_nat (Z.log2 (Z.abs n)))) (Z.abs n).

(** [self.adjusted()] *)
Definition adjusted (d : t) : Z := expo d + ndigits (coef d) - 1.

(** Drop the last [k] digits of the magnitude [m], rounding half to even. *)
Definition round_half_even (m k : Z) : Z :=
  let q := m / 10 ^ k in
  let r := m mod 10 ^ k in
  if 10 ^ k <? 2 * r then q + 1
  else if 2 * r =? 10 ^ k then (if Z.even q then q else q + 1)
  else q.

(** [Decimal._fix(context)] *)
Definition fix_ (d : t) : Res t :=
  if coef d =? 0 then Ok (mk 0 (Z.min (Z.max (expo d) Etiny) Emax))
  else
    let m := Z.abs (coef d) in
    let len := ndigits m in
    let exp_min0 := len + expo d - prec in
    if Etop <? exp_min0 then Raise Overflow
    else
      let exp_min := Z.max exp_min0 Etiny in
      if expo d <? exp_min then
        let digits := len + expo d - exp_min in
        let '(m1, e1) := if digits <? 0 then (1, exp_min - 1) else (m, expo d) in
        let coeff := round_half_even m1 (exp_min - e1) in
        let '(coeff, exp_min) :=
          if prec <? ndigits coeff then (coeff / 10, exp_min + 1)
          else (coeff, exp_min) in
        if Etop <? exp_min then Raise Overflow
        else Ok (mk (Z.sgn (coef d) * coeff) exp_min)
      else Ok d.

(** [Decimal._rescale(exp, rounding)] for the roundings used here. *)
Definition rescale_half_even (d : t) (e : Z) : t :=
  if coef d =? 0 then mk 0 e
  else if e <=? expo d then mk (coef d * 10 ^ (expo d - e)) e
  else
    let m := Z.abs (coef d) in
    let digits := ndigits m + expo d - e in
    let '(m1, e1) := if digits <? 0 then (1, e - 1) else (m, expo d) in
    mk (Z.sgn (coef d) * round_half_even m1 (e - e1)) e.

Definition rescale_down (d : t) (e : Z) : t :=
  if coef d =? 0 then mk 0 e
  else if e <=? expo d then mk (coef d * 10 ^ (expo d - e)) e
  else mk (Z.quot (coef d) (10 ^ (e - expo d))) e.

Definition neg (d : t) : t := mk (- coef d) (expo d).

(** [Decimal.__add__] *)
Definition add (a b : t) : Res t :=
  let exp := Z.min (expo a) (expo b) in
  if (coef a =? 0) && (coef b =? 0) then fix_ (mk 0 exp)
  else if coef a =? 0 then
    fix_ (rescale_half_even b (Z.max exp (expo b - prec - 1)))
  else if coef b =? 0 then
    fix_ (rescale_half_even a (Z.max exp (expo a - prec - 1)))
  else
    fix_ (mk (coef a * 10 ^ (expo a - exp) + coef b * 10 ^ (expo b - exp)) exp).

(** [Decimal.__sub__] *)
Definition sub (a b : t) : Res t := add a (neg b).

(** [Decimal.__mul__] *)
Definition mul (a b : t) : Res t :=
  fix_ (mk (coef a * coef b) (expo a + expo b)).

(** The loop of [__truediv__] that brings an exact quotient as close to
    the ideal exponent as its trailing zeros allow. *)
Fixpoint strip (n : nat) (c e ideal : Z) : Z * Z :=
  match n with
  | O => (c, e)
  | S n' =>
      if (e <? ideal) && (c mod 10 =? 0) then strip n' (c / 10) (e + 1) ideal
      else (c, e)
  end.

(** [Decimal.__truediv__] *)
Definition div (a b : t) : Res t :=
  if coef b =? 0 then
    (if coef a =? 0 then Raise InvalidOperation else Raise DivisionByZero)
  else
    let s := Z.sgn (coef a) * Z.sgn (coef b) in
    if coef a =? 0 then fix_ (mk 0 (expo a - expo b))
    else
      let n1 := Z.abs (coef a) in
      let n2 := Z.abs (coef b) in
      let shift := ndigits n2 - ndigits n1 + prec + 1 in
      let exp := expo a - expo b - shift in
      let '(q, r) :=
        if 0 <=? shift then (n1 * 10 ^ shift / n2, n1 * 10 ^ shift mod n2)
        else (n1 / (n2 * 10 ^ (- shift)), n1 mod (n2 * 10 ^ (- shift))) in
      let '(q, exp) :=
        if r =? 0 then
          strip (Z.to_nat (expo a - expo b - exp)) q exp (expo a - expo b)
        else ((if q mod 5 =? 0 then q + 1 else q), exp) in
      fix_ (mk (s * q) exp).

(** [Decimal.quantize(Decimal('1'), rounding=ROUND_DOWN)] *)
Definition quantize_one_down (d : t) : Res t :=
  if coef d =? 0 then Ok (mk 0 0)
  else if Emax <? adjusted d then Raise InvalidOperation
  else if prec <? adjusted d + 1 then Raise InvalidOperation
  else Ok (rescale_down d 0).

(** Numeric comparison ([==], [<], [<=], [>]): both coefficients are
    brought to the smaller exponent. *)
Definition scaled (d : t) (e : Z) : Z := coef d * 10 ^ (expo d - e).

Definition cmp (a b : t) : comparison :=
  let e := Z.min (expo a) (expo b) in
  Z.compare (scaled a e) (scaled b e).

Definition eqb (a b : t) : bool :=
  match cmp a b with Eq => true | _ => false end.
Definition ltb (a b : t) : bool :=
  match cmp a b with Lt => true | _ => false end.
Definition leb (a b : t) : bool :=
  match cmp a b with Gt => false | _ => true end.

Definition of_Z (n : Z) : t := mk n 0.
Definition zero : t := of_Z 0.

End Decimal.

Abbreviation Decimal := Decimal.t.

Definition dec (c e : Z) : Decimal := Decimal.mk c e.

(** ** girdbot/utils/helpers.py *)

(** [(value / precision).quantize(Decimal('1'), rounding=ROUND_DOWN) * precision],
    the expression shared by [round_to_precision] (with its default rounding)
    and [GridStrategy._adjust_to_precision]. *)
Definition truncate_to (value precision : Decimal) : Res Decimal :=
  q <-r Decimal.div value precision;
  n <-r Decimal.quantize_one_down q;
  Decimal.mul n precision.

(** [round_to_precision(value, precision, rounding=ROUND_DOWN)] with the
    default rounding. *)
Definition round_to_precision (value precision : Decimal) : Res Decimal :=
  if Decimal.eqb precision Decimal.zero then Ok value
  else truncate_to value precision.

Fixpoint res_mapM {A B} (f : A -> Res B) (l : list A) : Res (list B) :=
  match l with
  | [] => Ok []
  | x :: l' => y <-r f x; ys <-r res_mapM f l'; Ok (y :: ys)
  end.

(** [calculate_grid_prices(start_price, end_price, grid_levels)] *)
Definition calculate_grid_prices (start_price end_price : Decimal) (grid_levels : Z)
  : Res (list Decimal) :=
  if grid_levels <=? 1 then Ok [start_price]
  else
    price_range <-r Decimal.sub end_price start_price;
    price_step <-r Decimal.div price_range (Decimal.of_Z (grid_levels - 1));
    res_mapM
      (fun i : nat =>
         x <-r Decimal.mul price_step (Decimal.of_Z (Z.of_nat i));
         Decimal.add start_price x)
      (seq 0 (Z.to_nat grid_levels)).

(** [calculate_price_precision] / [calculate_amount_precision] and the two
    inline copies in [HedgeManager._update_precision_if_needed]:
    [Decimal(f"0.{'0' * (precision - 1)}1")].  A repetition count below one
    yields the empty string, hence "0.1". *)
Definition precision_of_digits (precision : Z) : Decimal :=
  dec 1 (- Z.max precision 1).

(** ** Python dicts that are iterated: insertion-ordered association lists *)

Definition pydict (V : Type) : Type := list (string * V).

Fixpoint dget {V} (k : string) (d : pydict V) : option V :=
  match d with
  | [] => None
  | (k', v) :: d' => if decide (k' = k) then Some v else dget k d'
  end.

(** [d[k] = v]: an existing key keeps its position. *)
Fixpoint dset {V} (k : string) (v : V) (d : pydict V) : pydict V :=
  match d with
  | [] => [(k, v)]
  | (k', v') :: d' =>
      if decide (k' = k) then (k, v) :: d' else (k', v') :: dset k v d'
  end.

Definition dvalues {V} (d : pydict V) : list V := d.*2.

(** ** The environment: exchanges, clock, uuid and logger *)

(** An exchange object is identified by its [name] and [id] attributes. *)
Record ExchangeRef : Type := mkExchange { ex_name : string; ex_id : string }.

Inductive LogMsg : Type :=
  | LogOrderCreated (side order_id : string)       (* "买单已创建" / "卖单已创建" *)
  | LogPlaceFailed (side : string) (e : Exn)       (* "创建买单失败" / "创建卖单失败" *)
  | LogOrderNotFound (order_id : string)           (* "找不到订单信息" *)
  | LogLevelNotFound (level_id : string)           (* "找不到网格级别" *)
  | LogOrderFilled (order_id : string)             (* "订单 ... 已成交" *)
  | LogOrderCanceled (order_id : string)           (* "订单 ... 已取消" *)
  | LogPrecisionMissing                            (* "无法从交易所获取精度信息" *)
  | LogPrecisionError (e : Exn)                    (* "获取交易所精度时发生未知错误" *)
  | LogBadPrecision (precision : Decimal)          (* "调整精度失败：无效的精度值" *)
  | LogHedgeNotInitialized (strategy_id : string)  (* "未初始化对冲模式" *)
  | LogHedgeCreated (ex : string) (order_id : string)
  | LogHedgeCreateFailed (ex : string) (e : Exn)
  | LogHedgeGroup (original_order_id : string) (n : nat)
  | LogHedgeNone (original_order_id : string)
  | LogHedgeMissing (original_order_id : string)   (* "找不到原始订单 ... 的对冲订单" *)
  | LogExchangeMissing (ex : string)               (* "找不到交易所" *)
  | LogHedgeCanceled (order_id : string)
  | LogHedgeCancelFailed (order_id : string) (e : Exn)
  | LogHedgeFilled (order_id : string)
  | LogHedgeCheckFailed (order_id : string) (e : Exn)
  | LogHedgeAllFilled (original_order_id : string)
  | LogHedgePrecisionFailed (e : Exn)              (* "获取交易所精度信息失败" *)
  | LogGridCreated (n : nat).                      (* "创建了 ... 个网格点位" *)

(** Everything the code does to the outside world, oldest first. *)
Inductive Event : Type :=
  | EvTime                                         (* time.time() *)
  | EvUuid                                         (* uuid.uuid4() *)
  | EvLoadMarket (symbol : string)
  | EvFetchMarketInfo (ex : ExchangeRef) (symbol : string)
  | EvCreateLimitOrder (ex : ExchangeRef) (symbol side : string) (amount price : Decimal)
  | EvCancelOrder (ex : ExchangeRef) (order_id symbol : string)
  | EvFetchOrder (ex : ExchangeRef) (order_id symbol : string)
  | EvFetchOrdersByIds (ex : ExchangeRef) (order_ids : gset string) (symbol : string)
  | EvLog (m : LogMsg).

Definition Trace : Type := list Event.

(** The answers of the outside world.  Each answer may depend on the whole
    history of interactions so far. *)
Record World : Type := mkWorld {
  w_time : Trace -> Z;
  w_uuid_hex8 : Trace -> string;
  (* market["precision"]["price"], market["precision"]["amount"], already
     through [Decimal(str(...))]; any failure on the way is a [Raise] *)
  w_load_market : Trace -> string -> Res (option Decimal * option Decimal);
  (* market_info["precision"] digits; a key that is absent is [None] *)
  w_fetch_market_info : Trace -> ExchangeRef -> string -> Res (option Z * option Z);
  w_create_limit_order :
    Trace -> ExchangeRef -> string -> string -> Decimal -> Decimal -> Res string;
  w_cancel_order : Trace -> ExchangeRef -> string -> string -> Res bool;
  (* order_status["status"] *)
  w_fetch_order : Trace -> ExchangeRef -> string -> string -> Res string;
  (* order_info["status"] for each returned id, in the order of the returned
     dict; the ids are passed as [list(set(...))] *)
  w_fetch_orders_by_ids :
    Trace -> ExchangeRef -> gset string -> string -> Res (pydict string);
  (* ExchangeManager.get_exchange_by_name *)
  w_get_exchange_by_name : string -> option ExchangeRef
}.

(** ** A state-and-exception monad: mutations survive a raised exception *)

Definition M (S A : Type) : Type := S -> Trace -> Res A * S * Trace.

Definition ret {S A} (a : A) : M S A := fun s t => (Ok a, s, t).
Definition raise {S A} (e : Exn) : M S A := fun s t => (Raise e, s, t).
Definition bind {S A B} (m : M S A) (k : A -> M S B) : M S B :=
  fun s t =>
    match m s t with
    | (Ok a, s', t') => k a s' t'
    | (Raise e, s', t') => (Raise e, s', t')
    end.
(** [try: m  except Exception as e: h e] *)
Definition try_except {S A} (m : M S A) (h : Exn -> M S A) : M S A :=
  fun s t =>
    match m s t with
    | (Ok a, s', t') => (Ok a, s', t')
    | (Raise e, s', t') => h e s' t'
    end.
Definition get {S} : M S S := fun s t => (Ok s, s, t).
Definition modify {S} (f : S -> S) : M S unit := fun s t => (Ok tt, f s, t).
Definition emit {S} (ev : Event) : M S unit := fun s t => (Ok tt, s, t ++ [ev]).
Definition log {S} (m : LogMsg) : M S unit := emit (EvLog m).
(** Ask the world, record the interaction. *)
Definition ask {S A} (f : Trace -> A) (ev : Event) : M S A :=
  fun s t => (Ok (f t), s, t ++ [ev]).
Definition call {S A} (f : Trace -> Res A) (ev : Event) : M S A :=
  fun s t => (f t, s, t ++ [ev]).
Definition lift_res {S A} (r : Res A) : M S A := fun s t => (r, s, t).

Notation "x <- m ;; k" := (bind m (fun x => k))
  (at level 100, m at next level, right associativity).
Notation "m ;;; k" := (bind m (fun _ => k))
  (at level 100, right associativity).

(** [for x in l: body x] *)
Fixpoint for_each {S A} (l : list A) (body : A -> M S unit) : M S unit :=
  match l with
  | [] => ret tt
  | x :: l' => body x ;;; for_each l' body
  end.

Definition time_time {S} (w : World) : M S Z := ask (w_time w) EvTime.

(** Truthiness of an optional string ([if order_id:], [not level.sell_order_id]). *)
Definition truthy (o : option string) : bool :=
  match o with
  | Some s => negb (String.eqb s "")
  | None => false
  end.

(** ** girdbot/core/order_manager.py *)

(** The order dict written by [place_buy_order] / [place_sell_order], with
    the two keys the handlers add later. *)
Record OrderData : Type := mkOrder {
  od_level_id : string;
  od_price : Decimal;
  od_amount : Decimal;
  od_side : string;
  od_status : string;
  od_timestamp : Z;
  od_filled_time : option Z;
  od_cancel_time : option Z
}.

Module OrderManager.

(** [self.orders] *)
Abbreviation t := (gmap string OrderData).

Definition init : t := ∅.

Definition add_order (order_id : string) (order_data : OrderData) (orders : t)
  : bool * t :=
  match orders !! order_id with
  | Some _ => (false, orders)
  | None => (true, <[order_id := order_data]> orders)
  end.

Definition update_order (order_id : string) (order_data : OrderData) (orders : t)
  : bool * t :=
  match orders !! order_id with
  | None => (false, orders)
  | Some _ => (true, <[order_id := order_data]> orders)
  end.

Definition get_order (order_id : string) (orders : t) : option OrderData :=
  orders !! order_id.

Definition delete_order (order_id : string) (orders : t) : bool * t :=
  match orders !! order_id with
  | None => (false, orders)
  | Some _ => (true, delete order_id orders)
  end.

(** [order_data.get("status") in ["open", "partially_filled"]] *)
Definition is_active (order_data : OrderData) : bool :=
  bool_decide (od_status order_data ∈ ["open"; "partially_filled"]).

(** [len([1 for order_data in self.orders.values() if ...])] *)
Definition count_active_orders (orders : t) : nat :=
  length (filter (fun od => is_active od = true) (map_to_list orders).*2).

End OrderManager.

(** ** girdbot/core/hedge_manager.py *)

Record HedgeConfig : Type := mkHedgeConfig {
  hc_trading_pair : string;
  hc_exchanges : list ExchangeRef;
  hc_price_precision : Decimal;
  hc_amount_precision : Decimal;
  hc_last_update : Z
}.

Record HedgeOrder : Type := mkHedgeOrder {
  ho_exchange_name : string;
  ho_exchange_id : string;
  ho_status : string;
  ho_timestamp : Z;
  ho_filled_time : option Z;
  ho_cancel_time : option Z
}.

(** [hedge_order_info]; [amount] and [price] are stored as [str(...)] of
    these decimals. *)
Record HedgeGroup : Type := mkHedgeGroup {
  hg_strategy_id : string;
  hg_level_id : string;
  hg_side : string;
  hg_amount : Decimal;
  hg_price : Decimal;
  hg_status : string;
  hg_orders : pydict HedgeOrder
}.

Record HedgeManager : Type := mkHedgeManager {
  hedge_strategies : gmap string HedgeConfig;
  hedge_orders : pydict HedgeGroup;
  reverse_lookup : gmap string string
}.

Definition set_hedge_strategies (f : gmap string HedgeConfig -> gmap string HedgeConfig)
  (hm : HedgeManager) : HedgeManager :=
  mkHedgeManager (f (hedge_strategies hm)) (hedge_orders hm) (reverse_lookup hm).
Definition set_hedge_orders (f : pydict HedgeGroup -> pydict HedgeGroup)
  (hm : HedgeManager) : HedgeManager :=
  mkHedgeManager (hedge_strategies hm) (f (hedge_orders hm)) (reverse_lookup hm).
Definition set_reverse_lookup (f : gmap string string -> gmap string string)
  (hm : HedgeManager) : HedgeManager :=
  mkHedgeManager (hedge_strategies hm) (hedge_orders hm) (f (reverse_lookup hm)).

Definition set_ho_status (s : string) (o : HedgeOrder) : HedgeOrder :=
  mkHedgeOrder (ho_exchange_name o) (ho_exchange_id o) s (ho_timestamp o)
    (ho_filled_time o) (ho_cancel_time o).
Definition set_ho_filled_time (x : Z) (o : HedgeOrder) : HedgeOrder :=
  mkHedgeOrder (ho_exchange_name o) (ho_exchange_id o) (ho_status o) (ho_timestamp o)
    (Some x) (ho_cancel_time o).
Definition set_ho_cancel_time (x : Z) (o : HedgeOrder) : HedgeOrder :=
  mkHedgeOrder (ho_exchange_name o) (ho_exchange_id o) (ho_status o) (ho_timestamp o)
    (ho_filled_time o) (Some x).
Definition set_hg_status (s : string) (g : HedgeGroup) : HedgeGroup :=
  mkHedgeGroup (hg_strategy_id g) (hg_level_id g) (hg_side g) (hg_amount g)
    (hg_price g) s (hg_orders g).
Definition set_hg_orders (f : pydict HedgeOrder -> pydict HedgeOrder) (g : HedgeGroup)
  : HedgeGroup :=
  mkHedgeGroup (hg_strategy_id g) (hg_level_id g) (hg_side g) (hg_amount g)
    (hg_price g) (hg_status g) (f (hg_orders g)).

Module HedgeManager.

Abbreviation t := HedgeManager.

(** [HedgeManager.__init__] *)
Definition init : t := mkHedgeManager ∅ [] ∅.

Section WithWorld.
Context (w : World).

(** [initialize_for_strategy(strategy)], given the result of
    [exchange_manager.get_hedge_exchanges()]. *)
Definition initialize_for_strategy (strategy_id trading_pair : string)
    (hedge_exchanges : list ExchangeRef) : M t bool :=
  match hedge_exchanges with
  | [] => ret false
  | _ =>
      now <- time_time w;;
      modify (set_hedge_strategies
                <[strategy_id :=
                    mkHedgeConfig trading_pair hedge_exchanges
                      (dec 1 (-8)) (dec 1 (-8)) now]>);;;
      ret true
  end.

(** [_update_precision_if_needed(strategy_id, exchange, trading_pair)].
    [market_info.get('precision', {}).get('price', 8)]: an absent key
    counts as 8 digits. *)
Definition _update_precision_if_needed (strategy_id : string)
    (exchange : ExchangeRef) (trading_pair : string) : M t unit :=
  try_except
    (market_info <- call (fun tr => w_fetch_market_info w tr exchange trading_pair)
                      (EvFetchMarketInfo exchange trading_pair);;
     let price_precision := precision_of_digits (default 8 market_info.1) in
     let amount_precision := precision_of_digits (default 8 market_info.2) in
     modify (set_hedge_strategies
               (alter (fun c =>
                         mkHedgeConfig (hc_trading_pair c) (hc_exchanges c)
                           price_precision amount_precision (hc_last_update c))
                      strategy_id)))
    (fun e => log (LogHedgePrecisionFailed e)).

(** One iteration of the loop over [hedge_exchanges] in
    [create_hedge_order].  The local accumulators [hedge_order_ids] and
    [hedge_order_info["orders"]] are threaded explicitly. *)
Definition create_on_exchange (trading_pair hedge_side : string)
    (rounded_amount rounded_price : Decimal) (original_order_id : string)
    (acc : list string * pydict HedgeOrder) (exchange : ExchangeRef)
  : M t (list string * pydict HedgeOrder) :=
  fun hm tr =>
    match w_create_limit_order w tr exchange trading_pair hedge_side
            rounded_amount rounded_price with
    | Ok order_id =>
        let tr := tr ++ [EvCreateLimitOrder exchange trading_pair hedge_side
                           rounded_amount rounded_price] in
        if truthy (Some order_id) then
          let now := w_time w tr in
          let tr := tr ++ [EvTime] in
          (Ok (acc.1 ++ [order_id],
               dset order_id
                 (mkHedgeOrder (ex_name exchange) (ex_id exchange) "open" now None None)
                 acc.2),
           set_reverse_lookup <[order_id := original_order_id]> hm,
           tr ++ [EvLog (LogHedgeCreated (ex_name exchange) order_id)])
        else (Ok acc, hm, tr)
    | Raise e =>
        (Ok acc, hm,
         tr ++ [EvCreateLimitOrder exchange trading_pair hedge_side
                  rounded_amount rounded_price;
                EvLog (LogHedgeCreateFailed (ex_name exchange) e)])
    end.

Fixpoint create_on_exchanges (trading_pair hedge_side : string)
    (rounded_amount rounded_price : Decimal) (original_order_id : string)
    (acc : list string * pydict HedgeOrder) (exchanges : list ExchangeRef)
  : M t (list string * pydict HedgeOrder) :=
  match exchanges with
  | [] => ret acc
  | ex :: rest =>
      acc' <- create_on_exchange trading_pair hedge_side rounded_amount
                rounded_price original_order_id acc ex;;
      create_on_exchanges trading_pair hedge_side rounded_amount rounded_price
        original_order_id acc' rest
  end.

(** [create_hedge_order(strategy_id, side, amount, price, level_id,
    original_order_id=None)] *)
Definition create_hedge_order (strategy_id side : string) (amount price : Decimal)
    (level_id : string) (original_order_id : option string) : M t (list string) :=
  hm <- get;;
  match hedge_strategies hm !! strategy_id with
  | None => log (LogHedgeNotInitialized strategy_id);;; ret []
  | Some hedge_config =>
      let trading_pair := hc_trading_pair hedge_config in
      let hedge_exchanges := hc_exchanges hedge_config in
      let hedge_side := if decide (side = "buy") then "sell" else "buy" in
      match hedge_exchanges with
      | ex0 :: _ => _update_precision_if_needed strategy_id ex0 trading_pair
      | [] => ret tt
      end;;;
      hm <- get;;
      let cfg := default hedge_config (hedge_strategies hm !! strategy_id) in
      rounded_price <- lift_res (round_to_precision price (hc_price_precision cfg));;
      rounded_amount <- lift_res (round_to_precision amount (hc_amount_precision cfg));;
      original_order_id <-
        (if truthy original_order_id then ret (default "" original_order_id)
         else h <- ask (w_uuid_hex8 w) EvUuid;; ret ("primary_" +:+ h));;
      acc <- create_on_exchanges trading_pair hedge_side rounded_amount
               rounded_price original_order_id ([], []) hedge_exchanges;;
      match acc.1 with
      | [] => log (LogHedgeNone original_order_id)
      | _ =>
          modify (set_hedge_orders
                    (dset original_order_id
                       (mkHedgeGroup strategy_id level_id hedge_side rounded_amount
                          rounded_price "open" acc.2)));;;
          log (LogHedgeGroup original_order_id (length acc.1))
      end;;;
      ret acc.1
  end.

(** [for key, value in d.items(): ...] where the body mutates [value] in
    place: the values are rewritten one after the other, in order. *)
Fixpoint items_mapM {V} (body : string -> V -> M t V) (d : pydict V)
  : M t (pydict V) :=
  match d with
  | [] => ret []
  | (k, v) :: d' =>
      v' <- body k v;;
      d'' <- items_mapM body d';;
      ret ((k, v') :: d'')
  end.

(** The body of the loop of [cancel_hedge_orders]. *)
Definition cancel_member (trading_pair : string) (order_id : string)
    (order_data : HedgeOrder) : M t HedgeOrder :=
  if decide (ho_status order_data = "open") then
    let exchange_name := ho_exchange_name order_data in
    match w_get_exchange_by_name w exchange_name with
    | None => log (LogExchangeMissing exchange_name);;; ret order_data
    | Some exchange =>
        try_except
          (_ <- call (fun tr => w_cancel_order w tr exchange order_id trading_pair)
                 (EvCancelOrder exchange order_id trading_pair);;
           now <- time_time w;;
           log (LogHedgeCanceled order_id);;;
           ret (set_ho_cancel_time now (set_ho_status "canceled" order_data)))
          (fun e => log (LogHedgeCancelFailed order_id e);;; ret order_data)
    end
  else ret order_data.

(** [cancel_hedge_orders(original_order_id)] *)
Definition cancel_hedge_orders (original_order_id : string) : M t unit :=
  hm <- get;;
  match dget original_order_id (hedge_orders hm) with
  | None => log (LogHedgeMissing original_order_id)
  | Some hedge_order_info =>
      match hedge_strategies hm !! hg_strategy_id hedge_order_info with
      | None => raise KeyError
      | Some cfg =>
          orders <- items_mapM (cancel_member (hc_trading_pair cfg))
                      (hg_orders hedge_order_info);;
          modify (set_hedge_orders
                    (dset original_order_id
                       (set_hg_status "canceled"
                          (set_hg_orders (fun _ => orders) hedge_order_info))))
      end
  end.

(** The body of the inner loop of [update]. *)
Definition update_member (trading_pair : string) (hedge_order_id : string)
    (hedge_order_data : HedgeOrder) : M t HedgeOrder :=
  if decide (ho_status hedge_order_data = "open") then
    match w_get_exchange_by_name w (ho_exchange_name hedge_order_data) with
    | None => ret hedge_order_data
    | Some exchange =>
        try_except
          (status <- call (fun tr => w_fetch_order w tr exchange hedge_order_id
                                       trading_pair)
                      (EvFetchOrder exchange hedge_order_id trading_pair);;
           if decide (status = "closed") then
             now <- time_time w;;
             log (LogHedgeFilled hedge_order_id);;;
             ret (set_ho_filled_time now (set_ho_status "filled" hedge_order_data))
           else if decide (status = "canceled") then
             now <- time_time w;;
             log (LogHedgeCanceled hedge_order_id);;;
             ret (set_ho_cancel_time now (set_ho_status "canceled" hedge_order_data))
           else ret hedge_order_data)
          (fun e => log (LogHedgeCheckFailed hedge_order_id e);;; ret hedge_order_data)
    end
  else ret hedge_order_data.

(** The body of the outer loop of [update]; groups of other strategies
    and groups that are not open are not in [strategy_hedge_orders]. *)
Definition update_group (strategy_id trading_pair : string)
    (original_order_id : string) (order_info : HedgeGroup) : M t HedgeGroup :=
  if decide (hg_strategy_id order_info = strategy_id) then
    if decide (hg_status order_info = "open") then
      orders <- items_mapM (update_member trading_pair) (hg_orders order_info);;
      ret (set_hg_orders (fun _ => orders) order_info)
    else ret order_info
  else ret order_info.

(** [update(strategy_id)] *)
Definition update (strategy_id : string) : M t unit :=
  hm <- get;;
  match hedge_strategies hm !! strategy_id with
  | None => ret tt
  | Some cfg =>
      groups <- items_mapM (update_group strategy_id (hc_trading_pair cfg))
                  (hedge_orders hm);;
      modify (set_hedge_orders (fun _ => groups))
  end.

(** [all_filled] of [handle_order_filled] *)
Definition all_filled (orders : pydict HedgeOrder) : bool :=
  forallb (fun o => bool_decide (ho_status o = "filled")) (dvalues orders).

(** [handle_order_filled(original_order_id)] *)
Definition handle_order_filled (original_order_id : string) : M t unit :=
  hm <- get;;
  match dget original_order_id (hedge_orders hm) with
  | None => ret tt
  | Some hedge_order_info =>
      if all_filled (hg_orders hedge_order_info) then
        modify (set_hedge_orders
                  (dset original_order_id (set_hg_status "filled" hedge_order_info)));;;
        log (LogHedgeAllFilled original_order_id)
      else ret tt
  end.

End WithWorld.

End HedgeManager.

(** ** girdbot/storage/trade_recorder.py *)

(** [Trade.to_dict()]; [trade_id] is a rendering of [strategy_id],
    [int(timestamp)] and the last eight characters of [order_id], and the
    fee fields are never passed by the strategy. *)
Record Trade : Type := mkTrade {
  tr_strategy_id : string;
  tr_order_id : string;
  tr_trading_pair : string;
  tr_side : string;
  tr_price : Decimal;
  tr_amount : Decimal;
  tr_timestamp : Z
}.

Module TradeRecorder.

(** [self.trades_cache] *)
Abbreviation t := (gmap string (list Trade)).

(** [record_trade(...)]: the append to the cache; the JSON file write
    swallows its own errors. *)
Definition record_trade (trade : Trade) (cache : t) : t :=
  <[tr_strategy_id trade := default [] (cache !! tr_strategy_id trade) ++ [trade]]> cache.

(** [self.trades_cache.get(strategy_id, [])] *)
Definition trades_of (strategy_id : string) (cache : t) : list Trade :=
  default [] (cache !! strategy_id).

End TradeRecorder.

(** ** girdbot/core/grid_strategy.py *)

Inductive LevelStatus : Type := READY | BUYING | BOUGHT | SELLING | SOLD.

#[global] Instance LevelStatus_eq_dec : EqDecision LevelStatus.
Proof. solve_decision. Defined.

Record GridLevel : Type := mkLevel {
  gl_id : string;
  gl_price : Decimal;
  gl_amount : Decimal;
  buy_order_id : option string;
  sell_order_id : option string;
  gl_status : LevelStatus;
  gl_last_update : Z
}.

Record GridStrategy : Type := mkStrategy {
  strategy_id : string;
  trading_pair : string;
  primary_exchange : ExchangeRef;
  start_price : Decimal;
  end_price : Decimal;
  grid_levels : Z;
  total_investment : Decimal;
  enable_hedge : bool;
  grid_levels_data : list GridLevel;
  order_manager : OrderManager.t;
  completed_trades : Z;
  hedge_manager : option HedgeManager;
  trade_recorder : TradeRecorder.t
}.

Definition set_grid_levels_data (f : list GridLevel -> list GridLevel)
  (s : GridStrategy) : GridStrategy :=
  mkStrategy (strategy_id s) (trading_pair s) (primary_exchange s) (start_price s)
    (end_price s) (grid_levels s) (total_investment s) (enable_hedge s)
    (f (grid_levels_data s)) (order_manager s) (completed_trades s)
    (hedge_manager s) (trade_recorder s).
Definition set_order_manager (f : OrderManager.t -> OrderManager.t)
  (s : GridStrategy) : GridStrategy :=
  mkStrategy (strategy_id s) (trading_pair s) (primary_exchange s) (start_price s)
    (end_price s) (grid_levels s) (total_investment s) (enable_hedge s)
    (grid_levels_data s) (f (order_manager s)) (completed_trades s)
    (hedge_manager s) (trade_recorder s).
Definition set_completed_trades (f : Z -> Z) (s : GridStrategy) : GridStrategy :=
  mkStrategy (strategy_id s) (trading_pair s) (primary_exchange s) (start_price s)
    (end_price s) (grid_levels s) (total_investment s) (enable_hedge s)
    (grid_levels_data s) (order_manager s) (f (completed_trades s))
    (hedge_manager s) (trade_recorder s).
Definition set_hedge_manager (hm : option HedgeManager) (s : GridStrategy)
  : GridStrategy :=
  mkStrategy (strategy_id s) (trading_pair s) (primary_exchange s) (start_price s)
    (end_price s) (grid_levels s) (total_investment s) (enable_hedge s)
    (grid_levels_data s) (order_manager s) (completed_trades s)
    hm (trade_recorder s).
Definition set_trade_recorder (f : TradeRecorder.t -> TradeRecorder.t)
  (s : GridStrategy) : GridStrategy :=
  mkStrategy (strategy_id s) (trading_pair s) (primary_exchange s) (start_price s)
    (end_price s) (grid_levels s) (total_investment s) (enable_hedge s)
    (grid_levels_data s) (order_manager s) (completed_trades s)
    (hedge_manager s) (f (trade_recorder s)).

Definition set_level_buy (o : option string) (st : LevelStatus) (now : option Z)
  (l : GridLevel) : GridLevel :=
  mkLevel (gl_id l) (gl_price l) (gl_amount l) o (sell_order_id l) st
    (default (gl_last_update l) now).
Definition set_level_sell (o : option string) (st : LevelStatus) (now : option Z)
  (l : GridLevel) : GridLevel :=
  mkLevel (gl_id l) (gl_price l) (gl_amount l) (buy_order_id l) o st
    (default (gl_last_update l) now).

(** The level objects live in [grid_levels_data]; a level is referred to by
    its position there, and mutating it rewrites that position. *)
Definition modify_level (i : nat) (f : GridLevel -> GridLevel) : M GridStrategy unit :=
  modify (set_grid_levels_data (alter f i)).

Module GridStrategy.

Abbreviation t := GridStrategy.

Section WithWorld.
Context (w : World).

(** [get_exchange_precision()] *)
Definition get_exchange_precision : M t (Decimal * Decimal) :=
  st <- get;;
  try_except
    (market <- call (fun tr => w_load_market w tr (trading_pair st))
                 (EvLoadMarket (trading_pair st));;
     match market with
     | (Some price_precision_val, Some amount_precision_val) =>
         ret (price_precision_val, amount_precision_val)
     | _ => log LogPrecisionMissing;;; ret (dec 1 (-8), dec 1 (-8))
     end)
    (fun e => log (LogPrecisionError e);;; ret (dec 1 (-8), dec 1 (-8))).

(** [_adjust_to_precision(value, precision)] *)
Definition _adjust_to_precision (value precision : Decimal) : M t Decimal :=
  if Decimal.leb precision Decimal.zero then
    log (LogBadPrecision precision);;; ret value
  else lift_res (truncate_to value precision).

(** [GridLevel(level_id, price, amount)] *)
Definition new_level (level_id : string) (price amount : Decimal) : M t GridLevel :=
  now <- time_time w;;
  ret (mkLevel level_id price amount None None READY now).

(** [calculate_grid_levels()] *)
Definition calculate_grid_levels : M t unit :=
  precision <- get_exchange_precision;;
  let price_precision := precision.1 in
  st <- get;;
  price_step <-
    (if 1 <? grid_levels st then
       lift_res (r <-r Decimal.sub (end_price st) (start_price st);
                 Decimal.div r (Decimal.of_Z (grid_levels st - 1)))
     else ret Decimal.zero);;
  amount_per_grid <-
    lift_res (Decimal.div (total_investment st) (Decimal.of_Z (grid_levels st)));;
  modify (set_grid_levels_data (fun _ => []));;;
  for_each (seq 0 (Z.to_nat (grid_levels st)))
    (fun i =>
       price <- lift_res (x <-r Decimal.mul price_step (Decimal.of_Z (Z.of_nat i));
                          Decimal.add (start_price st) x);;
       price <- _adjust_to_precision price price_precision;;
       level <- new_level ("level_" +:+ pretty i) price amount_per_grid;;
       modify (set_grid_levels_data (fun ls => ls ++ [level])));;;
  st <- get;;
  log (LogGridCreated (length (grid_levels_data st))).

(** [if self.enable_hedge and self.hedge_manager: await
    self.hedge_manager.<m>]: run [m] on the hedge manager object. *)
Definition with_hedge_manager {A} (m : M HedgeManager A) : M t unit :=
  fun st tr =>
    match enable_hedge st, hedge_manager st with
    | true, Some hm =>
        match m hm tr with
        | (Ok _, hm', tr') => (Ok tt, set_hedge_manager (Some hm') st, tr')
        | (Raise e, hm', tr') => (Raise e, set_hedge_manager (Some hm') st, tr')
        end
    | _, _ => (Ok tt, st, tr)
    end.

(** [place_buy_order(level)] / [place_sell_order(level)] differ in the
    side, the hedge side and the level fields they write. *)
Definition place_order (side hedge_side : string)
    (set_ref : option string -> LevelStatus -> option Z -> GridLevel -> GridLevel)
    (placing : LevelStatus) (i : nat) : M t (option string) :=
  try_except
    (precision <- get_exchange_precision;;
     let price_precision := precision.1 in
     let amount_precision := precision.2 in
     st <- get;;
     match grid_levels_data st !! i with
     | None => ret None
     | Some level =>
         price <- _adjust_to_precision (gl_price level) price_precision;;
         q <- lift_res (Decimal.div (gl_amount level) price);;
         base_amount <- _adjust_to_precision q amount_precision;;
         order_id <-
           call (fun tr => w_create_limit_order w tr (primary_exchange st)
                             (trading_pair st) side base_amount price)
             (EvCreateLimitOrder (primary_exchange st) (trading_pair st) side
                base_amount price);;
         now <- time_time w;;
         modify_level i (set_ref (Some order_id) placing (Some now));;;
         now <- time_time w;;
         modify (set_order_manager
                   (fun om =>
                      (OrderManager.add_order order_id
                         (mkOrder (gl_id level) (gl_price level) base_amount side
                            "open" now None None) om).2));;;
         with_hedge_manager
           (HedgeManager.create_hedge_order w (strategy_id st) hedge_side
              base_amount (gl_price level) (gl_id level) None);;;
         log (LogOrderCreated side order_id);;;
         ret (Some order_id)
     end)
    (fun e => log (LogPlaceFailed side e);;; ret None).

Definition place_buy_order (i : nat) : M t (option string) :=
  place_order "buy" "sell" set_level_buy BUYING i.

Definition place_sell_order (i : nat) : M t (option string) :=
  place_order "sell" "buy" set_level_sell SELLING i.

(** [next((l for l in self.grid_levels_data if l.id == level_id), None)],
    as a position in the list. *)
Definition find_level (level_id : string) (st : t) : option nat :=
  fst <$> list_find (fun l => gl_id l = level_id) (grid_levels_data st).

(** [handle_order_filled(order_id, order_info)] *)
Definition handle_order_filled (order_id : string) : M t unit :=
  st <- get;;
  match OrderManager.get_order order_id (order_manager st) with
  | None => log (LogOrderNotFound order_id)
  | Some order_data =>
      let level_id := od_level_id order_data in
      let side := od_side order_data in
      let price := od_price order_data in
      let amount := od_amount order_data in
      now <- time_time w;;
      modify (set_order_manager
                (fun om =>
                   (OrderManager.update_order order_id
                      (mkOrder level_id price amount side "filled"
                         (od_timestamp order_data) (Some now)
                         (od_cancel_time order_data)) om).2));;;
      match find_level level_id st with
      | None => log (LogLevelNotFound level_id)
      | Some i =>
          (if decide (side = "buy") then
             modify_level i (set_level_buy None BOUGHT None);;;
             place_sell_order i
           else
             modify_level i (set_level_sell None SOLD None);;;
             place_buy_order i);;;
          now <- time_time w;;
          modify (set_trade_recorder
                    (TradeRecorder.record_trade
                       (mkTrade (strategy_id st) order_id (trading_pair st) side
                          price amount now)));;;
          modify (set_completed_trades (fun n => n + 1));;;
          log (LogOrderFilled order_id)
      end
  end.

(** [handle_order_canceled(order_id)] *)
Definition handle_order_canceled (order_id : string) : M t unit :=
  st <- get;;
  match OrderManager.get_order order_id (order_manager st) with
  | None => log (LogOrderNotFound order_id)
  | Some order_data =>
      let level_id := od_level_id order_data in
      let side := od_side order_data in
      now <- time_time w;;
      modify (set_order_manager
                (fun om =>
                   (OrderManager.update_order order_id
                      (mkOrder level_id (od_price order_data) (od_amount order_data)
                         side "canceled" (od_timestamp order_data)
                         (od_filled_time order_data) (Some now)) om).2));;;
      match find_level level_id st with
      | None => log (LogLevelNotFound level_id)
      | Some i =>
          (if decide (side = "buy") then
             modify_level i
               (fun l => set_level_buy None
                           (if decide (gl_status l = BUYING) then READY
                            else gl_status l) None l)
           else
             modify_level i
               (fun l => set_level_sell None
                           (if decide (gl_status l = SELLING) then BOUGHT
                            else gl_status l) None l));;;
          log (LogOrderCanceled order_id)
      end
  end.

(** The ids collected by [check_order_status] and [cancel_all_orders]. *)
Definition level_order_ids (l : GridLevel) : list string :=
  (if truthy (buy_order_id l) then [default "" (buy_order_id l)] else [])
  ++ (if truthy (sell_order_id l) then [default "" (sell_order_id l)] else []).

(** [check_order_status()] *)
Definition check_order_status : M t unit :=
  st <- get;;
  let active_order_ids : gset string :=
    list_to_set (concat (level_order_ids <$> grid_levels_data st)) in
  if decide (active_order_ids = ∅) then ret tt
  else
    orders_info <-
      call (fun tr => w_fetch_orders_by_ids w tr (primary_exchange st)
                        active_order_ids (trading_pair st))
        (EvFetchOrdersByIds (primary_exchange st) active_order_ids (trading_pair st));;
    for_each orders_info
      (fun '(order_id, status) =>
         if decide (status = "closed") then handle_order_filled order_id
         else if decide (status = "canceled") then handle_order_canceled order_id
         else ret tt).

(** The body of the loop of [update_grid_orders]. *)
Definition update_level (current_price : Decimal) (i : nat) : M t unit :=
  st <- get;;
  match grid_levels_data st !! i with
  | None => ret tt
  | Some level =>
      match gl_status level with
      | READY =>
          if Decimal.ltb current_price (gl_price level) then
            place_buy_order i;;; ret tt
          else if Decimal.ltb (gl_price level) current_price then
            place_sell_order i;;; ret tt
          else ret tt
      | BOUGHT =>
          if negb (truthy (sell_order_id level)) then place_sell_order i;;; ret tt
          else ret tt
      | SOLD =>
          if negb (truthy (buy_order_id level)) then place_buy_order i;;; ret tt
          else ret tt
      | _ => ret tt
      end
  end.

(** [update_grid_orders(current_price)] *)
Definition update_grid_orders (current_price : Decimal) : M t unit :=
  st <- get;;
  for_each (seq 0 (length (grid_levels_data st))) (update_level current_price).

End WithWorld.

End GridStrategy.

(** * Vocabulary of the statements and scenarios *)

(** The spec's reading of the active-order count. *)
Definition active_order_count_spec (orders : gmap string OrderData) : nat :=
  size (filter (fun kv : string * OrderData =>
                  od_status kv.2 = "open" ∨ od_status kv.2 = "partially_filled") orders).

Definition order1 : OrderData :=
  mkOrder "level_0" (dec 100 0) (dec 2 0) "buy" "open" 0 None None.

(** *** Operations of a hedge manager, for reachability *)

Inductive HedgeOp : Type :=
  | OpInitialize (strategy_id trading_pair : string) (exchanges : list ExchangeRef)
  | OpCreate (strategy_id side : string) (amount price : Decimal) (level_id : string)
      (original_order_id : option string)
  | OpCancel (original_order_id : string)
  | OpUpdate (strategy_id : string)
  | OpOrderFilled (original_order_id : string).

Definition drop_result {S A} (m : M S A) (st : S * Trace) : S * Trace :=
  ((m st.1 st.2).1.2, (m st.1 st.2).2).

Definition run_hedge_op (w : World) (op : HedgeOp) (st : HedgeManager * Trace)
  : HedgeManager * Trace :=
  match op with
  | OpInitialize sid symbol exs =>
      drop_result (HedgeManager.initialize_for_strategy w sid symbol exs) st
  | OpCreate sid side amount price level_id orig =>
      drop_result (HedgeManager.create_hedge_order w sid side amount price level_id orig) st
  | OpCancel orig => drop_result (HedgeManager.cancel_hedge_orders w orig) st
  | OpUpdate sid => drop_result (HedgeManager.update w sid) st
  | OpOrderFilled orig => drop_result (HedgeManager.handle_order_filled orig) st
  end.

(** The states a hedge manager reaches from [HedgeManager.__init__]. *)
Definition hedge_run (w : World) (ops : list HedgeOp) : HedgeManager * Trace :=
  foldl (fun st op => run_hedge_op w op st) (HedgeManager.init, []) ops.

(** The group status agrees with its members, as the spec words it. *)
Definition group_filled_iff_members (g : HedgeGroup) : Prop :=
  hg_status g = "filled" ↔ HedgeManager.all_filled (hg_orders g) = true.

(** The outcome of [cancel_hedge_orders] for one member. *)
Definition cancel_outcome (w : World) (symbol order_id : string) (v v' : HedgeOrder)
  : Prop :=
  (ho_status v ≠ "open" ∧ v' = v) ∨
  (ho_status v = "open" ∧
   w_get_exchange_by_name w (ho_exchange_name v) = None ∧ v' = v) ∨
  (ho_status v = "open" ∧
   ∃ ex tr, w_get_exchange_by_name w (ho_exchange_name v) = Some ex ∧
     ((∃ b now, w_cancel_order w tr ex order_id symbol = Ok b ∧
                v' = set_ho_cancel_time now (set_ho_status "canceled" v)) ∨
      (∃ e, w_cancel_order w tr ex order_id symbol = Raise e ∧ v' = v))).

(** The outcome of [update] for one member and for one group. *)
Definition update_member_outcome (k : string) (v v' : HedgeOrder) : Prop :=
  v' = v ∨
  (ho_status v = "open" ∧ (ho_status v' = "filled" ∨ ho_status v' = "canceled")).

Definition update_group_outcome (strategy_id : string) (k : string)
    (g g' : HedgeGroup) : Prop :=
  hg_status g' = hg_status g ∧
  hg_strategy_id g' = hg_strategy_id g ∧
  (hg_status g ≠ "open" ∨ hg_strategy_id g ≠ strategy_id → g' = g) ∧
  Forall2 (fun a b => a.1 = b.1 ∧ update_member_outcome a.1 a.2 b.2)
    (hg_orders g) (hg_orders g').

(** *** A concrete venue for the scenarios *)

Definition venue_h : ExchangeRef := mkExchange "binance" "binance_hedge".

Definition is_market_fetch (ev : Event) : bool :=
  match ev with EvFetchMarketInfo _ _ => true | _ => false end.

Definition count_market_fetches (tr : Trace) : nat :=
  length (List.filter is_market_fetch tr).

(** The hedge venue accepts every order, reports two price digits on the
    first market-info request and four afterwards, reports every order as
    closed, and fails every cancellation. *)
Definition w_demo : World := {|
  w_time tr := Z.of_nat (length tr);
  w_uuid_hex8 _ := "0a1b2c3d";
  w_load_market _ _ := Raise VenueError;
  w_fetch_market_info tr _ _ :=
    if decide (count_market_fetches tr = 0%nat) then Ok (Some 2, Some 3)
    else Ok (Some 4, Some 5);
  w_create_limit_order tr _ _ _ _ _ := Ok ("h" +:+ pretty (length tr));
  w_cancel_order _ _ _ _ := Raise VenueError;
  w_fetch_order _ _ _ _ := Ok "closed";
  w_fetch_orders_by_ids _ _ _ _ := Ok [];
  w_get_exchange_by_name n := if decide (n = "binance") then Some venue_h else None
|}.

Definition ops_create : list HedgeOp :=
  [OpInitialize "s1" "BTC/USDT" [venue_h];
   OpCreate "s1" "buy" (dec 5 (-1)) (dec 20000 0) "level_0" (Some "p1")].

Definition stored_precision (st : HedgeManager * Trace) : option (Decimal * Decimal) :=
  (fun c => (hc_price_precision c, hc_amount_precision c)) <$>
  hedge_strategies st.1 !! "s1".

(** C6 as the spec words it: after [cancel_hedge_orders] every member that
    was open is marked canceled. *)
Definition cancel_marks_every_open_member (w : World) (original_order_id : string)
    (hm : HedgeManager) (tr : Trace) : Prop :=
  ∀ g k v,
    dget original_order_id (hedge_orders hm) = Some g →
    dget k (hg_orders g) = Some v →
    ho_status v = "open" →
    ∃ g' v',
      dget original_order_id
        (hedge_orders (HedgeManager.cancel_hedge_orders w original_order_id hm tr).1.2)
        = Some g' ∧
      dget k (hg_orders g') = Some v' ∧ ho_status v' = "canceled".

Definition group_ok (kg : string * HedgeGroup) : Prop :=
  hg_status kg.2 = "filled" → HedgeManager.all_filled (hg_orders kg.2) = true.

Definition groups_consistent (hm : HedgeManager) : Prop :=
  Forall group_ok (hedge_orders hm).

(** The fields of a strategy that placing an order never writes. *)
Definition same_config (st st' : GridStrategy) : Prop :=
  strategy_id st' = strategy_id st ∧
  trading_pair st' = trading_pair st ∧
  primary_exchange st' = primary_exchange st ∧
  enable_hedge st' = enable_hedge st ∧
  completed_trades st' = completed_trades st ∧
  trade_recorder st' = trade_recorder st.

(** What [place_buy_order] / [place_sell_order] leave behind. *)
Definition placement_outcome
    (set_ref : option string -> LevelStatus -> option Z -> GridLevel -> GridLevel)
    (placing : LevelStatus) (i : nat) (st : GridStrategy) (r : option string)
    (st' : GridStrategy) : Prop :=
  same_config st st' ∧
  (∀ k v, order_manager st !! k = Some v → order_manager st' !! k = Some v) ∧
  ((r = None ∧ grid_levels_data st' = grid_levels_data st ∧
    order_manager st' = order_manager st ∧ hedge_manager st' = hedge_manager st) ∨
   (∃ level order_id now,
      grid_levels_data st !! i = Some level ∧
      grid_levels_data st' =
        alter (set_ref (Some order_id) placing (Some now)) i (grid_levels_data st) ∧
      (r = Some order_id ∨ r = None))).

(** The order record of [order_data] once [handle_order_filled] has marked it. *)
Definition mark_filled (now : Z) (od : OrderData) : OrderData :=
  mkOrder (od_level_id od) (od_price od) (od_amount od) (od_side od) "filled"
    (od_timestamp od) (Some now) (od_cancel_time od).

(** The state in which the opposite order is placed: the order is marked
    filled and the level carries its new status and a cleared reference. *)
Definition fill_marked (now : Z) (order_id : string) (od : OrderData) (i : nat)
    (st : GridStrategy) : GridStrategy :=
  set_grid_levels_data
    (alter (if decide (od_side od = "buy") then set_level_buy None BOUGHT None
            else set_level_sell None SOLD None) i)
    (set_order_manager (fun om => <[order_id := mark_filled now od]> om) st).

Definition fill_recorded (now : Z) (order_id : string) (od : OrderData)
    (st0 st2 : GridStrategy) : GridStrategy :=
  set_completed_trades (fun n => n + 1)
    (set_trade_recorder
       (TradeRecorder.record_trade
          (mkTrade (strategy_id st0) order_id (trading_pair st0) (od_side od)
             (od_price od) (od_amount od) now)) st2).

(** *** Scenario: one level whose buy order "o1" is outstanding *)

Definition venue_p : ExchangeRef := mkExchange "binance" "binance_main".

Definition w_grid : World := {|
  w_time tr := Z.of_nat (length tr);
  w_uuid_hex8 _ := "0a1b2c3d";
  w_load_market _ _ := Raise VenueError;
  w_fetch_market_info _ _ _ := Ok (Some 2, Some 3);
  w_create_limit_order tr _ _ _ _ _ := Ok ("h" +:+ pretty (length tr));
  w_cancel_order _ _ _ _ := Raise VenueError;
  w_fetch_order _ _ _ _ := Ok "closed";
  w_fetch_orders_by_ids _ _ _ _ := Ok [];
  w_get_exchange_by_name n := if decide (n = "binance") then Some venue_p else None
|}.

Definition st_buying : GridStrategy :=
  mkStrategy "s1" "BTC/USDT" venue_p (dec 100 0) (dec 200 0) 2 (dec 1000 0) false
    [mkLevel "level_0" (dec 100 0) (dec 500 0) (Some "o1") None BUYING 0;
     mkLevel "level_1" (dec 200 0) (dec 500 0) None None READY 0]
    {["o1" := mkOrder "level_0" (dec 100 0) (dec 5 0) "buy" "open" 0 None None]}
    0 None ∅.

Definition is_placement (ev : Event) : bool :=
  match ev with EvCreateLimitOrder _ _ _ _ _ => true | _ => false end.

Definition count_placements (tr : Trace) : nat :=
  length (List.filter is_placement tr).

(** C2 as the spec words it: handling the same fill again appends no trade
    record and places no further order. *)
Definition second_fill_is_noop (w : World) (order_id : string) (st : GridStrategy)
    (tr : Trace) : Prop :=
  let s1 := drop_result (GridStrategy.handle_order_filled w order_id) (st, tr) in
  let s2 := drop_result (GridStrategy.handle_order_filled w order_id) s1 in
  TradeRecorder.trades_of (strategy_id st) (trade_recorder s2.1) =
    TradeRecorder.trades_of (strategy_id st) (trade_recorder s1.1) ∧
  count_placements s2.2 = count_placements s1.2.

(** What the level of a filled order looks like afterwards.  [BOUGHT] or
    [SOLD] stays visible when the opposite order could not be placed. *)
Definition level_after_fill (side : string) (level level' : GridLevel) : Prop :=
  if decide (side = "buy") then
    level' = set_level_buy None BOUGHT None level ∨
    ∃ new_id now, level' = set_level_sell (Some new_id) SELLING (Some now)
                             (set_level_buy None BOUGHT None level)
  else
    level' = set_level_sell None SOLD None level ∨
    ∃ new_id now, level' = set_level_buy (Some new_id) BUYING (Some now)
                             (set_level_sell None SOLD None level).

(** Scenario for C8: the venue rejects the first order it is sent and accepts
    the following ones. *)
Definition w_first_fails : World := {|
  w_time tr := Z.of_nat (length tr);
  w_uuid_hex8 _ := "0a1b2c3d";
  w_load_market _ _ := Raise VenueError;
  w_fetch_market_info _ _ _ := Ok (Some 2, Some 3);
  w_create_limit_order tr _ _ _ _ _ :=
    if decide (count_placements tr = 0%nat) then Raise VenueError
    else Ok ("h" +:+ pretty (length tr));
  w_cancel_order _ _ _ _ := Raise VenueError;
  w_fetch_order _ _ _ _ := Ok "closed";
  w_fetch_orders_by_ids _ _ _ _ := Ok [];
  w_get_exchange_by_name n := if decide (n = "binance") then Some venue_p else None
|}.

Definition st_ready : GridStrategy :=
  mkStrategy "s1" "BTC/USDT" venue_p (dec 100 0) (dec 200 0) 3 (dec 900 0) false
    [mkLevel "level_0" (dec 100 0) (dec 300 0) None None READY 0;
     mkLevel "level_1" (dec 150 0) (dec 300 0) None None READY 0;
     mkLevel "level_2" (dec 200 0) (dec 300 0) None None READY 0]
    ∅ 0 None ∅.


(** The coefficient, at exponent [- d], of a value [c * 10 ^ (k - d)]
    truncated toward zero to a multiple of [10 ^ (- d)]. *)
Definition trunc_coef (c k : Z) : Z :=
  if 0 <=? k then c * 10 ^ k else Z.quot c (10 ^ (- k)).

(** The price of level [i]: [start + step * i], then [_adjust_to_precision]. *)
Definition level_price (start step precision : Decimal) (i : nat) : Res Decimal :=
  x <-r Decimal.mul step (Decimal.of_Z (Z.of_nat i));
  y <-r Decimal.add start x;
  if Decimal.leb precision Decimal.zero then Ok y else truncate_to y precision.

(** [price_step] of [calculate_grid_levels]. *)
Definition price_step (start_price end_price : Decimal) (grid_levels : Z) : Res Decimal :=
  if 1 <? grid_levels then
    r <-r Decimal.sub end_price start_price;
    Decimal.div r (Decimal.of_Z (grid_levels - 1))
  else Ok Decimal.zero.




Definition st_config (low high : Decimal) (n : Z) (total : Decimal) : GridStrategy :=
  mkStrategy "s1" "BTC/USDT" venue_p low high n total false [] ∅ 0 None ∅.

Definition is_new_level (amount : Decimal) (ip : nat * Decimal) (l : GridLevel) : Prop :=
  ∃ t, l = mkLevel ("level_" +:+ pretty ip.1) ip.2 amount None None READY t.

(** * The remaining queries and operations of the same files *)

(** ** girdbot/core/order_manager.py: the queries and the bulk operations *)

Module OrderQueries.

Import OrderManager.

(** [get_orders_by_status(status)].  An entry [{"id": order_id,
    **order_data}] is the pair of the id and the record.  The store keeps no
    insertion order: the list comes in the enumeration order of the map. *)
Definition get_orders_by_status (status : string) (orders : t)
  : list (string * OrderData) :=
  filter (fun kv => od_status kv.2 = status) (map_to_list orders).

(** [get_active_orders()] *)
Definition get_active_orders (orders : t) : list (string * OrderData) :=
  filter (fun kv => is_active kv.2 = true) (map_to_list orders).


(** [clean_old_orders(max_age)]; the clock, the timestamps and [max_age]
    are the integers of the model. *)
Definition clean_old_orders (w : World) (max_age : Z) : M t nat :=
  current_time <- time_time w;;
  orders <- get;;
  let old_orders :=
    (filter (fun kv : string * OrderData =>
               max_age < current_time - od_timestamp kv.2 ∧ is_active kv.2 = false)
       (map_to_list orders)).*1 in
  for_each old_orders (fun order_id => modify (fun om => (delete_order order_id om).2));;;
  ret (length old_orders).

(** [bulk_update_orders(updates)] *)
Definition bulk_update_orders (updates : pydict OrderData) (orders : t) : nat * t :=
  foldl (fun acc upd =>
           let r := update_order upd.1 upd.2 acc.2 in
           (if r.1 then S acc.1 else acc.1, r.2))
    (0%nat, orders) updates.

End OrderQueries.

(** ** girdbot/utils/helpers.py: [truncate_string] *)

(** [text[:stop]] on a Python string: a negative [stop] counts from the
    end, and both ends are clamped to the string. *)
Definition py_slice_to (stop : Z) (text : string) : string :=
  let n := Z.of_nat (String.length text) in
  let stop := if stop <? 0 then Z.max (n + stop) 0 else Z.min stop n in
  String.string_of_list_ascii
    (take (Z.to_nat stop) (String.list_ascii_of_string text)).

(** [truncate_string(text, max_length=100)] *)
Definition truncate_string (text : string) (max_length : Z) : string :=
  if Z.of_nat (String.length text) <=? max_length then text
  else py_slice_to (max_length - 3) text +:+ "...".

(** ** girdbot/core/hedge_manager.py: the lookups *)

Module HedgeQueries.

(** [get_hedge_orders_by_strategy(strategy_id)] *)
Definition get_hedge_orders_by_strategy (strategy_id : string) (hm : HedgeManager)
  : pydict HedgeGroup :=
  filter (fun kg : string * HedgeGroup => hg_strategy_id kg.2 = strategy_id)
    (hedge_orders hm).

(** [get_hedge_order_by_original(original_order_id)] *)
Definition get_hedge_order_by_original (original_order_id : string)
    (hm : HedgeManager) : option HedgeGroup :=
  dget original_order_id (hedge_orders hm).

(** [get_original_order_id(hedge_order_id)] *)
Definition get_original_order_id (hedge_order_id : string) (hm : HedgeManager)
  : option string :=
  reverse_lookup hm !! hedge_order_id.

End HedgeQueries.

(** [hedge_side] of [create_hedge_order]. *)
Definition opposite_side (side : string) : string :=
  if decide (side = "buy") then "sell" else "buy".

(** One limit order request for each venue, in the order of the venues. *)
Definition hedge_requests (trading_pair hedge_side : string)
    (amount price : Decimal) (exchanges : list ExchangeRef) : list Event :=
  (fun ex => EvCreateLimitOrder ex trading_pair hedge_side amount price) <$> exchanges.

(** Every group belongs to a strategy that has a hedge configuration. *)
Definition groups_registered (hm : HedgeManager) : Prop :=
  Forall (fun kg : string * HedgeGroup =>
            is_Some (hedge_strategies hm !! hg_strategy_id kg.2))
    (hedge_orders hm).

Definition is_create_op (op : HedgeOp) : bool :=
  match op with OpCreate _ _ _ _ _ _ => true | _ => false end.

(** What the loop over the venues has collected so far. *)
Definition collected (orig : string)
    (acc : list string * pydict HedgeOrder) (hm : HedgeManager) : Prop :=
  (∀ id, id ∈ acc.1 ↔ is_Some (dget id acc.2)) ∧
  (∀ id o, dget id acc.2 = Some o →
     ho_status o = "open" ∧ reverse_lookup hm !! id = Some orig).

(** The member [k] of the group of [orig]. *)
Definition member_of (hm : HedgeManager) (orig k : string) : option HedgeOrder :=
  g ← dget orig (hedge_orders hm); dget k (hg_orders g).

Definition is_fetch_order (ev : Event) : bool :=
  match ev with EvFetchOrder _ _ _ => true | _ => false end.

Definition is_cancel_order (ev : Event) : bool :=
  match ev with EvCancelOrder _ _ _ => true | _ => false end.

(** The members of a group that are open and whose venue is found by
    name, each with that venue, in the order of the group. *)
Definition open_members (w : World) (orders : pydict HedgeOrder)
  : list (string * ExchangeRef) :=
  omap (fun kv : string * HedgeOrder =>
          if decide (ho_status kv.2 = "open") then
            (fun ex => (kv.1, ex)) <$> w_get_exchange_by_name w (ho_exchange_name kv.2)
          else None)
    orders.

(** ** girdbot/core/grid_strategy.py: cancelling everything *)

Module GridShutdown.

Section WithWorld.
Context (w : World).

(** [cancel_all_orders()].  The ids are collected in a list, buy before
    sell, level after level.  The logger calls of this method leave no
    event. *)
Definition cancel_all_orders : M GridStrategy unit :=
  st <- get;;
  let active_order_ids :=
    concat (GridStrategy.level_order_ids <$> grid_levels_data st) in
  match active_order_ids with
  | [] => ret tt
  | _ =>
      for_each active_order_ids
        (fun order_id =>
           try_except
             (call (fun tr => w_cancel_order w tr (primary_exchange st) order_id
                                (trading_pair st))
                (EvCancelOrder (primary_exchange st) order_id (trading_pair st));;;
              ret tt)
             (fun _ => ret tt))
  end.

(** [shutdown()] *)
Definition shutdown : M GridStrategy unit :=
  try_except cancel_all_orders (fun _ => ret tt).

End WithWorld.

End GridShutdown.

(** The order record of [order_data] once [handle_order_canceled] has
    marked it. *)
Definition mark_canceled (now : Z) (od : OrderData) : OrderData :=
  mkOrder (od_level_id od) (od_price od) (od_amount od) (od_side od) "canceled"
    (od_timestamp od) (od_filled_time od) (Some now).


(** ** girdbot/exchange/exchange_manager.py: lookup by name *)

Module ExchangeManager.

(** [self.exchanges]: exchange id -> exchange, in the order of
    initialisation. *)
Abbreviation t := (pydict ExchangeRef).

(** [get_exchange_by_name(exchange_name)] *)
Definition get_exchange_by_name (exchanges : t) (exchange_name : string)
  : option ExchangeRef :=
  snd <$> list_find (fun ex => ex_name ex = exchange_name) (dvalues exchanges).

End ExchangeManager.

(** ** Profit: [GridStrategy.calculate_profit] and
    [TradeRecorder.calculate_profit] *)

(** [for x in l: acc = f(acc, x)], stopping at the first exception. *)
Fixpoint res_foldl {A B} (f : A -> B -> Res A) (a : A) (l : list B) : Res A :=
  match l with
  | [] => Ok a
  | x :: l' => a' <-r f a x; res_foldl f a' l'
  end.

Module StrategyProfit.

(** The four running totals of [GridStrategy.calculate_profit]. *)
Record Totals : Type := mkTotals {
  buy_volume : Decimal;
  sell_volume : Decimal;
  buy_cost : Decimal;
  sell_revenue : Decimal
}.

(** The body of the loop over the trades.  A trade's price and amount are
    stored as [str(...)] of the decimals and read back with [Decimal(...)],
    which gives the same decimals. *)
Definition step (acc : Totals) (trade : Trade) : Res Totals :=
  let price := tr_price trade in
  let amount := tr_amount trade in
  if decide (tr_side trade = "buy") then
    v <-r Decimal.add (buy_volume acc) amount;
    x <-r Decimal.mul amount price;
    c <-r Decimal.add (buy_cost acc) x;
    Ok (mkTotals v (sell_volume acc) c (sell_revenue acc))
  else
    v <-r Decimal.add (sell_volume acc) amount;
    x <-r Decimal.mul amount price;
    c <-r Decimal.add (sell_revenue acc) x;
    Ok (mkTotals (buy_volume acc) v (buy_cost acc) c).

(** [calculate_profit()], given the trades of the strategy and the value of
    [self.total_profit]; the result is the new [self.total_profit], which is
    also what is returned.  The integer [0] of the branch without buy volume
    is the decimal zero. *)
Definition calculate_profit (trades : list Trade) (total_profit : Decimal)
  : Res Decimal :=
  totals <-r res_foldl step
               (mkTotals Decimal.zero Decimal.zero Decimal.zero Decimal.zero) trades;
  if Decimal.ltb Decimal.zero (sell_revenue totals) then
    if Decimal.ltb Decimal.zero (buy_volume totals) then
      q <-r Decimal.div (sell_volume totals) (buy_volume totals);
      x <-r Decimal.mul (buy_cost totals) q;
      Decimal.sub (sell_revenue totals) x
    else Ok Decimal.zero
  else Ok total_profit.

End StrategyProfit.

Module RecorderProfit.

(** The dict returned by [TradeRecorder.calculate_profit]; the values are
    [str(...)] of these decimals, or the integer [0] when there is no
    trade. *)
Record Report : Type := mkReport {
  total_buy_volume : Decimal;
  total_sell_volume : Decimal;
  total_buy_value : Decimal;
  total_sell_value : Decimal;
  realized_profit : Decimal;
  total_fees : Decimal
}.

Record Totals : Type := mkTotals {
  buy_volume : Decimal;
  sell_volume : Decimal;
  buy_value : Decimal;
  sell_value : Decimal
}.

(** The body of the loop; the strategy records no fee, so [total_fees]
    stays at zero. *)
Definition step (acc : Totals) (trade : Trade) : Res Totals :=
  let price := tr_price trade in
  let amount := tr_amount trade in
  value <-r Decimal.mul price amount;
  if decide (tr_side trade = "buy") then
    v <-r Decimal.add (buy_volume acc) amount;
    c <-r Decimal.add (buy_value acc) value;
    Ok (mkTotals v (sell_volume acc) c (sell_value acc))
  else
    v <-r Decimal.add (sell_volume acc) amount;
    c <-r Decimal.add (sell_value acc) value;
    Ok (mkTotals (buy_volume acc) v (buy_value acc) c).

(** [calculate_profit(strategy_id)], given the trades of the strategy. *)
Definition calculate_profit (trades : list Trade) : Res Report :=
  match trades with
  | [] => Ok (mkReport Decimal.zero Decimal.zero Decimal.zero Decimal.zero
                Decimal.zero Decimal.zero)
  | _ =>
      totals <-r res_foldl step
                   (mkTotals Decimal.zero Decimal.zero Decimal.zero Decimal.zero)
                   trades;
      profit <-r
        (if Decimal.ltb Decimal.zero (buy_volume totals)
            && Decimal.ltb Decimal.zero (sell_volume totals) then
           avg_buy_price <-r Decimal.div (buy_value totals) (buy_volume totals);
           x <-r Decimal.mul (sell_volume totals) avg_buy_price;
           Decimal.sub (sell_value totals) x
         else Ok Decimal.zero);
      Ok (mkReport (buy_volume totals) (sell_volume totals) (buy_value totals)
            (sell_value totals) profit Decimal.zero)
  end.

End RecorderProfit.


(** *** Further scenarios *)

Definition orders2 : gmap string OrderData :=
  {["o1" := order1;
    "o2" := mkOrder "level_1" (dec 200 0) (dec 1 0) "sell" "filled" 5 (Some 9) None]}.

(** The hedge manager after [initialize_for_strategy]. *)
Definition ops_init : list HedgeOp := [OpInitialize "s1" "BTC/USDT" [venue_h]].

(** * Proofs *)

Section OrderManagerFacts.
Import OrderManager.

Lemma is_active_spec od :
  is_active od = true ↔
  od_status od = "open" ∨ od_status od = "partially_filled".
Proof.
  unfold is_active. rewrite bool_decide_eq_true.
  rewrite !elem_of_cons, elem_of_nil. tauto.
Qed.

Lemma count_active_orders_spec (orders : gmap string OrderData) :
  count_active_orders orders = active_order_count_spec orders.
Proof.
  unfold count_active_orders, active_order_count_spec.
  induction orders as [|k od m Hk Hfirst IH] using map_first_key_ind.
  - rewrite map_to_list_empty, map_filter_empty, map_size_empty. reflexivity.
  - rewrite map_to_list_insert_first_key by done. cbn [fmap list_fmap snd].
    rewrite filter_cons, map_filter_insert. simpl.
    rewrite delete_id by done.
    destruct (decide (is_active od = true)) as [Ha|Ha];
      pose proof Ha as Ha'; rewrite is_active_spec in Ha'.
    + rewrite decide_True by done. simpl. rewrite IH.
      rewrite map_size_insert_None; [done|].
      rewrite map_lookup_filter_None. by left.
    + rewrite decide_False by done. done.
Qed.
End OrderManagerFacts.

(** C9. [add_order] on an id that is present returns false and leaves the
    stored orders as they were; [update_order] on an absent id returns false
    (and changes nothing); [count_active_orders] is the number of stored
    orders whose status is "open" or "partially_filled". *)
Theorem order_manager_contract (orders : gmap string OrderData)
    (order_id : string) (order_data : OrderData) :
  (is_Some (orders !! order_id) →
     OrderManager.add_order order_id order_data orders = (false, orders)) ∧
  (orders !! order_id = None →
     OrderManager.update_order order_id order_data orders = (false, orders)) ∧
  OrderManager.count_active_orders orders = active_order_count_spec orders.
Proof.
  split; [|split].
  - intros [old Hold]. unfold OrderManager.add_order. by rewrite Hold.
  - intros Hnone. unfold OrderManager.update_order. by rewrite Hnone.
  - apply count_active_orders_spec.
Qed.

Lemma order_manager_contract_witness :
  OrderManager.add_order "o1" order1 {["o1" := order1]} = (false, {["o1" := order1]}) ∧
  OrderManager.update_order "o2" order1 {["o1" := order1]} = (false, {["o1" := order1]}) ∧
  OrderManager.count_active_orders {["o1" := order1]} = 1%nat.
Proof.
  destruct (order_manager_contract {["o1" := order1]} "o1" order1) as (Hadd & _ & Hcount).
  destruct (order_manager_contract {["o1" := order1]} "o2" order1) as (_ & Hupd & _).
  split; [|split].
  - apply Hadd. by eexists.
  - apply Hupd. done.
  - rewrite Hcount. reflexivity.
Defined.


(** *** Generic facts on the monad *)

Lemma bind_run {S A B} (m : M S A) (k : A -> M S B) s t :
  bind m k s t =
  match m s t with
  | (Ok a, s', t') => k a s' t'
  | (Raise e, s', t') => (Raise e, s', t')
  end.
Proof. reflexivity. Qed.

Lemma try_except_run {S A} (m : M S A) (h : Exn -> M S A) s t :
  try_except m h s t =
  match m s t with
  | (Ok a, s', t') => (Ok a, s', t')
  | (Raise e, s', t') => h e s' t'
  end.
Proof. reflexivity. Qed.

(** *** Insertion-ordered dicts *)

Section PyDict.
Context {V : Type}.
Implicit Types (d : pydict V) (k : string) (v : V).

Lemma dget_dset_eq k v d : dget k (dset k v d) = Some v.
Proof.
  induction d as [|[k' v'] d IH]; simpl.
  - by rewrite decide_True.
  - destruct (decide (k' = k)) as [->|Hne]; simpl.
    + by rewrite decide_True.
    + by rewrite decide_False.
Qed.

Lemma dget_dset_ne k k' v d : k ≠ k' → dget k' (dset k v d) = dget k' d.
Proof.
  intros Hne. induction d as [|[k0 v0] d IH]; simpl.
  - by rewrite decide_False.
  - destruct (decide (k0 = k)) as [->|Hne0]; simpl.
    + by rewrite !decide_False.
    + by rewrite IH.
Qed.

Lemma dget_Some_elem k v d : dget k d = Some v → (k, v) ∈ d.
Proof.
  induction d as [|[k0 v0] d IH]; simpl; [done|].
  destruct (decide (k0 = k)) as [->|Hne].
  - intros [= ->]. apply elem_of_cons. by left.
  - intros Hd. apply elem_of_cons. right. by apply IH.
Qed.

Lemma Forall_dset (P : string * V → Prop) k v d :
  Forall P d → P (k, v) → Forall P (dset k v d).
Proof.
  intros Hd Hkv. induction Hd as [|[k0 v0] d Hx Hd IH]; simpl.
  - by repeat constructor.
  - destruct (decide (k0 = k)); by constructor.
Qed.

Lemma Forall2_dget (R : string → V → V → Prop) d d' k v :
  Forall2 (fun a b => a.1 = b.1 ∧ R a.1 a.2 b.2) d d' →
  dget k d = Some v →
  ∃ v', dget k d' = Some v' ∧ R k v v'.
Proof.
  induction 1 as [|[k0 v0] [k1 v1] d d' [Hk HR] _ IH]; simpl in *; [done|].
  subst k1. destruct (decide (k0 = k)) as [->|Hne].
  - intros [= ->]. eauto.
  - apply IH.
Qed.

Lemma Forall2_dget_inv (R : string → V → V → Prop) d d' k v' :
  Forall2 (fun a b => a.1 = b.1 ∧ R a.1 a.2 b.2) d d' →
  dget k d' = Some v' →
  ∃ v, dget k d = Some v ∧ R k v v'.
Proof.
  induction 1 as [|[k0 v0] [k1 v1] d d' [Hk HR] _ IH]; simpl in *; [done|].
  subst k1. destruct (decide (k0 = k)) as [->|Hne].
  - intros [= ->]. eauto.
  - apply IH.
Qed.
End PyDict.

(** *** Loops over dict items *)

Section ItemsMapM.
Context (w : World) {V : Type}.

Lemma items_mapM_spec (body : string → V → M HedgeManager V)
    (R : string → V → V → Prop) :
  (∀ k v hm tr, ∃ v' tr', body k v hm tr = (Ok v', hm, tr') ∧ R k v v') →
  ∀ d hm tr, ∃ d' tr',
    HedgeManager.items_mapM body d hm tr = (Ok d', hm, tr') ∧
    Forall2 (fun a b => a.1 = b.1 ∧ R a.1 a.2 b.2) d d'.
Proof.
  intros Hbody d. induction d as [|[k v] d IH]; intros hm tr; simpl.
  - eexists [], tr. split; [reflexivity|constructor].
  - rewrite bind_run.
    destruct (Hbody k v hm tr) as (v' & tr1 & -> & HR).
    rewrite bind_run.
    destruct (IH hm tr1) as (d' & tr2 & -> & HF).
    eexists ((k, v') :: d'), tr2. split; [reflexivity|].
    constructor; [done|done].
Qed.
End ItemsMapM.

(** *** HedgeManager: what each operation does to the groups *)

Section HedgeFacts.
Context (w : World).
Import HedgeManager.

Lemma cancel_member_spec symbol k v hm tr :
  ∃ v' tr', cancel_member w symbol k v hm tr = (Ok v', hm, tr') ∧
            cancel_outcome w symbol k v v'.
Proof.
  unfold cancel_member, cancel_outcome.
  destruct (decide (ho_status v = "open")) as [Hopen|Hopen].
  - destruct (w_get_exchange_by_name w (ho_exchange_name v)) as [ex|] eqn:Hex.
    + rewrite try_except_run, bind_run. unfold call.
      destruct (w_cancel_order w tr ex k symbol) as [b|e] eqn:Hc.
      * do 2 eexists. split; [reflexivity|].
        right; right. split; [done|]. exists ex, tr. split; [done|].
        left. eauto.
      * do 2 eexists. split; [reflexivity|].
        right; right. split; [done|]. exists ex, tr. split; [done|].
        right. eauto.
    + do 2 eexists. split; [reflexivity|]. right; left. done.
  - do 2 eexists. split; [reflexivity|]. left. done.
Qed.

Lemma cancel_hedge_orders_spec hm tr original_order_id g cfg :
  dget original_order_id (hedge_orders hm) = Some g →
  hedge_strategies hm !! hg_strategy_id g = Some cfg →
  ∃ orders tr',
    cancel_hedge_orders w original_order_id hm tr =
      (Ok tt,
       set_hedge_orders
         (dset original_order_id
            (set_hg_status "canceled" (set_hg_orders (fun _ => orders) g))) hm,
       tr') ∧
    Forall2 (fun a b => a.1 = b.1 ∧ cancel_outcome w (hc_trading_pair cfg) a.1 a.2 b.2)
      (hg_orders g) orders.
Proof.
  intros Hg Hcfg. unfold cancel_hedge_orders.
  rewrite bind_run. simpl. rewrite Hg, Hcfg. rewrite bind_run.
  destruct (items_mapM_spec (cancel_member w (hc_trading_pair cfg))
              (cancel_outcome w (hc_trading_pair cfg))
              (cancel_member_spec (hc_trading_pair cfg)) (hg_orders g) hm tr)
    as (orders & tr' & -> & HF).
  exists orders, tr'. split; [reflexivity|done].
Qed.

Lemma update_member_spec symbol k v hm tr :
  ∃ v' tr', update_member w symbol k v hm tr = (Ok v', hm, tr') ∧
            update_member_outcome k v v'.
Proof.
  unfold update_member, update_member_outcome.
  destruct (decide (ho_status v = "open")) as [Hopen|Hopen];
    [|do 2 eexists; split; [reflexivity|by left]].
  destruct (w_get_exchange_by_name w (ho_exchange_name v)) as [ex|];
    [|do 2 eexists; split; [reflexivity|by left]].
  rewrite try_except_run, bind_run. unfold call.
  destruct (w_fetch_order w tr ex k symbol) as [status|e];
    [|do 2 eexists; split; [reflexivity|by left]].
  destruct (decide (status = "closed")).
  { do 2 eexists. split; [reflexivity|]. right. split; [done|]. by left. }
  destruct (decide (status = "canceled")).
  { do 2 eexists. split; [reflexivity|]. right. split; [done|]. by right. }
  do 2 eexists. split; [reflexivity|by left].
Qed.

Lemma Forall2_same_refl {V} (R : string → V → V → Prop) (d : pydict V) :
  (∀ k v, R k v v) → Forall2 (fun a b => a.1 = b.1 ∧ R a.1 a.2 b.2) d d.
Proof. intros HR. induction d; constructor; auto. Qed.

Lemma update_group_spec strategy_id symbol k g hm tr :
  ∃ g' tr', update_group w strategy_id symbol k g hm tr = (Ok g', hm, tr') ∧
            update_group_outcome strategy_id k g g'.
Proof.
  unfold update_group, update_group_outcome.
  assert (Hrefl : Forall2 (fun a b => a.1 = b.1 ∧ update_member_outcome a.1 a.2 b.2)
                    (hg_orders g) (hg_orders g)).
  { apply Forall2_same_refl. intros; by left. }
  destruct (decide (hg_strategy_id g = strategy_id)) as [Hs|Hs];
    [|do 2 eexists; split; [reflexivity|by repeat split]].
  destruct (decide (hg_status g = "open")) as [Ho|Ho];
    [|do 2 eexists; split; [reflexivity|by repeat split]].
  rewrite bind_run.
  destruct (items_mapM_spec (update_member w symbol) update_member_outcome
              (update_member_spec symbol) (hg_orders g) hm tr)
    as (orders & tr' & -> & HF).
  do 2 eexists. split; [reflexivity|]. simpl.
  repeat split; [|done]. intros [?|?]; done.
Qed.

Lemma update_spec strategy_id hm tr :
  ∃ groups tr',
    update w strategy_id hm tr =
      (Ok tt, set_hedge_orders (fun _ => groups) hm, tr') ∧
    Forall2 (fun a b => a.1 = b.1 ∧ update_group_outcome strategy_id a.1 a.2 b.2)
      (hedge_orders hm) groups.
Proof.
  unfold update. rewrite bind_run. simpl.
  destruct (hedge_strategies hm !! strategy_id) as [cfg|].
  - rewrite bind_run.
    destruct (items_mapM_spec (update_group w strategy_id (hc_trading_pair cfg))
                (update_group_outcome strategy_id)
                (update_group_spec strategy_id (hc_trading_pair cfg))
                (hedge_orders hm) hm tr)
      as (groups & tr' & -> & HF).
    by exists groups, tr'.
  - exists (hedge_orders hm), tr. split; [by destruct hm|].
    apply Forall2_same_refl. intros k g. unfold update_group_outcome.
    repeat split. apply Forall2_same_refl. intros; by left.
Qed.

Lemma handle_order_filled_spec hm tr original_order_id :
  ∃ hm' tr',
    handle_order_filled original_order_id hm tr = (Ok tt, hm', tr') ∧
    hedge_strategies hm' = hedge_strategies hm ∧
    match dget original_order_id (hedge_orders hm) with
    | None => hm' = hm
    | Some g =>
        if all_filled (hg_orders g) then
          hedge_orders hm' =
            dset original_order_id (set_hg_status "filled" g) (hedge_orders hm)
        else hm' = hm
    end.
Proof.
  unfold handle_order_filled. rewrite bind_run. simpl.
  destruct (dget original_order_id (hedge_orders hm)) as [g|];
    [|by exists hm, tr].
  destruct (all_filled (hg_orders g)).
  - do 2 eexists. split; [reflexivity|]. done.
  - by exists hm, tr.
Qed.

End HedgeFacts.

Section HedgeInvariant.
Context (w : World).
Import HedgeManager.

Lemma update_precision_run strategy_id ex symbol hm tr :
  ∃ hm' tr',
    _update_precision_if_needed w strategy_id ex symbol hm tr = (Ok tt, hm', tr') ∧
    hedge_orders hm' = hedge_orders hm ∧
    match w_fetch_market_info w tr ex symbol with
    | Ok mi =>
        tr' = tr ++ [EvFetchMarketInfo ex symbol] ∧
        hedge_strategies hm' =
          alter (fun c => mkHedgeConfig (hc_trading_pair c) (hc_exchanges c)
                            (precision_of_digits (default 8 mi.1))
                            (precision_of_digits (default 8 mi.2))
                            (hc_last_update c))
            strategy_id (hedge_strategies hm)
    | Raise e =>
        tr' = tr ++ [EvFetchMarketInfo ex symbol; EvLog (LogHedgePrecisionFailed e)] ∧
        hm' = hm
    end.
Proof.
  unfold _update_precision_if_needed.
  rewrite try_except_run, bind_run. unfold call.
  destruct (w_fetch_market_info w tr ex symbol) as [mi|e].
  - do 2 eexists. split; [reflexivity|]. done.
  - do 2 eexists. split; [reflexivity|]. simpl.
    split; [done|]. split; [|done]. by rewrite <-app_assoc.
Qed.

Lemma create_on_exchange_frame symbol side amount price orig acc ex hm tr :
  ∃ acc' hm' tr',
    create_on_exchange w symbol side amount price orig acc ex hm tr
      = (Ok acc', hm', tr') ∧
    hedge_orders hm' = hedge_orders hm ∧
    hedge_strategies hm' = hedge_strategies hm.
Proof.
  unfold create_on_exchange.
  destruct (w_create_limit_order w tr ex symbol side amount price) as [oid|e].
  - destruct (truthy (Some oid)); do 3 eexists; (split; [reflexivity|done]).
  - do 3 eexists. split; [reflexivity|done].
Qed.

Lemma create_on_exchanges_frame symbol side amount price orig exs :
  ∀ acc hm tr, ∃ acc' hm' tr',
    create_on_exchanges w symbol side amount price orig acc exs hm tr
      = (Ok acc', hm', tr') ∧
    hedge_orders hm' = hedge_orders hm ∧
    hedge_strategies hm' = hedge_strategies hm.
Proof.
  induction exs as [|ex exs IH]; intros acc hm tr; simpl.
  - by exists acc, hm, tr.
  - rewrite bind_run.
    destruct (create_on_exchange_frame symbol side amount price orig acc ex hm tr)
      as (acc1 & hm1 & tr1 & -> & Ho1 & Hs1).
    destruct (IH acc1 hm1 tr1) as (acc2 & hm2 & tr2 & -> & Ho2 & Hs2).
    exists acc2, hm2, tr2. split; [done|]. split; congruence.
Qed.

Lemma create_hedge_order_groups sid side amount price level_id orig hm tr r hm' tr' :
  create_hedge_order w sid side amount price level_id orig hm tr = (r, hm', tr') →
  hedge_orders hm' = hedge_orders hm ∨
  ∃ id g, hg_status g = "open" ∧ hedge_orders hm' = dset id g (hedge_orders hm).
Proof.
  unfold create_hedge_order. rewrite bind_run. simpl.
  destruct (hedge_strategies hm !! sid) as [cfg|];
    [|intros [= <- <- <-]; by left].
  rewrite bind_run.
  assert (Hprec : ∃ hm1 tr1,
    match hc_exchanges cfg with
    | [] => ret ()
    | ex0 :: _ => _update_precision_if_needed w sid ex0 (hc_trading_pair cfg)
    end hm tr = (Ok tt, hm1, tr1) ∧ hedge_orders hm1 = hedge_orders hm).
  { destruct (hc_exchanges cfg) as [|ex0 ?]; [by exists hm, tr|].
    destruct (update_precision_run sid ex0 (hc_trading_pair cfg) hm tr)
      as (hm1 & tr1 & ? & ? & _). eauto. }
  destruct Hprec as (hm1 & tr1 & -> & Ho1).
  rewrite bind_run. simpl. rewrite bind_run. unfold lift_res at 1.
  destruct (round_to_precision price _) as [rp|e];
    [|intros [= <- <- <-]; by left].
  rewrite bind_run. unfold lift_res at 1.
  destruct (round_to_precision amount _) as [ra|e];
    [|intros [= <- <- <-]; by left].
  rewrite bind_run.
  set (pick := if truthy orig then _ else _).
  assert (Hpick : ∃ id tr2, pick hm1 tr1 = (Ok id, hm1, tr2)).
  { subst pick. destruct (truthy orig); [by eexists _, _|].
    rewrite bind_run. by eexists _, _. }
  destruct Hpick as (id & tr2 & ->).
  rewrite bind_run.
  destruct (create_on_exchanges_frame (hc_trading_pair cfg)
              (if decide (side = "buy") then "sell" else "buy") ra rp id
              (hc_exchanges cfg) ([], []) hm1 tr2)
    as (acc & hm3 & tr3 & -> & Ho3 & _).
  rewrite bind_run.
  destruct acc.1 as [|o os].
  - simpl. intros [= <- <- <-]. left. congruence.
  - simpl. intros [= <- <- <-]. right. eexists id, _.
    split; [|simpl; by rewrite Ho3, Ho1]. done.
Qed.

Lemma run_hedge_op_consistent op st :
  groups_consistent st.1 → groups_consistent (run_hedge_op w op st).1.
Proof.
  destruct st as [hm tr]. unfold groups_consistent. simpl. intros Hinv.
  destruct op as [sid symbol exs|sid side amount price level_id orig|orig|sid|orig];
    simpl.
  - unfold initialize_for_strategy. destruct exs; done.
  - destruct (create_hedge_order w sid side amount price level_id orig hm tr)
      as [[r hm'] tr'] eqn:Hrun. simpl.
    destruct (create_hedge_order_groups _ _ _ _ _ _ _ _ _ _ _ Hrun)
      as [->|(id & g & Hopen & ->)]; [done|].
    apply Forall_dset; [done|]. unfold group_ok. simpl. by rewrite Hopen.
  - unfold cancel_hedge_orders. rewrite bind_run. simpl.
    destruct (dget orig (hedge_orders hm)) as [g|] eqn:Hg; [|done].
    destruct (hedge_strategies hm !! hg_strategy_id g) as [cfg|] eqn:Hcfg; [|done].
    destruct (cancel_hedge_orders_spec w hm tr orig g cfg Hg Hcfg)
      as (orders & tr' & Hrun & _).
    unfold cancel_hedge_orders in Hrun. rewrite bind_run in Hrun. simpl in Hrun.
    rewrite Hg, Hcfg in Hrun. rewrite Hrun. simpl.
    apply Forall_dset; [done|]. unfold group_ok. simpl. done.
  - destruct (update_spec w sid hm tr) as (groups & tr' & -> & HF). simpl.
    clear -Hinv HF. induction HF as [|[k g] [k' g'] d d' [_ Hout] _ IH];
      [constructor|].
    apply Forall_cons in Hinv as [Hg Hd]. constructor; [|by apply IH].
    destruct Hout as (Hst & _ & Hsame & _). unfold group_ok in *. simpl in *.
    intros Hfilled. rewrite Hsame; [apply Hg; congruence|].
    left. rewrite <-Hst, Hfilled. done.
  - destruct (handle_order_filled_spec hm tr orig) as (hm' & tr' & -> & _ & Hh).
    simpl. destruct (dget orig (hedge_orders hm)) as [g|]; [|by subst].
    destruct (all_filled (hg_orders g)) eqn:Hall; [|by subst].
    rewrite Hh. apply Forall_dset; [done|]. unfold group_ok. simpl. done.
Qed.

Lemma hedge_run_consistent ops : groups_consistent (hedge_run w ops).1.
Proof.
  unfold hedge_run. induction ops as [|op ops IH] using rev_ind.
  - constructor.
  - rewrite foldl_app. simpl. by apply run_hedge_op_consistent.
Qed.

Lemma statuses_preserved sid (d d' : pydict HedgeGroup) :
  Forall2 (fun a b => a.1 = b.1 ∧ update_group_outcome sid a.1 a.2 b.2) d d' →
  (fun kg : string * HedgeGroup => (kg.1, hg_status kg.2)) <$> d' =
  (fun kg : string * HedgeGroup => (kg.1, hg_status kg.2)) <$> d.
Proof.
  induction 1 as [|[k g] [k' g'] d d' [Hk (Hst & _)] _ IH]; [done|].
  rewrite !fmap_cons, IH. simpl in *. by rewrite Hk, Hst.
Qed.

End HedgeInvariant.

(** *** C5, C6, C7 *)

(** C5, counterexample.  After the hedge is created and [update] has seen
    its only member filled, every member of group "p1" is filled and the
    group is still "open". *)
Lemma update_leaves_filled_group_open :
  ∃ g, dget "p1" (hedge_orders (hedge_run w_demo (ops_create ++ [OpUpdate "s1"])).1)
         = Some g ∧
       ¬ group_filled_iff_members g.
Proof.
  eexists. split; [vm_compute; reflexivity|].
  unfold group_filled_iff_members. intros [_ H].
  specialize (H eq_refl). discriminate H.
Qed.

(** C5, amended.  In every state a hedge manager reaches, a group whose
    status is "filled" has only filled members; [update] moves members but
    never changes the status of a group; the status becomes "filled" in
    [handle_order_filled], and there exactly when every member is filled. *)
Theorem hedge_group_filled_only_with_all_members (w : World) (ops : list HedgeOp) :
  let st := hedge_run w ops in
  (∀ id g, dget id (hedge_orders st.1) = Some g →
           hg_status g = "filled" → HedgeManager.all_filled (hg_orders g) = true) ∧
  (∀ sid,
     (fun kg : string * HedgeGroup => (kg.1, hg_status kg.2)) <$>
       hedge_orders (run_hedge_op w (OpUpdate sid) st).1 =
     (fun kg : string * HedgeGroup => (kg.1, hg_status kg.2)) <$> hedge_orders st.1) ∧
  (∀ id g, dget id (hedge_orders st.1) = Some g →
     ∃ g', dget id (hedge_orders (run_hedge_op w (OpOrderFilled id) st).1) = Some g' ∧
           hg_orders g' = hg_orders g ∧
           (HedgeManager.all_filled (hg_orders g) = true → hg_status g' = "filled") ∧
           (HedgeManager.all_filled (hg_orders g) = false → g' = g)).
Proof.
  intros st. split; [|split].
  - intros id g Hg Hfilled.
    pose proof (hedge_run_consistent w ops) as Hinv.
    unfold groups_consistent in Hinv. rewrite Forall_forall in Hinv.
    apply (Hinv (id, g)); [|done]. by apply dget_Some_elem.
  - intros sid. destruct st as [hm tr]. simpl.
    destruct (update_spec w sid hm tr) as (groups & tr' & -> & HF). simpl.
    by apply statuses_preserved with (sid := sid).
  - intros id g Hg. destruct st as [hm tr]. simpl in *.
    destruct (handle_order_filled_spec hm tr id) as (hm' & tr' & -> & _ & Hh).
    simpl. rewrite Hg in Hh.
    destruct (HedgeManager.all_filled (hg_orders g)) eqn:Hall.
    + rewrite Hh, dget_dset_eq. eexists. split; [done|]. done.
    + subst hm'. exists g. done.
Qed.

Lemma hedge_group_filled_only_with_all_members_witness :
  ∃ g g',
    dget "p1" (hedge_orders (hedge_run w_demo (ops_create ++ [OpUpdate "s1"])).1)
      = Some g ∧
    dget "p1" (hedge_orders (run_hedge_op w_demo (OpOrderFilled "p1")
                               (hedge_run w_demo (ops_create ++ [OpUpdate "s1"]))).1)
      = Some g' ∧
    hg_status g' = "filled" ∧
    HedgeManager.all_filled (hg_orders g') = true.
Proof.
  pose proof (hedge_group_filled_only_with_all_members w_demo
                (ops_create ++ [OpUpdate "s1"])) as (_ & _ & Hfill).
  pose proof (hedge_group_filled_only_with_all_members w_demo
                (ops_create ++ [OpUpdate "s1"; OpOrderFilled "p1"])) as (Hinv & _ & _).
  eexists.
  destruct (Hfill "p1" _ ltac:(vm_compute; reflexivity)) as (g' & Hg' & _ & Hst & _).
  exists g'. split; [vm_compute; reflexivity|]. split; [exact Hg'|].
  split; [apply Hst; vm_compute; reflexivity|].
  apply (Hinv "p1").
  - replace (ops_create ++ [OpUpdate "s1"; OpOrderFilled "p1"])
      with ((ops_create ++ [OpUpdate "s1"]) ++ [OpOrderFilled "p1"])
      by (by rewrite <-app_assoc).
    unfold hedge_run at 1. rewrite foldl_app. exact Hg'.
  - apply Hst. vm_compute. reflexivity.
Defined.

(** C6, counterexample.  The venue's cancel call raises: the member that was
    open is still open afterwards. *)
Lemma cancel_leaves_member_open_on_error :
  ¬ cancel_marks_every_open_member w_demo "p1"
      (hedge_run w_demo ops_create).1 (hedge_run w_demo ops_create).2.
Proof.
  intros H.
  destruct (H _ "h2" _ ltac:(vm_compute; reflexivity) ltac:(vm_compute; reflexivity)
              ltac:(vm_compute; reflexivity)) as (g' & v' & Hg' & Hv' & Hst).
  vm_compute in Hg'. injection Hg' as <-.
  vm_compute in Hv'. injection Hv' as <-.
  vm_compute in Hst. discriminate Hst.
Qed.

(** C6, amended.  [cancel_hedge_orders] requests cancellation of every open
    member whose venue is found by name and marks a member "canceled" when
    its cancellation call returns, whatever it returns; a member whose call
    raises, or whose venue is not found, keeps its status; the status of the
    group becomes "canceled" in every case. *)
Theorem cancel_hedge_orders_marks_returned_calls (w : World) (hm : HedgeManager)
    (tr : Trace) (original_order_id : string) (g : HedgeGroup) (cfg : HedgeConfig) :
  dget original_order_id (hedge_orders hm) = Some g →
  hedge_strategies hm !! hg_strategy_id g = Some cfg →
  ∃ hm' tr' g',
    HedgeManager.cancel_hedge_orders w original_order_id hm tr = (Ok tt, hm', tr') ∧
    dget original_order_id (hedge_orders hm') = Some g' ∧
    hg_status g' = "canceled" ∧
    Forall2 (fun a b => a.1 = b.1 ∧
                        cancel_outcome w (hc_trading_pair cfg) a.1 a.2 b.2)
      (hg_orders g) (hg_orders g').
Proof.
  intros Hg Hcfg.
  destruct (cancel_hedge_orders_spec w hm tr original_order_id g cfg Hg Hcfg)
    as (orders & tr' & Hrun & HF).
  eexists _, tr', _. split; [exact Hrun|]. simpl.
  rewrite dget_dset_eq. split; [reflexivity|]. simpl. done.
Qed.

Lemma cancel_hedge_orders_marks_returned_calls_witness :
  ∃ hm' tr' g',
    HedgeManager.cancel_hedge_orders w_demo "p1" (hedge_run w_demo ops_create).1
      (hedge_run w_demo ops_create).2 = (Ok tt, hm', tr') ∧
    dget "p1" (hedge_orders hm') = Some g' ∧
    hg_status g' = "canceled".
Proof.
  destruct (cancel_hedge_orders_marks_returned_calls w_demo
              (hedge_run w_demo ops_create).1 (hedge_run w_demo ops_create).2 "p1" _ _
              ltac:(vm_compute; reflexivity) ltac:(vm_compute; reflexivity))
    as (hm' & tr' & g' & H1 & H2 & H3 & _).
  exists hm', tr', g'. auto.
Defined.

(** C7.  The strategy's precision is known after the first hedge order
    (0.01 and 0.001); the second [create_hedge_order] fetches the market
    info again and overwrites the stored values with 0.0001 and 0.00001. *)
Theorem create_hedge_order_refetches_known_precision :
  let st1 := hedge_run w_demo ops_create in
  let st2 := run_hedge_op w_demo
               (OpCreate "s1" "buy" (dec 5 (-1)) (dec 20000 0) "level_1" None) st1 in
  stored_precision st1 = Some (dec 1 (-2), dec 1 (-3)) ∧
  count_market_fetches st1.2 = 1%nat ∧
  stored_precision st2 = Some (dec 1 (-4), dec 1 (-5)) ∧
  count_market_fetches st2.2 = 2%nat.
Proof. vm_compute. repeat split. Qed.


Section StrategyFacts.
Context (w : World).
Import GridStrategy.

Lemma same_config_refl st : same_config st st.
Proof. by repeat split. Qed.

Lemma get_exchange_precision_run st tr :
  ∃ p tr', get_exchange_precision w st tr = (Ok p, st, tr').
Proof.
  unfold get_exchange_precision. rewrite bind_run. simpl.
  rewrite try_except_run, bind_run. unfold call.
  destruct (w_load_market w tr (trading_pair st)) as [[[p|] [a|]]|e];
    by eexists _, _.
Qed.

Lemma adjust_to_precision_run value precision st tr :
  ∃ r tr', _adjust_to_precision value precision st tr = (r, st, tr').
Proof.
  unfold _adjust_to_precision.
  destruct (Decimal.leb precision Decimal.zero); by eexists _, _.
Qed.

Lemma with_hedge_manager_run {A} (m : M HedgeManager A) st tr :
  ∃ r hmo tr', with_hedge_manager m st tr = (r, set_hedge_manager hmo st, tr').
Proof.
  unfold with_hedge_manager.
  destruct (enable_hedge st), (hedge_manager st) as [hm|] eqn:Hhm;
    try (exists (Ok tt), (hedge_manager st), tr; clear; by destruct st).
  destruct (m hm tr) as [[[a|e] hm'] tr']; by eexists _, _, _.
Qed.

Lemma place_order_spec side hedge_side set_ref placing i st tr :
  ∃ r st' tr',
    place_order w side hedge_side set_ref placing i st tr = (Ok r, st', tr') ∧
    placement_outcome set_ref placing i st r st'.
Proof.
  assert (Hfail : ∀ r, r = None →
            placement_outcome set_ref placing i st r st).
  { intros r ->. split; [apply same_config_refl|]. split; [done|]. by left. }
  unfold place_order. rewrite try_except_run, bind_run.
  destruct (get_exchange_precision_run st tr) as (p & tr1 & ->).
  rewrite bind_run. simpl.
  destruct (grid_levels_data st !! i) as [level|] eqn:Hlevel;
    [|eexists _, _, _; split; [reflexivity|by apply Hfail]].
  rewrite bind_run.
  destruct (adjust_to_precision_run (gl_price level) p.1 st tr1)
    as ([price|e] & tr2 & ->);
    [|eexists _, _, _; split; [reflexivity|by apply Hfail]].
  rewrite bind_run. unfold lift_res at 1.
  destruct (Decimal.div (gl_amount level) price) as [q|e];
    [|eexists _, _, _; split; [reflexivity|by apply Hfail]].
  rewrite bind_run.
  destruct (adjust_to_precision_run q p.2 st tr2) as ([base|e] & tr3 & ->);
    [|eexists _, _, _; split; [reflexivity|by apply Hfail]].
  rewrite bind_run. unfold call at 1.
  destruct (w_create_limit_order w tr3 (primary_exchange st) (trading_pair st)
              side base price) as [oid|e];
    [|eexists _, _, _; split; [reflexivity|by apply Hfail]].
  rewrite bind_run. unfold time_time at 1, ask at 1.
  rewrite bind_run. unfold modify_level at 1, modify at 1.
  rewrite bind_run. unfold time_time at 1, ask at 1.
  rewrite bind_run. unfold modify at 1.
  rewrite bind_run.
  match goal with
  | |- context [with_hedge_manager ?m ?s ?t] =>
      destruct (with_hedge_manager_run m s t) as (rh & hmo & tr4 & ->)
  end.
  assert (Hok : ∀ now1 now2 hmo r, r = Some oid ∨ r = None →
    placement_outcome set_ref placing i st r
      (set_hedge_manager hmo
         (set_order_manager
            (fun om =>
               (OrderManager.add_order oid
                  (mkOrder (gl_id level) (gl_price level) base side "open"
                     now2 None None) om).2)
            (set_grid_levels_data
               (alter (set_ref (Some oid) placing (Some now1)) i) st)))).
  { intros now1 now2 hmo' r Hr. split; [by repeat split|]. split.
    - intros k v Hk. simpl. unfold OrderManager.add_order.
      destruct (order_manager st !! oid) eqn:Ho; simpl; [done|].
      rewrite lookup_insert_ne; [done|]. intros ->. congruence.
    - right. exists level, oid, now1. split; [done|]. split; [reflexivity|done]. }
  destruct rh as [[]|e].
  - eexists _, _, _. split; [reflexivity|]. apply Hok. by left.
  - eexists _, _, _. split; [reflexivity|]. apply Hok. by right.
Qed.
End StrategyFacts.

Section StrategyFacts2.
Context (w : World).
Import GridStrategy.

Lemma for_each_total {S A} (body : A → M S unit) (l : list A) :
  (∀ x s t, ∃ s' t', body x s t = (Ok tt, s', t')) →
  ∀ s t, for_each l body s t =
         (Ok tt, (foldl (fun st x => drop_result (body x) st) (s, t) l).1,
          (foldl (fun st x => drop_result (body x) st) (s, t) l).2).
Proof.
  intros Hbody. induction l as [|x l IH]; intros s t; simpl; [reflexivity|].
  rewrite bind_run. destruct (Hbody x s t) as (s' & t' & Hx).
  assert (Hd : drop_result (body x) (s, t) = (s', t')).
  { unfold drop_result. simpl. by rewrite Hx. }
  rewrite Hx, Hd. apply IH.
Qed.



Lemma update_level_run cur i st tr :
  ∃ st' tr', update_level w cur i st tr = (Ok tt, st', tr') ∧
    ∀ j, j ≠ i → grid_levels_data st' !! j = grid_levels_data st !! j.
Proof.
  assert (Hplace : ∀ side hside set_ref placing,
    ∃ st' tr', (place_order w side hside set_ref placing i;;; ret tt) st tr
               = (Ok tt, st', tr') ∧
      ∀ j, j ≠ i → grid_levels_data st' !! j = grid_levels_data st !! j).
  { intros. rewrite bind_run.
    destruct (place_order_spec w side hside set_ref placing i st tr)
      as (r & st' & tr' & -> & _ & _ & Hout).
    exists st', tr'. split; [done|]. intros j Hj.
    destruct Hout as [(_ & -> & _)|(level & oid & now & _ & -> & _)]; [done|].
    by rewrite list_lookup_alter_ne. }
  assert (Hnone : ∃ st' tr', ret tt st tr = (Ok tt, st', tr') ∧
      ∀ j, j ≠ i → grid_levels_data st' !! j = grid_levels_data st !! j).
  { by exists st, tr. }
  unfold update_level. rewrite bind_run. simpl.
  destruct (grid_levels_data st !! i) as [level|]; [|done].
  destruct (gl_status level); try done.
  - destruct (Decimal.ltb cur (gl_price level)); [apply Hplace|].
    destruct (Decimal.ltb (gl_price level) cur); [apply Hplace|done].
  - destruct (negb (truthy (sell_order_id level))); [apply Hplace|done].
  - destruct (negb (truthy (buy_order_id level))); [apply Hplace|done].
Qed.

Lemma find_alter_id (f : GridLevel → GridLevel) level_id i (ls : list GridLevel) :
  (∀ l, gl_id (f l) = gl_id l) →
  fst <$> list_find (fun l => gl_id l = level_id) (alter f i ls) =
  fst <$> list_find (fun l => gl_id l = level_id) ls.
Proof.
  intros Hf. revert i. induction ls as [|x ls IH]; intros i; [done|].
  destruct i as [|i]; simpl.
  - rewrite Hf. destruct (decide (gl_id x = level_id)); done.
  - destruct (decide (gl_id x = level_id)); [done|].
    specialize (IH i). change (list_alter f i ls) with (alter f i ls).
    destruct (list_find _ (alter f i ls)) as [[]|],
             (list_find _ ls) as [[]|]; simpl in *; congruence.
Qed.

End StrategyFacts2.

Section FillHandler.
Context (w : World).
Import GridStrategy.

Lemma handle_order_filled_run st tr order_id od i :
  order_manager st !! order_id = Some od →
  find_level (od_level_id od) st = Some i →
  let st1 := fill_marked (w_time w tr) order_id od i st in
  ∃ r st2 tr2,
    (if decide (od_side od = "buy") then place_sell_order w i
     else place_buy_order w i) st1 (tr ++ [EvTime]) = (Ok r, st2, tr2) ∧
    placement_outcome
      (if decide (od_side od = "buy") then set_level_sell else set_level_buy)
      (if decide (od_side od = "buy") then SELLING else BUYING) i st1 r st2 ∧
    handle_order_filled w order_id st tr =
      (Ok tt, fill_recorded (w_time w tr2) order_id od st st2,
       (tr2 ++ [EvTime]) ++ [EvLog (LogOrderFilled order_id)]).
Proof.
  intros Hod Hfind st1.
  unfold handle_order_filled. rewrite bind_run. simpl.
  unfold OrderManager.get_order. rewrite Hod.
  rewrite bind_run. unfold time_time at 1, ask at 1.
  rewrite bind_run. unfold modify at 1.
  rewrite Hfind. rewrite bind_run.
  assert (Hst1 : ∀ f,
    set_grid_levels_data f
      (set_order_manager
         (fun om =>
            (OrderManager.update_order order_id
               (mkOrder (od_level_id od) (od_price od) (od_amount od) (od_side od)
                  "filled" (od_timestamp od) (Some (w_time w tr)) (od_cancel_time od))
               om).2) st)
    = set_grid_levels_data f
        (set_order_manager (fun om => <[order_id := mark_filled (w_time w tr) od]> om) st)).
  { intros f. unfold set_order_manager, OrderManager.update_order. simpl.
    by rewrite Hod. }
  subst st1. unfold fill_marked.
  destruct (decide (od_side od = "buy")) as [Hside|Hside].
  - rewrite bind_run. unfold modify_level at 1, modify at 1. rewrite Hst1.
    unfold place_sell_order.
    match goal with
    | |- context [place_order w ?a ?b ?c ?d i ?s ?t] =>
        destruct (place_order_spec w a b c d i s t) as (r & st2 & tr2 & Hrun & Hout)
    end.
    exists r, st2, tr2. split; [exact Hrun|]. split; [exact Hout|].
    rewrite Hrun. destruct Hout as ((Hsid & Hpair & _) & _).
    simpl in Hsid, Hpair. reflexivity.
  - rewrite bind_run. unfold modify_level at 1, modify at 1. rewrite Hst1.
    unfold place_buy_order.
    match goal with
    | |- context [place_order w ?a ?b ?c ?d i ?s ?t] =>
        destruct (place_order_spec w a b c d i s t) as (r & st2 & tr2 & Hrun & Hout)
    end.
    exists r, st2, tr2. split; [exact Hrun|]. split; [exact Hout|].
    rewrite Hrun. reflexivity.
Qed.

End FillHandler.

Section FillHandler2.
Context (w : World).
Import GridStrategy.

Lemma trades_of_record t c :
  TradeRecorder.trades_of (tr_strategy_id t) (TradeRecorder.record_trade t c) =
  TradeRecorder.trades_of (tr_strategy_id t) c ++ [t].
Proof.
  unfold TradeRecorder.trades_of, TradeRecorder.record_trade.
  by rewrite lookup_insert_eq.
Qed.

Lemma handle_order_filled_effect st tr order_id od i :
  order_manager st !! order_id = Some od →
  find_level (od_level_id od) st = Some i →
  ∃ st' tr' now level level',
    handle_order_filled w order_id st tr = (Ok tt, st', tr') ∧
    strategy_id st' = strategy_id st ∧
    trading_pair st' = trading_pair st ∧
    trade_recorder st' =
      TradeRecorder.record_trade
        (mkTrade (strategy_id st) order_id (trading_pair st) (od_side od)
           (od_price od) (od_amount od) now) (trade_recorder st) ∧
    completed_trades st' = completed_trades st + 1 ∧
    order_manager st' !! order_id = Some (mark_filled (w_time w tr) od) ∧
    (∀ level_id, find_level level_id st' = find_level level_id st) ∧
    grid_levels_data st !! i = Some level ∧
    grid_levels_data st' !! i = Some level' ∧
    level_after_fill (od_side od) level level' ∧
    (∀ j, j ≠ i → grid_levels_data st' !! j = grid_levels_data st !! j).
Proof.
  intros Hod Hfind.
  destruct (handle_order_filled_run w st tr order_id od i Hod Hfind)
    as (r & st2 & tr2 & Hplace & Hout & Hrun).
  assert (Hlevel : ∃ level, grid_levels_data st !! i = Some level).
  { unfold find_level in Hfind.
    destruct (list_find _ (grid_levels_data st)) as [[i' l]|] eqn:Hf; [|done].
    simpl in Hfind. injection Hfind as ->.
    apply list_find_Some in Hf as (Hl & _). eauto. }
  destruct Hlevel as (level & Hlevel).
  destruct Hout as ((Hsid & Hpair & _ & _ & Hct & Htr) & Hom & Hlv).
  unfold fill_marked in *. simpl in Hsid, Hpair, Hct, Htr.
  set (fmark := if decide (od_side od = "buy") then set_level_buy None BOUGHT None
                else set_level_sell None SOLD None) in *.
  assert (Hfid : ∀ l, gl_id (fmark l) = gl_id l).
  { intros l. subst fmark. by destruct (decide _). }
  exists (fill_recorded (w_time w tr2) order_id od st st2),
    ((tr2 ++ [EvTime]) ++ [EvLog (LogOrderFilled order_id)]), (w_time w tr2), level.
  assert (Hlv' : ∃ level',
    grid_levels_data st2 !! i = Some level' ∧
    level_after_fill (od_side od) level level' ∧
    (∀ level_id, find_level level_id st2 = find_level level_id st) ∧
    (∀ j, j ≠ i → grid_levels_data st2 !! j = grid_levels_data st !! j)).
  { destruct Hlv as [(_ & Heq & _)|(l1 & oid & now & Hl1 & Heq & _)]; simpl in *.
    - exists (fmark level). rewrite Heq.
      split; [by rewrite list_lookup_alter_eq, Hlevel|].
      split; [subst fmark; unfold level_after_fill; destruct (decide _); by left|].
      split.
      + intros lid. unfold find_level. rewrite Heq. by apply find_alter_id.
      + intros j Hj. by rewrite list_lookup_alter_ne.
    - rewrite list_lookup_alter_eq, Hlevel in Hl1. simpl in Hl1. injection Hl1 as <-.
      eexists. rewrite Heq. rewrite !list_lookup_alter_eq, Hlevel. simpl.
      split; [reflexivity|].
      split; [subst fmark; unfold level_after_fill; destruct (decide _); right; eauto|].
      split.
      + intros lid. unfold find_level. rewrite Heq.
        rewrite find_alter_id; [by apply find_alter_id|].
        by destruct (decide _).
      + intros j Hj. by rewrite !list_lookup_alter_ne. }
  destruct Hlv' as (level' & Hl' & Hafter & Hfind' & Hother).
  exists level'. split; [exact Hrun|].
  unfold fill_recorded. simpl.
  split; [done|]. split; [done|]. split; [by rewrite Htr|].
  split; [by rewrite Hct|].
  split; [apply Hom; simpl; by rewrite lookup_insert_eq|].
  done.
Qed.

End FillHandler2.

(** *** C1, C2, C4, C8 *)

Section StrategyClaims.
Import GridStrategy.



(** C2, counterexample.  Handling the fill of "o1" a second time appends a
    second trade record and sends a second sell order. *)
Lemma second_fill_is_handled_again :
  ¬ second_fill_is_noop w_grid "o1" st_buying [].
Proof.
  unfold second_fill_is_noop. intros [H _]. vm_compute in H. discriminate H.
Qed.

(** C2, amended.  The fill handler keeps no record of the fills it has
    handled: run again for the same tracked order id, it appends a second
    trade record for that order, counts a second completed trade and runs
    the opposite placement a second time. *)
Theorem fill_handler_repeats_for_same_order (w : World) (st : GridStrategy)
    (tr : Trace) (order_id : string) (od : OrderData) (i : nat) :
  order_manager st !! order_id = Some od →
  find_level (od_level_id od) st = Some i →
  let s1 := drop_result (handle_order_filled w order_id) (st, tr) in
  let s2 := drop_result (handle_order_filled w order_id) s1 in
  ∃ t1 t2 od1 r st2 tr2,
    TradeRecorder.trades_of (strategy_id st) (trade_recorder s2.1) =
      TradeRecorder.trades_of (strategy_id st) (trade_recorder st) ++ [t1; t2] ∧
    tr_order_id t1 = order_id ∧ tr_order_id t2 = order_id ∧
    completed_trades s2.1 = completed_trades st + 2 ∧
    order_manager s1.1 !! order_id = Some od1 ∧
    od_side od1 = od_side od ∧
    (if decide (od_side od = "buy") then place_sell_order w i
     else place_buy_order w i)
      (fill_marked (w_time w s1.2) order_id od1 i s1.1) (s1.2 ++ [EvTime])
    = (Ok r, st2, tr2) ∧
    grid_levels_data s2.1 = grid_levels_data st2.
Proof.
  intros Hod Hfind s1 s2.
  destruct (handle_order_filled_effect w st tr order_id od i Hod Hfind)
    as (st1 & tr1 & now1 & level & level' & Hrun1 & Hsid1 & Hpair1 & Htr1 & Hct1
        & Hod1 & Hfind1 & _).
  assert (Hs1 : s1 = (st1, tr1)).
  { subst s1. unfold drop_result. simpl. by rewrite Hrun1. }
  assert (Hfind1' : find_level (od_level_id (mark_filled (w_time w tr) od)) st1 = Some i).
  { simpl. by rewrite Hfind1. }
  destruct (handle_order_filled_effect w st1 tr1 order_id _ i Hod1 Hfind1')
    as (st2' & tr2' & now2 & level1 & level1' & Hrun2 & Hsid2 & _ & Htr2 & Hct2 & _).
  destruct (handle_order_filled_run w st1 tr1 order_id _ i Hod1 Hfind1')
    as (r & st2 & tr2 & Hplace & _ & Hrun2').
  assert (Hs2 : s2 = (st2', tr2')).
  { subst s2. rewrite Hs1. unfold drop_result. simpl. by rewrite Hrun2. }
  rewrite Hs2, Hs1. simpl.
  eexists _, _, (mark_filled (w_time w tr) od), r, st2, tr2.
  split.
  { rewrite Htr2, Htr1. simpl. rewrite Hsid1.
    set (t1 := mkTrade (strategy_id st) order_id (trading_pair st) (od_side od)
                 (od_price od) (od_amount od) now1).
    set (t2 := mkTrade (strategy_id st) order_id (trading_pair st1) _ _ _ now2).
    rewrite (trades_of_record t2), (trades_of_record t1).
    by rewrite <-app_assoc. }
  split; [reflexivity|]. split; [reflexivity|].
  split; [lia|]. split; [exact Hod1|]. split; [reflexivity|].
  split; [exact Hplace|].
  rewrite Hrun2 in Hrun2'. by injection Hrun2' as ->.
Qed.

Lemma fill_handler_repeats_for_same_order_witness :
  let s1 := drop_result (handle_order_filled w_grid "o1") (st_buying, []) in
  let s2 := drop_result (handle_order_filled w_grid "o1") s1 in
  ∃ t1 t2,
    TradeRecorder.trades_of "s1" (trade_recorder s2.1) = [t1; t2] ∧
    tr_order_id t1 = "o1" ∧ tr_order_id t2 = "o1".
Proof.
  destruct (fill_handler_repeats_for_same_order w_grid st_buying [] "o1" _ 0%nat
              ltac:(vm_compute; reflexivity) ltac:(vm_compute; reflexivity))
    as (t1 & t2 & _ & _ & _ & _ & Htrades & H1 & H2 & _).
  exists t1, t2. split; [exact Htrades|]. split; [exact H1|exact H2].
Defined.

End StrategyClaims.

Section StrategyClaims2.
Import GridStrategy.



(** C8.  [place_buy_order] and [place_sell_order] never raise: whatever
    goes wrong inside is caught there.  Hence every step of the loop of
    [update_grid_orders] returns normally and rewrites no level but its
    own, and the cycle is the step of every level, first to last. *)
Theorem update_grid_orders_contains_failures (w : World) (cur : Decimal)
    (st : GridStrategy) (tr : Trace) :
  (∀ i s t, ∃ r s' t', place_buy_order w i s t = (Ok r, s', t')) ∧
  (∀ i s t, ∃ r s' t', place_sell_order w i s t = (Ok r, s', t')) ∧
  (∀ i s t, ∃ s' t',
      update_level w cur i s t = (Ok tt, s', t') ∧
      ∀ j, j ≠ i → grid_levels_data s' !! j = grid_levels_data s !! j) ∧
  update_grid_orders w cur st tr =
    (Ok tt,
     (foldl (fun s i => drop_result (update_level w cur i) s) (st, tr)
        (seq 0 (length (grid_levels_data st)))).1,
     (foldl (fun s i => drop_result (update_level w cur i) s) (st, tr)
        (seq 0 (length (grid_levels_data st)))).2).
Proof.
  split; [|split; [|split]].
  - intros i s t. unfold place_buy_order.
    destruct (place_order_spec w "buy" "sell" set_level_buy BUYING i s t)
      as (r & s' & t' & Hrun & _). eauto.
  - intros i s t. unfold place_sell_order.
    destruct (place_order_spec w "sell" "buy" set_level_sell SELLING i s t)
      as (r & s' & t' & Hrun & _). eauto.
  - intros i s t. apply update_level_run.
  - unfold update_grid_orders. rewrite bind_run. simpl.
    apply for_each_total. intros i s t.
    destruct (update_level_run w cur i s t) as (s' & t' & Hrun & _). eauto.
Qed.

(** The first level's order is rejected by the venue; the cycle goes on and
    places the order of the third level. *)
Example rejected_level_does_not_stop_the_cycle :
  let res := update_grid_orders w_first_fails (dec 150 0) st_ready [] in
  res.1.1 = Ok tt ∧
  gl_status <$> grid_levels_data res.1.2 = [READY; READY; BUYING] ∧
  count_placements res.2 = 2%nat.
Proof. vm_compute. repeat split. Qed.

End StrategyClaims2.


Section DecimalDigits.
Import Decimal.

Lemma pow10_pos k : 0 < 10 ^ k ∨ k < 0.
Proof. destruct (Z_lt_le_dec k 0); [by right|left; by apply Z.pow_pos_nonneg]. Qed.

Lemma pow10_gt0 k : 0 ≤ k → 0 < 10 ^ k.
Proof. intros. by apply Z.pow_pos_nonneg. Qed.

Lemma ndigits_aux_pos fuel n : 1 ≤ ndigits_aux fuel n.
Proof.
  revert n. induction fuel as [|f IH]; intros n; simpl; [lia|].
  destruct (n <? 10); [lia|]. specialize (IH (n / 10)). lia.
Qed.

Lemma ndigits_aux_spec fuel n :
  0 < n → n < 2 ^ Z.of_nat fuel →
  10 ^ (ndigits_aux fuel n - 1) ≤ n < 10 ^ ndigits_aux fuel n.
Proof.
  revert n. induction fuel as [|f IH]; intros n Hpos Hlt.
  - simpl in Hlt. lia.
  - simpl ndigits_aux. destruct (Z.ltb_spec n 10) as [H10|H10].
    + simpl. lia.
    + assert (Hdiv : 0 < n / 10) by (apply Z.div_str_pos; lia).
      assert (Hlt' : n / 10 < 2 ^ Z.of_nat f).
      { rewrite Nat2Z.inj_succ, Z.pow_succ_r in Hlt by lia.
        apply Z.div_lt_upper_bound; lia. }
      specialize (IH (n / 10) Hdiv Hlt').
      pose proof (ndigits_aux_pos f (n / 10)) as Hk.
      set (k := ndigits_aux f (n / 10)) in *.
      replace (1 + k - 1) with (Z.succ (k - 1)) by lia.
      replace (1 + k) with (Z.succ k) by lia.
      rewrite !Z.pow_succ_r by lia.
      pose proof (Z.div_mod n 10 ltac:(lia)) as Hdm.
      pose proof (Z.mod_pos_bound n 10 ltac:(lia)) as Hmod.
      lia.
Qed.

Lemma ndigits_pos n : 1 ≤ ndigits n.
Proof. apply ndigits_aux_pos. Qed.

Lemma ndigits_spec n :
  n ≠ 0 → 10 ^ (ndigits n - 1) ≤ Z.abs n < 10 ^ ndigits n.
Proof.
  intros Hn. unfold ndigits. apply ndigits_aux_spec; [lia|].
  rewrite Nat2Z.inj_succ, Z2Nat.id by apply Z.log2_nonneg.
  apply Z.log2_spec. lia.
Qed.

Lemma ndigits_abs n : ndigits (Z.abs n) = ndigits n.
Proof. unfold ndigits. by rewrite Z.abs_idemp. Qed.

(** A coefficient below [10 ^ k] has at most [k] digits. *)
Lemma ndigits_le n k : 1 ≤ k → Z.abs n < 10 ^ k → ndigits n ≤ k.
Proof.
  intros Hk Hlt. destruct (decide (n = 0)) as [->|Hn]; [by vm_compute|].
  pose proof (ndigits_spec n Hn) as [Hlo _].
  pose proof (ndigits_pos n).
  destruct (Z_le_gt_dec (ndigits n) k) as [|Hgt]; [done|exfalso].
  assert (10 ^ k ≤ 10 ^ (ndigits n - 1)) by (apply Z.pow_le_mono_r; lia).
  lia.
Qed.


End DecimalDigits.

Section DecimalExact.
Import Decimal.


(** [_fix] leaves a decimal within the precision and the exponent range
    as it is. *)
Lemma fix_id D :
  Z.abs (coef D) < 10 ^ 28 → -1000 ≤ expo D ≤ 1000 → fix_ D = Ok D.
Proof.
  intros Hc He. destruct D as [c e]. simpl in *. unfold fix_. simpl.
  destruct (Z.eqb_spec c 0) as [->|Hne].
  - f_equal. f_equal. unfold Etiny, Emax, Emin, prec. lia.
  - rewrite ndigits_abs.
    pose proof (ndigits_le c 28 ltac:(lia) Hc) as Hlen.
    pose proof (ndigits_pos c) as Hpos.
    unfold Etop, Etiny, Emax, Emin, prec.
    destruct (Z.ltb_spec (999999 - 28 + 1) (ndigits c + e - 28)); [lia|].
    destruct (Z.ltb_spec e (Z.max (ndigits c + e - 28) (-999999 - 28 + 1)));
      [lia|done].
Qed.


Lemma strip_partial n : ∀ c e ideal k c0,
  0 ≤ k ≤ Z.of_nat n → c = c0 * 10 ^ k → e + Z.of_nat n = ideal →
  ∃ c' e', strip n c e ideal = (c', e') ∧
           e + k ≤ e' ≤ ideal ∧ c = c' * 10 ^ (e' - e).
Proof.
  induction n as [|n IH]; intros c e ideal k c0 Hk Hc He.
  - simpl. exists c, e. split; [done|]. split; [lia|].
    rewrite Z.sub_diag. simpl. lia.
  - simpl strip. destruct (Z.ltb_spec e ideal) as [Hlt|]; [|lia]. simpl.
    destruct (Z.eqb_spec (c mod 10) 0) as [Hmod|Hmod].
    + assert (Hc10 : c = 10 * (c / 10)).
      { pose proof (Z.div_mod c 10 ltac:(lia)). lia. }
      destruct (IH (c / 10) (e + 1) ideal (Z.max (k - 1) 0)
                  (if decide (k = 0) then c / 10 else c0)) as (c' & e' & Hs & He' & Hc').
      * lia.
      * destruct (decide (k = 0)) as [->|Hk0].
        { rewrite Z.max_r by lia. rewrite Z.pow_0_r. lia. }
        { rewrite Z.max_l by lia.
          replace k with (Z.succ (k - 1)) in Hc by lia.
          rewrite Z.pow_succ_r in Hc by lia.
          rewrite Hc. replace (c0 * (10 * 10 ^ (k - 1))) with ((c0 * 10 ^ (k - 1)) * 10) by lia.
          by rewrite Z.div_mul. }
      * lia.
      * exists c', e'. split; [done|]. split; [lia|].
        replace (e' - e) with (Z.succ (e' - (e + 1))) by lia.
        rewrite Z.pow_succ_r by lia.
        transitivity (10 * (c / 10)); [exact Hc10|]. rewrite Hc'. ring.
    + exists c, e. split; [done|].
      assert (k = 0).
      { destruct (decide (k = 0)) as [|Hk0]; [done|exfalso]. apply Hmod.
        replace k with (Z.succ (k - 1)) in Hc by lia.
        rewrite Z.pow_succ_r in Hc by lia. rewrite Hc.
        replace (c0 * (10 * 10 ^ (k - 1))) with ((c0 * 10 ^ (k - 1)) * 10) by lia.
        apply Z.mod_mul. lia. }
      split; [lia|]. rewrite Z.sub_diag. simpl. lia.
Qed.

Lemma strip_exact n c0 e ideal :
  e + Z.of_nat n = ideal →
  strip n (c0 * 10 ^ Z.of_nat n) e ideal = (c0, ideal).
Proof.
  intros He.
  destruct (strip_partial n (c0 * 10 ^ Z.of_nat n) e ideal (Z.of_nat n) c0)
    as (c' & e' & -> & He' & Hc'); [lia|done|done|].
  assert (e' = ideal) by lia. subst e'. f_equal.
  replace (ideal - e) with (Z.of_nat n) in Hc' by lia.
  pose proof (pow10_gt0 (Z.of_nat n) ltac:(lia)). nia.
Qed.

Lemma strip_exact_Z k c0 e ideal :
  0 ≤ k → e + k = ideal → strip (Z.to_nat k) (c0 * 10 ^ k) e ideal = (c0, ideal).
Proof.
  intros Hk He. pose proof (strip_exact (Z.to_nat k) c0 e ideal) as H.
  rewrite Z2Nat.id in H by done. by apply H.
Qed.

Lemma ndigits_one : ndigits 1 = 1.
Proof. reflexivity. Qed.

(** Division by a power of ten is a shift of the exponent. *)
Lemma div_pow10 c e d :
  Z.abs c < 10 ^ 28 →
  div (mk c e) (mk 1 (- d)) = fix_ (mk c (e + d)).
Proof.
  intros Hc. unfold div. simpl coef. simpl expo.
  replace (e - - d) with (e + d) by lia.
  destruct (Z.eqb_spec c 0) as [->|Hne]; [done|].
  change (Z.abs 1) with 1. rewrite ndigits_one, ndigits_abs.
  pose proof (ndigits_le c 28 ltac:(lia) Hc) as Hlen.
  pose proof (ndigits_pos c) as Hpos.
  set (shift := 1 - ndigits c + prec + 1).
  assert (Hshift : 0 ≤ shift) by (subst shift; unfold prec; lia).
  destruct (Z.leb_spec 0 shift) as [_|]; [|lia].
  rewrite Z.div_1_r, Z.mod_1_r. simpl (0 =? 0).
  replace (Z.to_nat (e + d - (e + d - shift))) with (Z.to_nat shift) by (f_equal; lia).
  rewrite strip_exact_Z by lia.
  f_equal. f_equal. change (Z.sgn 1) with 1.
  rewrite Z.mul_1_r, Z.mul_comm. apply Z.abs_sgn.
Qed.

End DecimalExact.

Section DecimalTruncate.
Import Decimal.

Lemma quot_zero x : Z.quot 0 x = 0.
Proof. by destruct x. Qed.

Lemma abs_lt_pow_ndigits c : c ≠ 0 → Z.abs c < 10 ^ ndigits c.
Proof. intros Hc. by apply ndigits_spec. Qed.

Lemma trunc_coef_bound c k :
  Z.abs c < 10 ^ 28 → (c ≠ 0 → ndigits c + k ≤ 28) →
  Z.abs (trunc_coef c k) < 10 ^ 28.
Proof.
  intros Hc Hk. unfold trunc_coef.
  destruct (decide (c = 0)) as [->|Hne].
  { destruct (0 <=? k); [by rewrite Z.mul_0_l|]. by rewrite quot_zero. }
  specialize (Hk Hne). pose proof (ndigits_pos c).
  destruct (Z.leb_spec 0 k) as [H0|H0].
  - rewrite Z.abs_mul, (Z.abs_eq (10 ^ k)) by (pose proof (pow10_gt0 k H0); lia).
    pose proof (abs_lt_pow_ndigits c Hne) as Hlt.
    pose proof (pow10_gt0 k H0).
    assert (10 ^ ndigits c * 10 ^ k ≤ 10 ^ 28).
    { rewrite <-Z.pow_add_r by lia. apply Z.pow_le_mono_r; lia. }
    nia.
  - pose proof (pow10_gt0 (- k) ltac:(lia)) as Hp.
    pose proof (Z.quot_abs c (10 ^ (- k)) ltac:(lia)) as Hq.
    rewrite (Z.abs_eq (10 ^ (- k))) in Hq by lia.
    assert (Z.abs c ÷ 10 ^ (- k) ≤ Z.abs c).
    { rewrite Z.quot_div_nonneg by lia.
      apply Z.div_le_upper_bound; [lia|]. nia. }
    lia.
Qed.

Lemma quantize_exact c k :
  (c ≠ 0 → ndigits c + k ≤ 28) → -1000 ≤ k ≤ 1000 →
  quantize_one_down (mk c k) = Ok (mk (trunc_coef c k) 0).
Proof.
  intros Hd Hk. unfold quantize_one_down, trunc_coef. simpl coef.
  destruct (Z.eqb_spec c 0) as [->|Hne].
  - f_equal. f_equal. destruct (0 <=? k); [done|]. by rewrite quot_zero.
  - specialize (Hd Hne). unfold adjusted. simpl.
    unfold Emax, prec.
    destruct (Z.ltb_spec 999999 (k + ndigits c - 1)); [pose proof (ndigits_pos c); lia|].
    destruct (Z.ltb_spec 28 (k + ndigits c - 1 + 1)); [lia|].
    unfold rescale_down. simpl.
    destruct (Z.eqb_spec c 0); [done|].
    rewrite Z.sub_0_r, Z.sub_0_l. by destruct (0 <=? k).
Qed.

(** Truncation to a power-of-ten precision, for a value within the
    context precision whose quotient has at most 28 digits. *)
Lemma truncate_pow10 c e d :
  Z.abs c < 10 ^ 28 → 0 ≤ d ≤ 100 → -900 ≤ e ≤ 900 →
  (c ≠ 0 → ndigits c + e + d ≤ 28) →
  truncate_to (mk c e) (mk 1 (- d)) = Ok (mk (trunc_coef c (e + d)) (- d)).
Proof.
  intros Hc Hd He Hdig. unfold truncate_to.
  rewrite div_pow10 by done.
  rewrite fix_id by (simpl; lia). simpl res_bind.
  rewrite quantize_exact by (try lia; intros; specialize (Hdig ltac:(done)); lia).
  simpl res_bind. unfold mul. simpl coef. simpl expo.
  rewrite Z.mul_1_r, Z.add_0_l.
  apply fix_id; simpl; [|lia].
  apply trunc_coef_bound; [done|]. intros Hne. specialize (Hdig Hne). lia.
Qed.

(** The truncated value is the greatest multiple of the precision that
    does not exceed a non-negative value. *)
Lemma trunc_coef_floor c e d :
  0 ≤ c →
  let t := trunc_coef c (e + d) in
  leb (mk t (- d)) (mk c e) = true ∧
  ltb (mk c e) (mk (t + 1) (- d)) = true ∧
  ∀ j, leb (mk j (- d)) (mk c e) = true → j ≤ t.
Proof.
  intros Hc t. subst t. unfold trunc_coef, leb, ltb, cmp, scaled. simpl.
  destruct (Z.leb_spec 0 (e + d)) as [Hk|Hk].
  - rewrite (Z.min_comm e), Z.min_l by lia.
    rewrite Z.sub_diag, Z.pow_0_r, !Z.mul_1_r.
    replace (e - - d) with (e + d) by lia.
    rewrite Z.compare_refl. split; [done|]. split.
    + destruct (Z.compare_spec (c * 10 ^ (e + d)) (c * 10 ^ (e + d) + 1));
        try done; exfalso; lia.
    + intros j Hj. rewrite ?Z.mul_1_r in Hj.
      destruct (Z.compare_spec j (c * 10 ^ (e + d))); try done; lia.
  - rewrite (Z.min_comm e), Z.min_r by lia.
    rewrite Z.sub_diag, Z.pow_0_r, !Z.mul_1_r.
    replace (- d - e) with (- (e + d)) by lia.
    pose proof (pow10_gt0 (- (e + d)) ltac:(lia)) as Hp.
    set (P := 10 ^ (- (e + d))) in *.
    rewrite Z.quot_div_nonneg by lia.
    pose proof (Z.div_mod c P ltac:(lia)) as Hdm.
    pose proof (Z.mod_pos_bound c P ltac:(lia)) as Hmod.
    split; [|split].
    + destruct (Z.compare_spec (c / P * P) c); try done; exfalso; lia.
    + destruct (Z.compare_spec c ((c / P + 1) * P)); try done; exfalso; lia.
    + intros j Hj. rewrite ?Z.mul_1_r in Hj.
      destruct (Z.compare_spec (j * P) c) as [Heq|Hlt|Hgt]; try done.
      * assert (j * P < (c / P + 1) * P) by lia. nia.
      * assert (j * P < (c / P + 1) * P) by lia. nia.
Qed.


End DecimalTruncate.

Section DecimalExactOps.
Import Decimal.







End DecimalExactOps.


Section GridLevels.
Context (w : World).
Import GridStrategy.

Lemma set_levels_app (new1 new2 : list GridLevel) st :
  set_grid_levels_data (fun ls => ls ++ new2)
    (set_grid_levels_data (fun ls => ls ++ new1) st) =
  set_grid_levels_data (fun ls => ls ++ (new1 ++ new2)) st.
Proof. destruct st. unfold set_grid_levels_data. simpl. by rewrite <-app_assoc. Qed.

Lemma adjust_to_precision_value value precision st tr :
  ∃ tr', _adjust_to_precision value precision st tr =
         (if Decimal.leb precision Decimal.zero then Ok value
          else truncate_to value precision, st, tr').
Proof.
  unfold _adjust_to_precision.
  destruct (Decimal.leb precision Decimal.zero); by eexists.
Qed.

Lemma grid_loop_spec (start step pp amount : Decimal) (l : list nat) :
  ∀ st tr, ∃ r tr' new,
    for_each l
      (fun i =>
         price <- lift_res (x <-r Decimal.mul step (Decimal.of_Z (Z.of_nat i));
                            Decimal.add start x);;
         price <- _adjust_to_precision price pp;;
         level <- new_level w ("level_" +:+ pretty i) price amount;;
         modify (set_grid_levels_data (fun ls => ls ++ [level]))) st tr
    = (r, set_grid_levels_data (fun ls => ls ++ new) st, tr') ∧
    match res_mapM (level_price start step pp) l with
    | Ok ps => r = Ok tt ∧ Forall2 (is_new_level amount) (zip l ps) new
    | Raise e => r = Raise e
    end.
Proof.
  assert (Hid : ∀ st, st = set_grid_levels_data (fun ls => ls ++ []) st).
  { intros st. destruct st. unfold set_grid_levels_data. simpl.
    by rewrite app_nil_r. }
  induction l as [|i l IH]; intros st tr.
  - exists (Ok tt), tr, []. split; [simpl; unfold ret; by rewrite <-Hid|].
    simpl. split; [done|constructor].
  - cbn [for_each res_mapM]. rewrite !bind_run. unfold lift_res at 1.
    unfold level_price at 1.
    destruct (Decimal.mul step (Decimal.of_Z (Z.of_nat i))) as [x|e]; simpl res_bind;
      [|exists (Raise e), tr, []; by rewrite <-Hid].
    destruct (Decimal.add start x) as [y|e]; simpl res_bind;
      [|exists (Raise e), tr, []; by rewrite <-Hid].
    rewrite bind_run.
    destruct (adjust_to_precision_value y pp st tr) as (tr1 & ->).
    destruct (if Decimal.leb pp Decimal.zero then Ok y else truncate_to y pp)
      as [p|e]; [|exists (Raise e), tr1, []; by rewrite <-Hid].
    rewrite bind_run. unfold new_level at 1. rewrite bind_run.
    unfold time_time at 1, ask at 1. unfold ret at 1. unfold modify at 1.
    match goal with
    | |- context [for_each l ?body ?s ?t] =>
        destruct (IH s t) as (r & tr' & new & -> & Hres)
    end.
    rewrite set_levels_app.
    eexists r, tr', (_ :: new). split; [reflexivity|].
    simpl res_bind.
    destruct (res_mapM (level_price start step pp) l) as [ps|e]; simpl; [|done].
    destruct Hres as [-> HF]. split; [done|].
    constructor; [|done]. by eexists.
Qed.


End GridLevels.

Section GridLevels2.
Context (w : World).
Import GridStrategy.

Lemma set_levels_const_app (new : list GridLevel) st :
  set_grid_levels_data (fun ls => ls ++ new) (set_grid_levels_data (fun _ => []) st) =
  set_grid_levels_data (fun _ => new) st.
Proof. by destruct st. Qed.

(** [calculate_grid_levels], step by step. *)
Lemma calculate_grid_levels_run st tr :
  ∃ p tr1,
    get_exchange_precision w st tr = (Ok p, st, tr1) ∧
    match price_step (start_price st) (end_price st) (grid_levels st) with
    | Raise e => calculate_grid_levels w st tr = (Raise e, st, tr1)
    | Ok step =>
        match Decimal.div (total_investment st) (Decimal.of_Z (grid_levels st)) with
        | Raise e => calculate_grid_levels w st tr = (Raise e, st, tr1)
        | Ok amount =>
            ∃ r tr' new,
              calculate_grid_levels w st tr =
                (r, set_grid_levels_data (fun _ => new) st, tr') ∧
              match res_mapM (level_price (start_price st) step p.1)
                      (seq 0 (Z.to_nat (grid_levels st))) with
              | Ok ps =>
                  r = Ok tt ∧
                  Forall2 (is_new_level amount)
                    (zip (seq 0 (Z.to_nat (grid_levels st))) ps) new
              | Raise e => r = Raise e
              end
        end
    end.
Proof.
  destruct (get_exchange_precision_run w st tr) as (p & tr1 & Hp).
  exists p, tr1. split; [exact Hp|].
  unfold calculate_grid_levels. rewrite bind_run, Hp. rewrite bind_run. simpl.
  rewrite bind_run. unfold price_step.
  assert (Hstep : ∀ A (k : Decimal → M GridStrategy A),
    (let (p0, t') :=
       (if 1 <? grid_levels st
        then lift_res (r <-r Decimal.sub (end_price st) (start_price st);
                       Decimal.div r (Decimal.of_Z (grid_levels st - 1)))
        else ret Decimal.zero) st tr1 in
     let (r, s') := p0 in
     match r with Ok a => k a s' t' | Raise e => (Raise e, s', t') end) =
    match (if 1 <? grid_levels st
           then r <-r Decimal.sub (end_price st) (start_price st);
                Decimal.div r (Decimal.of_Z (grid_levels st - 1))
           else Ok Decimal.zero) with
    | Ok a => k a st tr1
    | Raise e => (Raise e, st, tr1)
    end).
  { intros A k. by destruct (1 <? grid_levels st). }
  rewrite Hstep. clear Hstep.
  destruct (if 1 <? grid_levels st then _ else _) as [step|e]; [|done].
  rewrite bind_run. unfold lift_res at 1.
  destruct (Decimal.div (total_investment st) _) as [amount|e]; [|done].
  rewrite bind_run. unfold modify at 1. rewrite bind_run.
  match goal with
  | |- context [for_each ?l _ ?s ?t] =>
      destruct (grid_loop_spec w (start_price st) step p.1 amount l s t)
        as (r & tr' & new & Hloop & Hres)
  end.
  rewrite Hloop. rewrite set_levels_const_app.
  destruct (res_mapM _ _) as [ps|e].
  - destruct Hres as [-> HF]. eexists (Ok tt), _, new. split; [reflexivity|].
    by split.
  - subst r. eexists (Raise e), _, new. by split.
Qed.


Lemma res_mapM_length {A B} (f : A → Res B) (l : list A) ps :
  res_mapM f l = Ok ps →
  length ps = length l ∧ Forall2 (fun x p => f x = Ok p) l ps.
Proof.
  revert ps. induction l as [|x l IH]; simpl; intros ps.
  - intros [= <-]. split; [done|constructor].
  - destruct (f x) as [y|] eqn:Hy; simpl; [|done].
    destruct (res_mapM f l) as [ys|]; simpl; [|done].
    intros [= <-]. destruct (IH ys eq_refl) as [Hlen HF].
    split; [simpl; by rewrite Hlen|by constructor].
Qed.


End GridLevels2.

(** *** C3 and C10 *)

Section GridClaims.
Import GridStrategy.


Lemma new_levels_facts amount (l : list nat) (ps : list Decimal) new :
  length ps = length l →
  Forall2 (is_new_level amount) (zip l ps) new →
  length new = length l ∧
  gl_price <$> new = ps ∧
  gl_id <$> new = (fun i : nat => "level_" +:+ pretty i) <$> l ∧
  Forall (fun lv => gl_amount lv = amount ∧ gl_status lv = READY ∧
                    buy_order_id lv = None ∧ sell_order_id lv = None) new.
Proof.
  revert ps new. induction l as [|i l IH]; intros [|p ps] new Hlen HF;
    simpl in *; try done.
  - apply Forall2_nil_inv_l in HF as ->. by repeat split.
  - apply Forall2_cons_inv_l in HF as (lv & new' & (t & ->) & HF & ->).
    destruct (IH ps new' ltac:(lia) HF) as (Hl & Hp & Hi & Ha).
    split; [cbn [length]; by rewrite Hl|].
    split; [by rewrite fmap_cons, Hp|].
    split; [by rewrite !fmap_cons, Hi|].
    by constructor.
Qed.




End GridClaims.


(** *** Precision handling: C7 in general, C10 *)

Section PrecisionClaims.
Context (w : World).

(** [create_hedge_order] asks the first hedge venue for its market info on
    every call and stores what it answers, whatever was stored before. *)
Lemma create_hedge_order_overwrites_precision sid side amount price level_id orig
    hm tr cfg ex0 exs mi r hm' tr' :
  hedge_strategies hm !! sid = Some cfg →
  hc_exchanges cfg = ex0 :: exs →
  w_fetch_market_info w tr ex0 (hc_trading_pair cfg) = Ok mi →
  HedgeManager.create_hedge_order w sid side amount price level_id orig hm tr
    = (r, hm', tr') →
  (fun c => (hc_price_precision c, hc_amount_precision c)) <$>
    hedge_strategies hm' !! sid =
  Some (precision_of_digits (default 8 mi.1), precision_of_digits (default 8 mi.2)).
Proof.
  intros Hcfg Hexs Hfetch. unfold HedgeManager.create_hedge_order.
  rewrite bind_run. simpl. rewrite Hcfg. rewrite bind_run.
  assert (Hprec : ∃ hm1 tr1,
    match hc_exchanges cfg with
    | [] => ret ()
    | ex :: _ => HedgeManager._update_precision_if_needed w sid ex (hc_trading_pair cfg)
    end hm tr = (Ok tt, hm1, tr1) ∧
    hedge_strategies hm1 =
      alter (fun c => mkHedgeConfig (hc_trading_pair c) (hc_exchanges c)
                        (precision_of_digits (default 8 mi.1))
                        (precision_of_digits (default 8 mi.2))
                        (hc_last_update c))
        sid (hedge_strategies hm)).
  { rewrite Hexs.
    destruct (update_precision_run w sid ex0 (hc_trading_pair cfg) hm tr)
      as (hm1 & tr1 & Hrun & _ & Hupd).
    rewrite Hfetch in Hupd. destruct Hupd as [_ Hs1]. eauto. }
  destruct Hprec as (hm1 & tr1 & -> & Hs1).
  assert (Hgoal : ∀ hm2, hedge_strategies hm2 = hedge_strategies hm1 →
    (fun c => (hc_price_precision c, hc_amount_precision c)) <$>
      hedge_strategies hm2 !! sid =
    Some (precision_of_digits (default 8 mi.1), precision_of_digits (default 8 mi.2))).
  { intros hm2 ->. by rewrite Hs1, lookup_alter_eq, Hcfg. }
  rewrite bind_run. simpl. rewrite bind_run. unfold lift_res at 1.
  destruct (round_to_precision price _) as [rp|e];
    [|intros [= <- <- <-]; by apply Hgoal].
  rewrite bind_run. unfold lift_res at 1.
  destruct (round_to_precision amount _) as [ra|e];
    [|intros [= <- <- <-]; by apply Hgoal].
  rewrite bind_run.
  set (pick := if truthy orig then _ else _).
  assert (Hpick : ∃ id tr2, pick hm1 tr1 = (Ok id, hm1, tr2)).
  { subst pick. destruct (truthy orig); [by eexists _, _|].
    rewrite bind_run. by eexists _, _. }
  destruct Hpick as (id & tr2 & ->).
  rewrite bind_run.
  destruct (create_on_exchanges_frame w (hc_trading_pair cfg)
              (if decide (side = "buy") then "sell" else "buy") ra rp id
              (hc_exchanges cfg) ([], []) hm1 tr2)
    as (acc & hm3 & tr3 & -> & _ & Hs3).
  rewrite bind_run.
  destruct acc.1 as [|o os]; simpl; intros [= <- <- <-]; by apply Hgoal.
Qed.

(** [round_to_precision(v, 0)] is [v]. *)
Lemma round_to_precision_zero_precision v p :
  Decimal.eqb p Decimal.zero = true → round_to_precision v p = Ok v.
Proof. intros Hp. unfold round_to_precision. by rewrite Hp. Qed.

(** [_adjust_to_precision(v, p)] is [v] when [p <= 0]; the strategy is
    untouched and the invalid precision is logged. *)
Lemma adjust_to_precision_nonpositive v p st tr :
  Decimal.leb p Decimal.zero = true →
  GridStrategy._adjust_to_precision v p st tr =
    (Ok v, st, tr ++ [EvLog (LogBadPrecision p)]).
Proof. intros Hp. unfold GridStrategy._adjust_to_precision. by rewrite Hp. Qed.

(** X7.  For a precision [10 ^ (- d)] and a non-negative value within the
    context precision whose quotient has at most 28 digits,
    [round_to_precision] does return the greatest multiple of the precision
    that does not exceed the value. *)
Lemma round_to_precision_pow10_floor c e d :
  0 ≤ c < 10 ^ 28 → 0 ≤ d ≤ 100 → -900 ≤ e ≤ 900 →
  (c ≠ 0 → Decimal.ndigits c + e + d ≤ 28) →
  let t := trunc_coef c (e + d) in
  round_to_precision (dec c e) (dec 1 (- d)) = Ok (dec t (- d)) ∧
  Decimal.leb (dec t (- d)) (dec c e) = true ∧
  Decimal.ltb (dec c e) (dec (t + 1) (- d)) = true ∧
  ∀ j, Decimal.leb (dec j (- d)) (dec c e) = true → j ≤ t.
Proof.
  intros Hc Hd He Hdig t. split; [|by apply trunc_coef_floor; lia].
  unfold round_to_precision.
  assert (Hne : Decimal.eqb (dec 1 (- d)) Decimal.zero = false).
  { unfold Decimal.eqb, Decimal.cmp, Decimal.scaled. simpl.
    rewrite Z.min_l by lia. rewrite Z.sub_diag. simpl.
    pose proof (pow10_gt0 (0 - - d) ltac:(lia)).
    destruct (10 ^ (0 - - d)); done || lia. }
  rewrite Hne. apply truncate_pow10; try done. rewrite Z.abs_eq; lia.
Qed.

End PrecisionClaims.


(** [calculate_grid_prices] on the bounds 0.1 and 0.5 with four levels: the
    step is rounded to 28 digits and the last price stays below 0.5. *)
Example calculate_grid_prices_last_below_high :
  calculate_grid_prices (dec 1 (-1)) (dec 5 (-1)) 4 =
  Ok [dec 1000000000000000000000000000 (-28);
      dec 2333333333333333333333333333 (-28);
      dec 3666666666666666666666666666 (-28);
      dec 4999999999999999999999999999 (-28)].
Proof. vm_compute. reflexivity. Qed.

(** * Properties of the remaining operations *)

(** *** OrderManager: round trips, counts and bulk operations *)

Section OrderManagerMore.
Import OrderManager OrderQueries.

Lemma length_filter_map_to_list (P : string * OrderData → Prop)
    `{!∀ x, Decision (P x)} (orders : gmap string OrderData) :
  length (filter P (map_to_list orders)) = size (filter P orders).
Proof.
  induction orders as [|k od m Hk Hfirst IH] using map_first_key_ind.
  - by rewrite map_to_list_empty, map_filter_empty, map_size_empty.
  - rewrite map_to_list_insert_first_key by done.
    rewrite filter_cons, map_filter_insert.
    rewrite delete_id by done.
    destruct (decide (P (k, od))) as [Hp|Hp].
    + cbn [length]. rewrite IH, map_size_insert_None; [done|].
      rewrite map_lookup_filter_None. by left.
    + done.
Qed.

Lemma length_filter_snd {A} (P : A → Prop) `{!∀ x, Decision (P x)}
    (l : list (string * A)) :
  length (filter P l.*2) = length (filter (fun kv : string * A => P kv.2) l).
Proof.
  induction l as [|[k x] l IH]; [done|].
  rewrite fmap_cons, !filter_cons. simpl.
  destruct (decide (P x)); simpl; by rewrite IH.
Qed.

(** X1.  Round trip of the tracker.  Adding an order under an id that is not
    tracked succeeds; [get_order] then returns that record, every other id
    reads as before, and deleting the id again succeeds and gives back
    exactly the tracker one started from. *)
Theorem order_add_get_delete_round_trip (orders : gmap string OrderData)
    (order_id : string) (order_data : OrderData) :
  orders !! order_id = None →
  let added := add_order order_id order_data orders in
  added.1 = true ∧
  get_order order_id added.2 = Some order_data ∧
  (∀ other, other ≠ order_id → get_order other added.2 = get_order other orders) ∧
  delete_order order_id added.2 = (true, orders) ∧
  get_order order_id (delete_order order_id added.2).2 = None.
Proof.
  intros Hnone. unfold add_order, delete_order, get_order. rewrite Hnone. simpl.
  rewrite lookup_insert_eq. split; [done|]. split; [done|].
  split; [intros other Hne; by rewrite lookup_insert_ne|].
  rewrite delete_insert_eq, delete_id by done. done.
Qed.

Lemma order_add_get_delete_round_trip_witness :
  delete_order "o1" (add_order "o1" order1 ∅).2 = (true, ∅).
Proof.
  destruct (order_add_get_delete_round_trip ∅ "o1" order1) as (_ & _ & _ & H & _);
    [reflexivity|exact H].
Defined.

(** X2.  [count_active_orders] follows the three writes.  Adding under a fresh
    id raises the count by one exactly when the new record is active;
    updating a tracked id changes it by the activity of the new record
    minus that of the old one; deleting a tracked id lowers it by the
    activity of the deleted record. *)
Theorem count_active_orders_tracks_changes (orders : gmap string OrderData)
    (order_id : string) (order_data : OrderData) :
  let active (od : OrderData) : nat := if is_active od then 1%nat else 0%nat in
  (orders !! order_id = None →
     count_active_orders (add_order order_id order_data orders).2 =
       (count_active_orders orders + active order_data)%nat) ∧
  (∀ old, orders !! order_id = Some old →
     (count_active_orders (update_order order_id order_data orders).2 + active old =
        count_active_orders orders + active order_data)%nat ∧
     (count_active_orders (delete_order order_id orders).2 + active old =
        count_active_orders orders)%nat).
Proof.
  intros active.
  assert (Hins : ∀ (m : gmap string OrderData) d, m !! order_id = None →
    count_active_orders (<[order_id := d]> m) = (count_active_orders m + active d)%nat).
  { intros m d Hm. rewrite !count_active_orders_spec. unfold active_order_count_spec.
    rewrite map_filter_insert. rewrite delete_id by done. simpl.
    unfold active. destruct (is_active d) eqn:Ha.
    - apply is_active_spec in Ha. rewrite decide_True by done.
      rewrite map_size_insert_None; [lia|].
      rewrite map_lookup_filter_None. by left.
    - rewrite decide_False; [lia|]. rewrite <-is_active_spec. congruence. }
  assert (Hdel : ∀ old, orders !! order_id = Some old →
    (count_active_orders (delete order_id orders) + active old)%nat =
      count_active_orders orders).
  { intros old Hold. rewrite <-(insert_delete_id orders order_id old) at 2 by done.
    rewrite Hins by apply lookup_delete_eq. done. }
  split.
  - intros Hnone. unfold add_order. rewrite Hnone. simpl. by apply Hins.
  - intros old Hold. unfold update_order, delete_order. rewrite Hold. simpl. split.
    + rewrite <-insert_delete_eq. rewrite Hins by apply lookup_delete_eq.
      specialize (Hdel old Hold). lia.
    + by apply Hdel.
Qed.

Lemma count_active_orders_tracks_changes_witness :
  (count_active_orders (add_order "o2" order1 {["o1" := order1]}).2 =
     count_active_orders {["o1" := order1]} + 1)%nat ∧
  (count_active_orders (delete_order "o1" {["o1" := order1]}).2 + 1 =
     count_active_orders {["o1" := order1]})%nat.
Proof.
  destruct (count_active_orders_tracks_changes {["o1" := order1]} "o2" order1)
    as [Hadd _].
  destruct (count_active_orders_tracks_changes {["o1" := order1]} "o1" order1)
    as [_ Hold].
  destruct (Hold order1 eq_refl) as [_ Hdel].
  split; [exact (Hadd eq_refl)|exact Hdel].
Defined.

(** X3.  [get_active_orders] lists exactly the tracked orders whose status is
    open or partially_filled, each id once; its length is
    [count_active_orders], and also the number of open orders plus the
    number of partially filled ones as [get_orders_by_status] lists them. *)
Theorem get_active_orders_spec (orders : gmap string OrderData) :
  (∀ order_id order_data,
     (order_id, order_data) ∈ get_active_orders orders ↔
     orders !! order_id = Some order_data ∧
     (od_status order_data = "open" ∨ od_status order_data = "partially_filled")) ∧
  NoDup (get_active_orders orders).*1 ∧
  length (get_active_orders orders) = count_active_orders orders ∧
  length (get_active_orders orders) =
    (length (get_orders_by_status "open" orders) +
     length (get_orders_by_status "partially_filled" orders))%nat.
Proof.
  split; [|split; [|split]].
  - intros order_id order_data. unfold get_active_orders.
    rewrite list_elem_of_filter, elem_of_map_to_list. simpl.
    rewrite is_active_spec. tauto.
  - unfold get_active_orders.
    pose proof (NoDup_fst_map_to_list orders) as Hnd.
    induction (map_to_list orders) as [|[k od] l IH]; [constructor|].
    rewrite fmap_cons in Hnd. apply NoDup_cons in Hnd as [Hk Hnd].
    rewrite filter_cons. destruct (decide _); [|by apply IH].
    rewrite fmap_cons. apply NoDup_cons. split; [|by apply IH].
    simpl. intros Hin. apply Hk.
    apply list_elem_of_fmap in Hin as ([k' od'] & -> & Hin).
    apply list_elem_of_filter in Hin as [_ Hin].
    apply list_elem_of_fmap. by exists (k', od').
  - unfold get_active_orders, count_active_orders. symmetry.
    exact (length_filter_snd (fun od : OrderData => is_active od = true) (map_to_list orders)).
  - unfold get_active_orders, get_orders_by_status.
    induction (map_to_list orders) as [|[k od] l IH]; [done|].
    rewrite !filter_cons. simpl.
    destruct (decide (is_active od = true)) as [Ha|Ha].
    + apply is_active_spec in Ha as [Ho|Hp].
      * rewrite decide_True by done. rewrite decide_False by (by rewrite Ho).
        cbn [length]. rewrite IH. lia.
      * rewrite decide_False by (by rewrite Hp). rewrite decide_True by done.
        cbn [length]. rewrite IH. lia.
    + rewrite is_active_spec in Ha.
      rewrite !decide_False by tauto. exact IH.
Qed.

Lemma get_active_orders_spec_witness :
  ("o1", order1) ∈ get_active_orders orders2 ∧ length (get_active_orders orders2) = 1%nat.
Proof.
  destruct (get_active_orders_spec orders2) as (Hin & _ & Hlen & _).
  split.
  - apply Hin. split; [reflexivity|by left].
  - rewrite Hlen. reflexivity.
Defined.




Lemma delete_order_snd order_id (orders : gmap string OrderData) :
  (delete_order order_id orders).2 = delete order_id orders.
Proof.
  unfold delete_order. destruct (orders !! order_id) eqn:H; [done|].
  simpl. by rewrite delete_id.
Qed.

Lemma for_each_delete_order (l : list string) :
  ∀ (orders : gmap string OrderData) (tr : Trace),
    for_each l (fun order_id => modify (fun om => (delete_order order_id om).2)) orders tr
    = (Ok tt, foldl (fun m order_id => delete order_id m) orders l, tr).
Proof.
  induction l as [|k l IH]; intros orders tr; [done|].
  simpl. rewrite bind_run. unfold modify at 1. rewrite IH.
  by rewrite delete_order_snd.
Qed.

Lemma lookup_foldl_delete (l : list string) :
  ∀ (orders : gmap string OrderData) j,
    foldl (fun m order_id => delete order_id m) orders l !! j =
    if decide (j ∈ l) then None else orders !! j.
Proof.
  induction l as [|k l IH]; intros orders j; cbn [foldl].
  - rewrite decide_False; [done|]. apply not_elem_of_nil.
  - rewrite IH. destruct (decide (j ∈ l)) as [Hin|Hin].
    + rewrite decide_True; [done|]. by right.
    + destruct (decide (j = k)) as [->|Hne].
      * rewrite lookup_delete_eq. rewrite decide_True; [done|]. by left.
      * rewrite lookup_delete_ne by done.
        rewrite decide_False; [done|]. rewrite elem_of_cons. tauto.
Qed.

(** X5.  [clean_old_orders(max_age)] reads the clock once and removes exactly
    the orders that are older than [max_age] and not active; it returns
    how many it removed, and every active order stays with its record,
    whatever its age. *)
Theorem clean_old_orders_keeps_active (w : World) (max_age : Z)
    (orders : gmap string OrderData) (tr : Trace) :
  let stale (kv : string * OrderData) : Prop :=
    max_age < w_time w tr - od_timestamp kv.2 ∧ is_active kv.2 = false in
  ∃ n orders',
    clean_old_orders w max_age orders tr = (Ok n, orders', tr ++ [EvTime]) ∧
    orders' = filter (fun kv => ¬ stale kv) orders ∧
    (n + size orders' = size orders)%nat ∧
    (∀ order_id order_data,
       orders !! order_id = Some order_data → is_active order_data = true →
       orders' !! order_id = Some order_data).
Proof.
  intros stale. unfold clean_old_orders.
  rewrite bind_run. unfold time_time at 1, ask at 1.
  rewrite bind_run. unfold get at 1.
  rewrite bind_run, for_each_delete_order.
  fold stale.
  set (old_orders := (filter stale (map_to_list orders)).*1).
  assert (Heq : foldl (fun m order_id => delete order_id m) orders old_orders =
                filter (fun kv => ¬ stale kv) orders).
  { apply map_eq. intros j. rewrite lookup_foldl_delete.
    destruct (decide (j ∈ old_orders)) as [Hin|Hin].
    - symmetry. apply map_lookup_filter_None. right. intros od Hod Hns.
      apply Hns. subst old_orders.
      apply list_elem_of_fmap in Hin as ([k od'] & -> & Hin).
      apply list_elem_of_filter in Hin as [Hst Hin].
      apply elem_of_map_to_list in Hin. simpl in Hod.
      rewrite Hin in Hod. by injection Hod as <-.
    - destruct (orders !! j) as [od|] eqn:Hod.
      + symmetry. apply map_lookup_filter_Some. split; [done|].
        intros Hst. apply Hin. subst old_orders.
        apply list_elem_of_fmap. exists (j, od). split; [done|].
        apply list_elem_of_filter. split; [done|]. by apply elem_of_map_to_list.
      + symmetry. apply map_lookup_filter_None. by left. }
  eexists _, _. split; [reflexivity|]. split; [exact Heq|]. split.
  - rewrite Heq. subst old_orders. rewrite length_fmap, length_filter_map_to_list.
    rewrite <-(map_filter_union_complement stale orders) at 3.
    rewrite map_size_disj_union by apply map_disjoint_filter_complement. done.
  - intros order_id order_data Hod Hact. rewrite Heq.
    apply map_lookup_filter_Some. split; [done|].
    intros [_ Hina]. simpl in Hina. congruence.
Qed.

Lemma clean_old_orders_keeps_active_witness :
  ∃ n orders',
    clean_old_orders w_grid 3 orders2 [EvTime; EvTime; EvTime; EvTime; EvTime;
                                       EvTime; EvTime; EvTime; EvTime; EvTime]
      = (Ok n, orders', [EvTime; EvTime; EvTime; EvTime; EvTime;
                         EvTime; EvTime; EvTime; EvTime; EvTime] ++ [EvTime]) ∧
    orders' !! "o1" = Some order1.
Proof.
  destruct (clean_old_orders_keeps_active w_grid 3 orders2
              [EvTime; EvTime; EvTime; EvTime; EvTime;
               EvTime; EvTime; EvTime; EvTime; EvTime])
    as (n & orders' & Hrun & _ & _ & Hkeep).
  exists n, orders'. split; [exact Hrun|]. apply Hkeep; reflexivity.
Defined.

Lemma bulk_update_orders_fold (updates : pydict OrderData) :
  ∀ (n : nat) (orders : gmap string OrderData),
    let r := foldl (fun acc upd =>
                      let r := update_order upd.1 upd.2 acc.2 in
                      (if r.1 then S acc.1 else acc.1, r.2))
               (n, orders) updates in
    r.1 = (n + length (filter (fun upd : string * OrderData =>
                                 is_Some (orders !! upd.1)) updates))%nat ∧
    dom r.2 = dom orders ∧
    (∀ order_id, order_id ∉ updates.*1 → r.2 !! order_id = orders !! order_id) ∧
    (∀ order_id, is_Some (orders !! order_id) →
       ∀ order_data, last (filter (fun upd : string * OrderData => upd.1 = order_id)
                             updates) = Some (order_id, order_data) →
       r.2 !! order_id = Some order_data).
Proof.
  unfold pydict in *.
  induction updates as [|[k d] updates IH]; intros n orders.
  - simpl. split; [lia|]. split; [done|]. split; [done|]. intros ? _ ? [=].
  - cbv zeta. cbn [foldl fst snd].
    assert (Hu : update_order k d orders =
                 match orders !! k with
                 | Some _ => (true, <[k := d]> orders)
                 | None => (false, orders)
                 end).
    { unfold update_order. by destruct (orders !! k). }
    rewrite Hu. clear Hu.
    destruct (orders !! k) as [old|] eqn:Hk; cbn [fst snd].
    + destruct (IH (S n) (<[k := d]> orders)) as (H1 & H2 & H3 & H4).
      cbv zeta in H1, H2, H3, H4.
      split.
      { rewrite H1, filter_cons. simpl. rewrite decide_True by (by rewrite Hk).
        cbn [length].
        assert (Hf : filter (fun upd : string * OrderData =>
                               is_Some (<[k := d]> orders !! upd.1)) updates =
                     filter (fun upd : string * OrderData =>
                               is_Some (orders !! upd.1)) updates).
        { apply list_filter_iff. intros [k' d']. simpl.
          destruct (decide (k' = k)) as [->|Hne].
          - rewrite lookup_insert_eq, Hk. split; by eexists.
          - by rewrite lookup_insert_ne. }
        rewrite Hf. lia. }
      split.
      { rewrite H2. apply dom_insert_lookup_L. by rewrite Hk. }
      split.
      { intros order_id Hnot. rewrite fmap_cons, not_elem_of_cons in Hnot.
        destruct Hnot as [Hne Hnot]. simpl in Hne.
        rewrite H3 by done. by rewrite lookup_insert_ne. }
      intros order_id Hsome order_data. rewrite filter_cons. simpl.
      destruct (decide (k = order_id)) as [->|Hne].
      * destruct (filter (fun upd : string * OrderData => upd.1 = order_id) updates)
          as [|u us] eqn:Hfil.
        -- simpl. intros Heq. injection Heq as Heq. subst d.
           rewrite H3; [by rewrite lookup_insert_eq|].
           intros Hin. apply list_elem_of_fmap in Hin as ([k' d'] & Hk' & Hin).
           simpl in Hk'. subst k'.
           assert (Hin' : (order_id, d') ∈ filter
                     (fun upd : string * OrderData => upd.1 = order_id) updates).
           { apply list_elem_of_filter. done. }
           rewrite Hfil in Hin'. by apply elem_of_nil in Hin'.
        -- rewrite last_cons_cons. intros Hlast. apply H4; [|by rewrite Hfil].
           rewrite lookup_insert_eq. by eexists.
      * intros Hlast. apply H4; [|done]. by rewrite lookup_insert_ne.
    + destruct (IH n orders) as (H1 & H2 & H3 & H4).
      cbv zeta in H1, H2, H3, H4.
      split.
      { rewrite H1, filter_cons. simpl. rewrite decide_False; [done|].
        rewrite Hk. by intros [? ?]. }
      split; [done|]. split.
      { intros order_id Hnot. rewrite fmap_cons, not_elem_of_cons in Hnot.
        apply H3. tauto. }
      intros order_id Hsome order_data. rewrite filter_cons. simpl.
      destruct (decide (k = order_id)) as [->|Hne].
      * rewrite Hk in Hsome. by destruct Hsome.
      * by apply H4.
Qed.

(** X6.  [bulk_update_orders] returns the number of entries whose id is
    tracked and never adds an id: the tracked ids are the same afterwards,
    an id that is not in [updates] keeps its record, and a tracked id of
    [updates] ends with the record of its last entry. *)
Theorem bulk_update_orders_updates_present_ids (updates : pydict OrderData)
    (orders : gmap string OrderData) :
  let r := bulk_update_orders updates orders in
  r.1 = length (filter (fun upd : string * OrderData =>
                          is_Some (orders !! upd.1)) updates) ∧
  dom r.2 = dom orders ∧
  (∀ order_id, order_id ∉ updates.*1 → r.2 !! order_id = orders !! order_id) ∧
  (∀ order_id order_data,
     is_Some (orders !! order_id) →
     last (filter (fun upd : string * OrderData => upd.1 = order_id) updates)
       = Some (order_id, order_data) →
     r.2 !! order_id = Some order_data).
Proof.
  destruct (bulk_update_orders_fold updates 0%nat orders) as (H1 & H2 & H3 & H4).
  cbv zeta in *. unfold bulk_update_orders.
  split; [exact H1|]. split; [exact H2|]. split; [exact H3|].
  intros order_id order_data Hsome Hlast. by apply (H4 order_id).
Qed.

Lemma bulk_update_orders_updates_present_ids_witness :
  (bulk_update_orders [("o1", order1); ("o9", order1)] orders2).1 = 1%nat ∧
  (bulk_update_orders [("o1", order1); ("o9", order1)] orders2).2 !! "o2" =
    orders2 !! "o2".
Proof.
  destruct (bulk_update_orders_updates_present_ids
              [("o1", order1); ("o9", order1)] orders2) as (Hn & _ & Hkeep & _).
  split.
  - rewrite Hn. reflexivity.
  - apply Hkeep. vm_compute. intros H. inversion H as [|? ? ? H1]; subst.
    inversion H1 as [|? ? ? H2]; subst. inversion H2.
Defined.

End OrderManagerMore.

(** *** helpers.py: truncation, rounding and the grid prices *)

Section Helpers.

Lemma length_string_of_list_ascii l :
  String.length (String.string_of_list_ascii l) = length l.
Proof. induction l as [|a l IH]; simpl; [done|by rewrite IH]. Qed.

Lemma length_list_ascii_of_string s :
  length (String.list_ascii_of_string s) = String.length s.
Proof. induction s as [|a s IH]; simpl; [done|by rewrite IH]. Qed.

Lemma string_length_app s1 s2 :
  String.length (s1 +:+ s2) = (String.length s1 + String.length s2)%nat.
Proof. induction s1 as [|a s1 IH]; simpl; [done|by rewrite IH]. Qed.

Lemma string_of_list_ascii_app l1 l2 :
  String.string_of_list_ascii (l1 ++ l2) =
  String.string_of_list_ascii l1 +:+ String.string_of_list_ascii l2.
Proof. induction l1 as [|a l1 IH]; simpl; [done|by rewrite IH]. Qed.

Lemma py_slice_to_prefix stop text :
  ∃ rest, text = py_slice_to stop text +:+ rest ∧
    Z.of_nat (String.length (py_slice_to stop text)) =
      if stop <? 0 then Z.max (Z.of_nat (String.length text) + stop) 0
      else Z.min stop (Z.of_nat (String.length text)).
Proof.
  unfold py_slice_to.
  set (n := Z.of_nat (String.length text)).
  set (k := Z.to_nat (if stop <? 0 then Z.max (n + stop) 0 else Z.min stop n)).
  exists (String.string_of_list_ascii (drop k (String.list_ascii_of_string text))).
  split.
  - rewrite <-string_of_list_ascii_app, take_drop.
    by rewrite String.string_of_list_ascii_of_string.
  - rewrite length_string_of_list_ascii, length_take, length_list_ascii_of_string.
    subst k n. destruct (stop <? 0) eqn:Hs; lia.
Qed.

(** X8.  [truncate_string(text, max_length)] is [text] when it fits.  When it
    does not fit and [max_length] is at least 3, the result is a prefix of
    [text] followed by three dots and has exactly [max_length] characters.
    For a [max_length] below 3 the slice counts from the end (or is taken
    at 0) and the result is longer than [max_length]. *)
Theorem truncate_string_length (text : string) (max_length : Z) :
  let n := Z.of_nat (String.length text) in
  let r := truncate_string text max_length in
  (n ≤ max_length → r = text) ∧
  (max_length < n → 3 ≤ max_length →
     Z.of_nat (String.length r) = max_length ∧
     ∃ kept rest, r = kept +:+ "..." ∧ text = kept +:+ rest) ∧
  (max_length < n → max_length < 3 →
     Z.of_nat (String.length r) = Z.max (n + max_length - 3) 0 + 3 ∧
     max_length < Z.of_nat (String.length r)).
Proof.
  intros n r. subst r. unfold truncate_string. fold n.
  destruct (Z.leb_spec n max_length) as [Hle|Hgt].
  - split; [done|]. split; intros; lia.
  - split; [intros; lia|].
    destruct (py_slice_to_prefix (max_length - 3) text) as (rest & Htext & Hlen).
    fold n in Hlen. rewrite string_length_app, Nat2Z.inj_add, Hlen.
    split; intros _ Hmax.
    + destruct (Z.ltb_spec (max_length - 3) 0); [lia|].
      split; [simpl; lia|]. by exists (py_slice_to (max_length - 3) text), rest.
    + destruct (Z.ltb_spec (max_length - 3) 0); [|lia].
      replace (n + (max_length - 3)) with (n + max_length - 3) by lia.
      simpl. lia.
Qed.

Lemma truncate_string_length_witness :
  truncate_string "grid" 10 = "grid" ∧
  Z.of_nat (String.length (truncate_string "grid trading" 8)) = 8 ∧
  2 < Z.of_nat (String.length (truncate_string "grid trading" 2)).
Proof.
  destruct (truncate_string_length "grid" 10) as (H1 & _ & _).
  destruct (truncate_string_length "grid trading" 8) as (_ & H2 & _).
  destruct (truncate_string_length "grid trading" 2) as (_ & _ & H3).
  split; [apply H1; vm_compute; discriminate|].
  split; [apply H2; [reflexivity|vm_compute; discriminate]|].
  apply H3; reflexivity.
Defined.

(** X9.  Rounding down is idempotent.  For a precision [10 ^ (- d)] and a value
    within the context precision whose quotient has at most 28 digits,
    [round_to_precision] returns a result that a second [round_to_precision]
    and [_adjust_to_precision] both return unchanged, the latter without
    touching the strategy or logging. *)
Theorem round_to_precision_idempotent (c e d : Z) :
  Z.abs c < 10 ^ 28 → 0 ≤ d ≤ 100 → -900 ≤ e ≤ 900 →
  (c ≠ 0 → Decimal.ndigits c + e + d ≤ 28) →
  ∃ r, round_to_precision (dec c e) (dec 1 (- d)) = Ok r ∧
       round_to_precision r (dec 1 (- d)) = Ok r ∧
       (∀ st tr, GridStrategy._adjust_to_precision r (dec 1 (- d)) st tr = (Ok r, st, tr)).
Proof.
  intros Hc Hd He Hdig.
  assert (Hne : Decimal.eqb (dec 1 (- d)) Decimal.zero = false).
  { unfold Decimal.eqb, Decimal.cmp, Decimal.scaled. simpl.
    rewrite Z.min_l by lia. rewrite Z.sub_diag. simpl.
    pose proof (pow10_gt0 (0 - - d) ltac:(lia)).
    destruct (10 ^ (0 - - d)); done || lia. }
  assert (Hpos : Decimal.leb (dec 1 (- d)) Decimal.zero = false).
  { unfold Decimal.leb, Decimal.cmp, Decimal.scaled. simpl.
    rewrite Z.min_l by lia. rewrite Z.sub_diag. simpl.
    pose proof (pow10_gt0 (0 - - d) ltac:(lia)).
    destruct (10 ^ (0 - - d)); done || lia. }
  set (t := trunc_coef c (e + d)).
  assert (Ht : Z.abs t < 10 ^ 28) by (apply trunc_coef_bound; [done|intros; lia]).
  assert (Hagain : truncate_to (dec t (- d)) (dec 1 (- d)) = Ok (dec t (- d))).
  { unfold dec. rewrite truncate_pow10; try done; try lia.
    - replace (- d + d) with 0 by lia. unfold trunc_coef. simpl. by rewrite Z.mul_1_r.
    - intros Hnz. pose proof (ndigits_le t 28 ltac:(lia) Ht). lia. }
  exists (dec t (- d)). unfold round_to_precision. rewrite Hne.
  split; [by apply truncate_pow10|]. split; [exact Hagain|].
  intros st tr. unfold GridStrategy._adjust_to_precision. rewrite Hpos.
  unfold lift_res. by rewrite Hagain.
Qed.

Lemma round_to_precision_idempotent_witness :
  ∃ r, round_to_precision (dec 123456789 (-4)) (dec 1 (-2)) = Ok r ∧
       round_to_precision r (dec 1 (-2)) = Ok r.
Proof.
  destruct (round_to_precision_idempotent 123456789 (-4) 2) as (r & H1 & H2 & _).
  - vm_compute. reflexivity.
  - lia.
  - lia.
  - intros _. vm_compute. discriminate.
  - exists r. split; [exact H1|exact H2].
Defined.

Lemma round_to_precision_pow10_floor_witness :
  round_to_precision (dec 123456789 (-4)) (dec 1 (-2)) = Ok (dec 1234567 (-2)) ∧
  Decimal.leb (dec 1234567 (-2)) (dec 123456789 (-4)) = true ∧
  Decimal.ltb (dec 123456789 (-4)) (dec 1234568 (-2)) = true.
Proof.
  destruct (round_to_precision_pow10_floor 123456789 (-4) 2) as (H1 & H2 & H3 & _).
  - split; [lia|vm_compute; reflexivity].
  - lia.
  - lia.
  - intros _. vm_compute. discriminate.
  - split; [exact H1|]. split; [exact H2|exact H3].
Defined.

Lemma level_price_split start step pp (l : list nat) qs :
  res_mapM (level_price start step pp) l = Ok qs →
  ∃ ps,
    res_mapM (fun i : nat =>
                x <-r Decimal.mul step (Decimal.of_Z (Z.of_nat i));
                Decimal.add start x) l = Ok ps ∧
    Forall2 (fun p q =>
               (if Decimal.leb pp Decimal.zero then Ok p else truncate_to p pp) = Ok q)
      ps qs.
Proof.
  revert qs. induction l as [|i l IH]; intros qs; simpl.
  - intros [= <-]. by exists [].
  - unfold level_price at 1.
    destruct (Decimal.mul step _) as [x|]; simpl; [|done].
    destruct (Decimal.add start x) as [y|]; simpl; [|done].
    destruct (if Decimal.leb pp Decimal.zero then Ok y else truncate_to y pp)
      as [q|] eqn:Hq; simpl; [|done].
    destruct (res_mapM (level_price start step pp) l) as [qs'|]; simpl; [|done].
    intros [= <-]. destruct (IH qs' eq_refl) as (ps & -> & HF).
    exists (y :: ps). split; [done|]. by constructor.
Qed.

(** X10.  The helper and the strategy agree on the grid.  With at least two
    levels, whenever [calculate_grid_levels] returns, [calculate_grid_prices]
    on the same bounds and number of levels returns one price for each
    level, and the price of level [i] is the [i]-th of them adjusted to the
    price precision of the venue (kept as it is when that precision is not
    positive). *)
Theorem calculate_grid_prices_are_the_level_prices (w : World) (st : GridStrategy)
    (tr : Trace) (st' : GridStrategy) (tr' : Trace) :
  2 ≤ grid_levels st →
  GridStrategy.calculate_grid_levels w st tr = (Ok tt, st', tr') →
  ∃ prices pp ap,
    calculate_grid_prices (start_price st) (end_price st) (grid_levels st) = Ok prices ∧
    Z.of_nat (length prices) = grid_levels st ∧
    (GridStrategy.get_exchange_precision w st tr).1.1 = Ok (pp, ap) ∧
    Forall2 (fun p level =>
               (if Decimal.leb pp Decimal.zero then Ok p else truncate_to p pp)
                 = Ok (gl_price level))
      prices (grid_levels_data st').
Proof.
  intros Hn Hcalc.
  destruct (calculate_grid_levels_run w st tr) as (p & tr1 & Hp & Hrun).
  unfold price_step in Hrun. unfold calculate_grid_prices.
  destruct (Z.ltb_spec 1 (grid_levels st)) as [_|?]; [|lia].
  destruct (Z.leb_spec (grid_levels st) 1) as [?|_]; [lia|].
  destruct (Decimal.sub (end_price st) (start_price st)) as [range|e];
    cbn [res_bind] in *; [|congruence].
  destruct (Decimal.div range _) as [step|e]; cbn [res_bind] in *; [|congruence].
  destruct (Decimal.div (total_investment st) _) as [amount|e];
    [|rewrite Hcalc in Hrun; discriminate Hrun].
  destruct Hrun as (r & tr2 & new & Hrun & Hres).
  rewrite Hcalc in Hrun. injection Hrun as <- -> <-.
  destruct (res_mapM (level_price _ _ _) _) as [qs|e] eqn:Hqs; [|discriminate Hres].
  destruct Hres as [_ HF].
  destruct (res_mapM_length _ _ _ Hqs) as [Hlen _].
  destruct (new_levels_facts amount _ qs new Hlen HF) as (_ & Hpr & _).
  destruct (level_price_split _ _ _ _ _ Hqs) as (ps & Hps & HF2).
  exists ps, p.1, p.2. split; [exact Hps|]. split.
  - destruct (res_mapM_length _ _ _ Hps) as [-> _]. rewrite length_seq. lia.
  - split; [rewrite Hp; by destruct p|]. simpl. rewrite <-Hpr in HF2.
    by apply Forall2_fmap_r in HF2.
Qed.

Lemma calculate_grid_prices_are_the_level_prices_witness :
  ∃ prices,
    calculate_grid_prices (dec 100 0) (dec 200 0) 5 = Ok prices ∧
    Z.of_nat (length prices) = 5.
Proof.
  destruct (calculate_grid_prices_are_the_level_prices w_grid
              (st_config (dec 100 0) (dec 200 0) 5 (dec 1000 0)) [] _ _
              ltac:(vm_compute; discriminate) ltac:(vm_compute; reflexivity))
    as (prices & pp & ap & Hp & Hlen & _).
  exists prices. split; [exact Hp|exact Hlen].
Defined.

End Helpers.

(** *** HedgeManager: creation of a hedge group *)

Section HedgeCreate.
Context (w : World).
Import HedgeManager HedgeQueries.

Lemma create_on_exchange_spec symbol side amount price orig acc ex hm tr :
  collected orig acc hm →
  ∃ acc' hm' evs,
    create_on_exchange w symbol side amount price orig acc ex hm tr
      = (Ok acc', hm', tr ++ evs) ∧
    collected orig acc' hm' ∧
    hedge_orders hm' = hedge_orders hm ∧
    hedge_strategies hm' = hedge_strategies hm ∧
    List.filter is_placement evs = [EvCreateLimitOrder ex symbol side amount price] ∧
    (length acc.1 ≤ length acc'.1 ≤ S (length acc.1))%nat ∧
    (∀ id, reverse_lookup hm' !! id = reverse_lookup hm !! id ∨
           reverse_lookup hm' !! id = Some orig).
Proof.
  intros [Hkeys Hmem]. unfold create_on_exchange.
  destruct (w_create_limit_order w tr ex symbol side amount price) as [oid|e].
  - destruct (truthy (Some oid)).
    + eexists _, _, [_; EvTime; EvLog _]. split.
      { rewrite <-!app_assoc. reflexivity. }
      split; [|split; [done|split; [done|split; [done|split]]]].
      * split; simpl.
        -- intros id. rewrite elem_of_app, list_elem_of_singleton, Hkeys.
           destruct (decide (oid = id)) as [->|Hne].
           ++ rewrite dget_dset_eq. split; [by eexists|by right].
           ++ rewrite dget_dset_ne by done. split; [|by left].
              intros [?|?]; [done|congruence].
        -- intros id o. destruct (decide (oid = id)) as [->|Hne].
           ++ rewrite dget_dset_eq. intros [= <-]. simpl.
              by rewrite lookup_insert_eq.
           ++ rewrite dget_dset_ne by done. intros Ho.
              rewrite lookup_insert_ne by done. by apply Hmem.
      * simpl. rewrite length_app. simpl. lia.
      * intros id. simpl. destruct (decide (oid = id)) as [->|Hne].
        -- right. by rewrite lookup_insert_eq.
        -- left. by rewrite lookup_insert_ne.
    + eexists acc, hm, [_]. split; [reflexivity|].
      split; [done|]. split; [done|]. split; [done|]. split; [done|].
      split; [lia|]. by left.
  - eexists acc, hm, [_; _]. split; [reflexivity|].
    split; [done|]. split; [done|]. split; [done|]. split; [done|].
    split; [lia|]. by left.
Qed.

Lemma create_on_exchanges_spec symbol side amount price orig exs :
  ∀ acc hm tr,
    collected orig acc hm →
    ∃ acc' hm' evs,
      create_on_exchanges w symbol side amount price orig acc exs hm tr
        = (Ok acc', hm', tr ++ evs) ∧
      collected orig acc' hm' ∧
      hedge_orders hm' = hedge_orders hm ∧
      hedge_strategies hm' = hedge_strategies hm ∧
      List.filter is_placement evs = hedge_requests symbol side amount price exs ∧
      (length acc'.1 ≤ length acc.1 + length exs)%nat ∧
      (∀ id, reverse_lookup hm' !! id = reverse_lookup hm !! id ∨
             reverse_lookup hm' !! id = Some orig).
Proof.
  induction exs as [|ex exs IH]; intros acc hm tr Hacc; simpl.
  - exists acc, hm, []. rewrite app_nil_r. split; [done|].
    split; [done|]. split; [done|]. split; [done|]. split; [done|].
    split; [lia|]. by left.
  - rewrite bind_run.
    destruct (create_on_exchange_spec symbol side amount price orig acc ex hm tr Hacc)
      as (acc1 & hm1 & evs1 & -> & Hacc1 & Ho1 & Hs1 & Hf1 & Hl1 & Hr1).
    destruct (IH acc1 hm1 (tr ++ evs1) Hacc1)
      as (acc2 & hm2 & evs2 & -> & Hacc2 & Ho2 & Hs2 & Hf2 & Hl2 & Hr2).
    exists acc2, hm2, (evs1 ++ evs2). rewrite app_assoc. split; [done|].
    split; [done|]. split; [congruence|]. split; [congruence|].
    split.
    { rewrite List.filter_app, Hf1, Hf2. done. }
    split; [lia|].
    intros id. destruct (Hr2 id) as [-> | ->]; [apply Hr1|by right].
Qed.

Lemma collected_nil orig hm : collected orig ([], []) hm.
Proof.
  split; simpl.
  - intros id. split; [by intros ?%elem_of_nil|by intros [? ?]].
  - done.
Qed.

(** [create_hedge_order], step by step, for a strategy that has a hedge
    configuration. *)
Lemma create_hedge_order_run sid side amount price level_id orig hm tr cfg :
  hedge_strategies hm !! sid = Some cfg →
  ∃ hm1 evs1 cfg1,
    hedge_orders hm1 = hedge_orders hm ∧
    reverse_lookup hm1 = reverse_lookup hm ∧
    dom (hedge_strategies hm1) = dom (hedge_strategies hm) ∧
    hedge_strategies hm1 !! sid = Some cfg1 ∧
    hc_trading_pair cfg1 = hc_trading_pair cfg ∧
    hc_exchanges cfg1 = hc_exchanges cfg ∧
    List.filter is_placement evs1 = [] ∧
    match round_to_precision price (hc_price_precision cfg1),
          round_to_precision amount (hc_amount_precision cfg1) with
    | Ok rp, Ok ra =>
        ∃ id evs2 acc hm3 evs3,
          (id = default "" orig ∨ truthy orig = false) ∧
          List.filter is_placement evs2 = [] ∧
          create_on_exchanges w (hc_trading_pair cfg) (opposite_side side) ra rp id
            ([], []) (hc_exchanges cfg) hm1 ((tr ++ evs1) ++ evs2)
            = (Ok acc, hm3, ((tr ++ evs1) ++ evs2) ++ evs3) ∧
          create_hedge_order w sid side amount price level_id orig hm tr =
            (Ok acc.1,
             match acc.1 with
             | [] => hm3
             | _ => set_hedge_orders
                      (dset id (mkHedgeGroup sid level_id (opposite_side side) ra rp
                                  "open" acc.2)) hm3
             end,
             (((tr ++ evs1) ++ evs2) ++ evs3) ++
             [EvLog (match acc.1 with
                     | [] => LogHedgeNone id
                     | _ => LogHedgeGroup id (length acc.1)
                     end)])
    | Raise e, _ | Ok _, Raise e =>
        create_hedge_order w sid side amount price level_id orig hm tr
          = (Raise e, hm1, tr ++ evs1)
    end.
Proof.
  intros Hcfg. unfold create_hedge_order. rewrite bind_run. simpl. rewrite Hcfg.
  rewrite bind_run.
  assert (Hprec : ∃ hm1 evs1 cfg1,
    match hc_exchanges cfg with
    | [] => ret ()
    | ex0 :: _ => _update_precision_if_needed w sid ex0 (hc_trading_pair cfg)
    end hm tr = (Ok tt, hm1, tr ++ evs1) ∧
    hedge_orders hm1 = hedge_orders hm ∧
    reverse_lookup hm1 = reverse_lookup hm ∧
    dom (hedge_strategies hm1) = dom (hedge_strategies hm) ∧
    hedge_strategies hm1 !! sid = Some cfg1 ∧
    hc_trading_pair cfg1 = hc_trading_pair cfg ∧
    hc_exchanges cfg1 = hc_exchanges cfg ∧
    List.filter is_placement evs1 = []).
  { destruct (hc_exchanges cfg) as [|ex0 ?] eqn:Hexs.
    { exists hm, [], cfg. rewrite app_nil_r. by split_and!. }
    unfold _update_precision_if_needed.
    rewrite try_except_run, bind_run. unfold call.
    destruct (w_fetch_market_info w tr ex0 (hc_trading_pair cfg)) as [mi|e].
    - eexists _, [_], _. split; [reflexivity|]. simpl.
      split; [done|]. split; [done|]. split; [by rewrite dom_alter_L|].
      rewrite lookup_alter_eq, Hcfg. simpl. done.
    - eexists hm, [_; _], cfg.
      split; [unfold log, emit; by rewrite <-app_assoc|]. by split_and!. }
  destruct Hprec as (hm1 & evs1 & cfg1 & -> & Ho1 & Hr1 & Hd1 & Hc1 & Hp1 & He1 & Hf1).
  exists hm1, evs1, cfg1.
  split; [done|]. split; [done|]. split; [done|]. split; [done|].
  split; [done|]. split; [done|]. split; [done|].
  rewrite bind_run. simpl. rewrite Hc1. simpl.
  rewrite bind_run. unfold lift_res at 1.
  destruct (round_to_precision price _) as [rp|e]; [|done].
  rewrite bind_run. unfold lift_res at 1.
  destruct (round_to_precision amount _) as [ra|e]; [|done].
  rewrite bind_run.
  set (pick := if truthy orig then _ else _).
  assert (Hpick : ∃ id evs2, pick hm1 (tr ++ evs1) = (Ok id, hm1, (tr ++ evs1) ++ evs2) ∧
                    (id = default "" orig ∨ truthy orig = false) ∧
                    List.filter is_placement evs2 = []).
  { subst pick. destruct (truthy orig).
    - exists (default "" orig), []. rewrite app_nil_r. split; [done|]. split; [by left|done].
    - rewrite bind_run. eexists _, [_]. split; [reflexivity|]. split; [by right|done]. }
  destruct Hpick as (id & evs2 & -> & Hid & Hf2).
  rewrite bind_run. fold (opposite_side side).
  destruct (create_on_exchanges_spec (hc_trading_pair cfg) (opposite_side side) ra rp id
              (hc_exchanges cfg) ([], []) hm1 ((tr ++ evs1) ++ evs2)
              (collected_nil id hm1))
    as (acc & hm3 & evs3 & Hrun & _).
  exists id, evs2, acc, hm3, evs3. split; [done|]. split; [done|].
  split; [exact Hrun|]. rewrite Hrun. rewrite bind_run.
  destruct acc.1 as [|o os]; reflexivity.
Qed.

(** X11.  When [create_hedge_order] returns for a configured strategy, the limit
    orders it has requested are exactly one for each configured hedge venue,
    in the order of the venues, all on the configured pair, on the side
    opposite to the original order, with the amount and the price rounded
    down to the precisions the configuration holds after the call; it
    returns at most one id for each venue. *)
Theorem create_hedge_order_one_request_per_venue
    (sid side : string) (amount price : Decimal) (level_id : string)
    (orig : option string) (hm : HedgeManager) (tr : Trace) (cfg : HedgeConfig)
    (ids : list string) (hm' : HedgeManager) (tr' : Trace) :
  hedge_strategies hm !! sid = Some cfg →
  create_hedge_order w sid side amount price level_id orig hm tr = (Ok ids, hm', tr') →
  ∃ cfg' rounded_amount rounded_price evs,
    hedge_strategies hm' !! sid = Some cfg' ∧
    round_to_precision amount (hc_amount_precision cfg') = Ok rounded_amount ∧
    round_to_precision price (hc_price_precision cfg') = Ok rounded_price ∧
    tr' = tr ++ evs ∧
    List.filter is_placement evs =
      hedge_requests (hc_trading_pair cfg) (opposite_side side)
        rounded_amount rounded_price (hc_exchanges cfg) ∧
    (length ids ≤ length (hc_exchanges cfg))%nat.
Proof.
  intros Hcfg Hrun.
  destruct (create_hedge_order_run sid side amount price level_id orig hm tr cfg Hcfg)
    as (hm1 & evs1 & cfg1 & Ho1 & Hr1 & Hd1 & Hc1 & Hp1 & He1 & Hf1 & Hres).
  destruct (round_to_precision price _) as [rp|e] eqn:Hrp;
    [|rewrite Hres in Hrun; discriminate Hrun].
  destruct (round_to_precision amount _) as [ra|e] eqn:Hra;
    [|rewrite Hres in Hrun; discriminate Hrun].
  destruct Hres as (id & evs2 & acc & hm3 & evs3 & Hid & Hf2 & Hloop & Hcreate).
  rewrite Hcreate in Hrun. injection Hrun as <- <- <-.
  destruct (create_on_exchanges_spec (hc_trading_pair cfg) (opposite_side side) ra rp id
              (hc_exchanges cfg) ([], []) hm1 ((tr ++ evs1) ++ evs2)
              (collected_nil id hm1))
    as (acc' & hm3' & evs3' & Hloop' & _ & _ & Hs3 & Hf3 & Hlen & _).
  rewrite Hloop in Hloop'. injection Hloop' as <- <- Hevs.
  apply app_inv_head in Hevs. subst evs3'.
  exists cfg1, ra, rp, (((evs1 ++ evs2) ++ evs3) ++
    [EvLog (match acc.1 with
            | [] => LogHedgeNone id
            | _ => LogHedgeGroup id (length acc.1)
            end)]).
  split.
  { destruct acc.1; simpl; by rewrite Hs3. }
  split; [done|]. split; [done|]. split.
  { by rewrite !app_assoc. }
  split.
  { rewrite !List.filter_app, Hf1, Hf2, Hf3. simpl. by rewrite app_nil_r. }
  simpl in Hlen. lia.
Qed.

(** X12.  What [create_hedge_order] stores, for a non-empty original order id.
    If no venue accepted an order the groups are as before.  Otherwise the
    group found by [get_hedge_order_by_original] has the strategy, the
    level, the opposite side and status open, its members are exactly the
    returned ids, each open, and [get_original_order_id] maps every returned
    id back to the original id.  The groups of other original ids are not
    touched. *)
Theorem create_hedge_order_registers_ids
    (sid side : string) (amount price : Decimal) (level_id orig : string)
    (hm : HedgeManager) (tr : Trace) (cfg : HedgeConfig)
    (ids : list string) (hm' : HedgeManager) (tr' : Trace) :
  hedge_strategies hm !! sid = Some cfg →
  truthy (Some orig) = true →
  create_hedge_order w sid side amount price level_id (Some orig) hm tr
    = (Ok ids, hm', tr') →
  (ids = [] → hedge_orders hm' = hedge_orders hm) ∧
  (ids ≠ [] →
     ∃ g, get_hedge_order_by_original orig hm' = Some g ∧
          hg_strategy_id g = sid ∧ hg_level_id g = level_id ∧
          hg_side g = opposite_side side ∧ hg_status g = "open" ∧
          (∀ id, id ∈ ids ↔ is_Some (dget id (hg_orders g))) ∧
          (∀ id o, dget id (hg_orders g) = Some o → ho_status o = "open") ∧
          (∀ id, id ∈ ids → get_original_order_id id hm' = Some orig)) ∧
  (∀ other, other ≠ orig →
     get_hedge_order_by_original other hm' = get_hedge_order_by_original other hm).
Proof.
  intros Hcfg Htruthy Hrun.
  destruct (create_hedge_order_run sid side amount price level_id (Some orig) hm tr cfg
              Hcfg)
    as (hm1 & evs1 & cfg1 & Ho1 & Hr1 & Hd1 & Hc1 & Hp1 & He1 & Hf1 & Hres).
  destruct (round_to_precision price _) as [rp|e] eqn:Hrp;
    [|rewrite Hres in Hrun; discriminate Hrun].
  destruct (round_to_precision amount _) as [ra|e] eqn:Hra;
    [|rewrite Hres in Hrun; discriminate Hrun].
  destruct Hres as (id & evs2 & acc & hm3 & evs3 & Hid & Hf2 & Hloop & Hcreate).
  assert (id = orig) as -> by (destruct Hid as [->|Hid]; [done|congruence]).
  rewrite Hcreate in Hrun. injection Hrun as <- <- <-.
  destruct (create_on_exchanges_spec (hc_trading_pair cfg) (opposite_side side) ra rp orig
              (hc_exchanges cfg) ([], []) hm1 ((tr ++ evs1) ++ evs2)
              (collected_nil orig hm1))
    as (acc' & hm3' & evs3' & Hloop' & [Hkeys Hmem] & Ho3 & _).
  rewrite Hloop in Hloop'. injection Hloop' as <- <- _.
  unfold get_hedge_order_by_original, get_original_order_id.
  split; [|split].
  - intros ->. congruence.
  - intros Hne. destruct acc.1 as [|o os] eqn:Hacc; [done|].
    eexists. simpl. rewrite dget_dset_eq. split; [done|]. simpl.
    split; [done|]. split; [done|]. split; [done|]. split; [done|].
    split; [exact Hkeys|]. split.
    + intros id o' Ho'. by apply (Hmem id).
    + intros id Hin. apply Hkeys in Hin as [o' Ho'].
      by apply (Hmem id o').
  - intros other Hne. destruct acc.1; simpl; [congruence|].
    rewrite dget_dset_ne by done. congruence.
Qed.

End HedgeCreate.

Section HedgeCreateExamples.
Import HedgeManager HedgeQueries.

Lemma create_hedge_order_one_request_per_venue_witness :
  ∃ evs rounded_amount rounded_price,
    List.filter is_placement evs =
      [EvCreateLimitOrder venue_h "BTC/USDT" "sell" rounded_amount rounded_price].
Proof.
  destruct (create_hedge_order_one_request_per_venue w_demo "s1" "buy" (dec 5 (-1))
              (dec 20000 0) "level_0" (Some "p1")
              (hedge_run w_demo ops_init).1 (hedge_run w_demo ops_init).2 _ _ _ _
              ltac:(vm_compute; reflexivity) ltac:(vm_compute; reflexivity))
    as (cfg' & ra & rp & evs & _ & _ & _ & _ & Hf & _).
  exists evs, ra, rp. exact Hf.
Defined.

Lemma create_hedge_order_registers_ids_witness :
  ∃ hm' g, get_hedge_order_by_original "p1" hm' = Some g ∧
           hg_side g = "sell" ∧ hg_status g = "open".
Proof.
  destruct (create_hedge_order_registers_ids w_demo "s1" "buy" (dec 5 (-1))
              (dec 20000 0) "level_0" "p1"
              (hedge_run w_demo ops_init).1 (hedge_run w_demo ops_init).2 _ _ _ _
              ltac:(vm_compute; reflexivity) eq_refl ltac:(vm_compute; reflexivity))
    as (_ & Hg & _).
  destruct (Hg ltac:(discriminate)) as (g & Hget & _ & _ & Hside & Hstatus & _).
  eexists _, g. split; [exact Hget|]. split; [exact Hside|exact Hstatus].
Defined.

End HedgeCreateExamples.

(** *** HedgeManager: runs of operations *)

Section HedgeRuns.
Context (w : World).
Import HedgeManager HedgeQueries.

Lemma registered_mono (hm hm' : HedgeManager) :
  dom (hedge_strategies hm) ⊆ dom (hedge_strategies hm') →
  hedge_orders hm' = hedge_orders hm →
  groups_registered hm → groups_registered hm'.
Proof.
  unfold groups_registered. intros Hdom -> Hinv.
  eapply Forall_impl; [exact Hinv|].
  intros [k g]. simpl. rewrite <-!elem_of_dom. apply Hdom.
Qed.

Lemma run_hedge_op_registered op st :
  groups_registered st.1 → groups_registered (run_hedge_op w op st).1.
Proof.
  destruct st as [hm tr]. simpl. intros Hinv.
  destruct op as [sid symbol exs|sid side amount price level_id orig|orig|sid|orig];
    simpl.
  - unfold initialize_for_strategy. destruct exs as [|ex exs]; [done|].
    simpl. apply (registered_mono hm); [|reflexivity|exact Hinv].
    simpl. rewrite dom_insert_L. set_solver.
  - destruct (hedge_strategies hm !! sid) as [cfg|] eqn:Hcfg.
    + destruct (create_hedge_order_run w sid side amount price level_id orig hm tr cfg
                  Hcfg)
        as (hm1 & evs1 & cfg1 & Ho1 & Hr1 & Hd1 & Hc1 & Hp1 & He1 & Hf1 & Hres).
      assert (Hinv1 : groups_registered hm1).
      { apply (registered_mono hm); [by rewrite Hd1|exact Ho1|exact Hinv]. }
      destruct (round_to_precision price _) as [rp|e]; [|by rewrite Hres].
      destruct (round_to_precision amount _) as [ra|e]; [|by rewrite Hres].
      destruct Hres as (id & evs2 & acc & hm3 & evs3 & Hid & Hf2 & Hloop & ->).
      destruct (create_on_exchanges_spec w (hc_trading_pair cfg) (opposite_side side)
                  ra rp id (hc_exchanges cfg) ([], []) hm1 ((tr ++ evs1) ++ evs2)
                  (collected_nil id hm1))
        as (acc' & hm3' & evs3' & Hloop' & _ & Ho3 & Hs3 & _).
      rewrite Hloop in Hloop'. injection Hloop' as <- <- _.
      assert (Hinv3 : groups_registered hm3).
      { apply (registered_mono hm1); [by rewrite Hs3|exact Ho3|exact Hinv1]. }
      simpl. destruct acc.1; [done|].
      unfold groups_registered in *. simpl.
      apply Forall_dset; [done|]. simpl. rewrite Hs3, Hc1. by eexists.
    + unfold create_hedge_order. rewrite bind_run. simpl. by rewrite Hcfg.
  - unfold cancel_hedge_orders. rewrite bind_run. simpl.
    destruct (dget orig (hedge_orders hm)) as [g|] eqn:Hg; [|done].
    destruct (hedge_strategies hm !! hg_strategy_id g) as [cfg|] eqn:Hcfg; [|done].
    destruct (cancel_hedge_orders_spec w hm tr orig g cfg Hg Hcfg)
      as (orders & tr' & Hrun & _).
    unfold cancel_hedge_orders in Hrun. rewrite bind_run in Hrun. simpl in Hrun.
    rewrite Hg, Hcfg in Hrun. rewrite Hrun. simpl.
    unfold groups_registered in *. simpl.
    apply Forall_dset; [done|]. simpl. rewrite Hcfg. by eexists.
  - destruct (update_spec w sid hm tr) as (groups & tr' & -> & HF). simpl.
    unfold groups_registered in *. simpl.
    clear -Hinv HF. induction HF as [|[k g] [k' g'] d d' [_ Hout] _ IH];
      [constructor|].
    apply Forall_cons in Hinv as [Hg Hd]. constructor; [|by apply IH].
    destruct Hout as (_ & Hsid & _). simpl in *. by rewrite Hsid.
  - destruct (handle_order_filled_spec hm tr orig) as (hm' & tr' & -> & Hs & Hh).
    simpl. destruct (dget orig (hedge_orders hm)) as [g|] eqn:Hg; [|by subst].
    destruct (all_filled (hg_orders g)) eqn:Hall; [|by subst].
    unfold groups_registered in *. rewrite Hh, Hs.
    apply Forall_dset; [done|]. simpl.
    rewrite Forall_forall in Hinv. apply (Hinv (orig, g)). by apply dget_Some_elem.
Qed.

Lemma hedge_run_registered ops : groups_registered (hedge_run w ops).1.
Proof.
  unfold hedge_run. induction ops as [|op ops IH] using rev_ind.
  - constructor.
  - rewrite foldl_app. simpl. by apply run_hedge_op_registered.
Qed.

(** X13.  After any sequence of operations on a new hedge manager, every group
    belongs to a strategy that has a hedge configuration.  Hence the lookup
    [self.hedge_strategies[strategy_id]] of [cancel_hedge_orders] cannot
    fail, and [cancel_hedge_orders], [update] and [handle_order_filled]
    all return without an exception, for every argument. *)
Theorem hedge_groups_stay_registered (ops : list HedgeOp) :
  let st := hedge_run w ops in
  (∀ id g, get_hedge_order_by_original id st.1 = Some g →
           is_Some (hedge_strategies st.1 !! hg_strategy_id g)) ∧
  (∀ orig, ∃ hm' tr', cancel_hedge_orders w orig st.1 st.2 = (Ok tt, hm', tr')) ∧
  (∀ sid, ∃ hm' tr', update w sid st.1 st.2 = (Ok tt, hm', tr')) ∧
  (∀ orig, ∃ hm' tr', handle_order_filled orig st.1 st.2 = (Ok tt, hm', tr')).
Proof.
  intros st.
  assert (Hreg : ∀ id g, dget id (hedge_orders st.1) = Some g →
                         is_Some (hedge_strategies st.1 !! hg_strategy_id g)).
  { intros id g Hg. pose proof (hedge_run_registered ops) as Hinv.
    unfold groups_registered in Hinv. rewrite Forall_forall in Hinv.
    apply (Hinv (id, g)). by apply dget_Some_elem. }
  split; [exact Hreg|]. split; [|split].
  - intros orig. destruct (dget orig (hedge_orders st.1)) as [g|] eqn:Hg.
    + destruct (Hreg orig g Hg) as [cfg Hcfg].
      destruct (cancel_hedge_orders_spec w st.1 st.2 orig g cfg Hg Hcfg)
        as (orders & tr' & -> & _). by eexists _, _.
    + unfold cancel_hedge_orders. rewrite bind_run. simpl. rewrite Hg.
      by eexists _, _.
  - intros sid. destruct (update_spec w sid st.1 st.2) as (groups & tr' & -> & _).
    by eexists _, _.
  - intros orig. destruct (handle_order_filled_spec st.1 st.2 orig)
      as (hm' & tr' & -> & _). by eexists _, _.
Qed.

Lemma closed_member_step op st orig k v :
  is_create_op op = false →
  member_of st.1 orig k = Some v → ho_status v ≠ "open" →
  member_of (run_hedge_op w op st).1 orig k = Some v.
Proof.
  destruct st as [hm tr]. unfold member_of. simpl. intros Hop Hmem Hclosed.
  destruct (dget orig (hedge_orders hm)) as [g|] eqn:Hg; [|done]. simpl in Hmem.
  destruct op as [sid symbol exs|sid side amount price level_id orig'|orig'|sid|orig'];
    simpl; [| done | | |].
  - unfold initialize_for_strategy. destruct exs; simpl; by rewrite Hg.
  - unfold cancel_hedge_orders. rewrite bind_run. simpl.
    destruct (dget orig' (hedge_orders hm)) as [g'|] eqn:Hg';
      [|simpl; by rewrite Hg].
    destruct (hedge_strategies hm !! hg_strategy_id g') as [cfg|] eqn:Hcfg;
      [|simpl; by rewrite Hg].
    destruct (cancel_hedge_orders_spec w hm tr orig' g' cfg Hg' Hcfg)
      as (orders & tr' & Hrun & HF).
    unfold cancel_hedge_orders in Hrun. rewrite bind_run in Hrun. simpl in Hrun.
    rewrite Hg', Hcfg in Hrun. rewrite Hrun. simpl.
    destruct (decide (orig' = orig)) as [->|Hne].
    + rewrite dget_dset_eq. simpl. rewrite Hg in Hg'. injection Hg' as <-.
      destruct (Forall2_dget _ _ _ _ _ HF Hmem) as (v' & Hv' & Hout).
      rewrite Hv'. destruct Hout as [[_ ->]|[[? _]|[? _]]]; done.
    + rewrite dget_dset_ne by done. by rewrite Hg.
  - destruct (update_spec w sid hm tr) as (groups & tr' & -> & HF). simpl.
    destruct (Forall2_dget _ _ _ _ _ HF Hg) as (g' & -> & Hout). simpl.
    destruct Hout as (_ & _ & _ & HF').
    destruct (Forall2_dget (fun k v v' => update_member_outcome k v v') _ _ _ _ HF' Hmem)
      as (v' & Hv' & Hout).
    rewrite Hv'. destruct Hout as [->|[? _]]; done.
  - destruct (handle_order_filled_spec hm tr orig') as (hm' & tr' & -> & _ & Hh).
    simpl. destruct (dget orig' (hedge_orders hm)) as [g'|] eqn:Hg';
      [|subst; by rewrite Hg].
    destruct (all_filled (hg_orders g')); [|subst; by rewrite Hg].
    rewrite Hh. destruct (decide (orig' = orig)) as [->|Hne].
    + rewrite dget_dset_eq. simpl. rewrite Hg in Hg'. by injection Hg' as <-.
    + rewrite dget_dset_ne by done. by rewrite Hg.
Qed.

(** X14.  A member of a hedge group whose status is no longer open keeps its
    record through every sequence of initialisations, cancellations,
    updates and fill notifications: only [create_hedge_order], which can
    replace the whole group, changes it. *)
Theorem closed_members_are_final (ops : list HedgeOp) (st : HedgeManager * Trace)
    (orig k : string) (v : HedgeOrder) :
  Forall (fun op => is_create_op op = false) ops →
  member_of st.1 orig k = Some v →
  ho_status v ≠ "open" →
  member_of (foldl (fun s op => run_hedge_op w op s) st ops).1 orig k = Some v.
Proof.
  intros Hops. revert st. induction Hops as [|op ops Hop _ IH]; intros st Hmem Hclosed.
  - done.
  - simpl. apply IH; [|done]. by apply closed_member_step.
Qed.

Lemma items_mapM_trace {V} (body : string → V → M HedgeManager V)
    (p : Event → bool) (req : string → V → list Event) :
  (∀ k v hm tr, ∃ v' evs, body k v hm tr = (Ok v', hm, tr ++ evs) ∧
                          List.filter p evs = req k v) →
  ∀ d hm tr, ∃ d' evs,
    items_mapM body d hm tr = (Ok d', hm, tr ++ evs) ∧
    List.filter p evs = concat ((fun kv : string * V => req kv.1 kv.2) <$> d).
Proof.
  intros Hbody d. induction d as [|[k v] d IH]; intros hm tr; simpl.
  - exists [], []. by rewrite app_nil_r.
  - rewrite bind_run.
    destruct (Hbody k v hm tr) as (v' & evs1 & -> & Hf1).
    rewrite bind_run.
    destruct (IH hm (tr ++ evs1)) as (d' & evs2 & -> & Hf2).
    exists ((k, v') :: d'), (evs1 ++ evs2). rewrite app_assoc. split; [done|].
    by rewrite List.filter_app, Hf1, Hf2.
Qed.

Lemma open_members_requests (mk : ExchangeRef → string → Event)
    (orders : pydict HedgeOrder) :
  concat ((fun kv : string * HedgeOrder =>
             if decide (ho_status kv.2 = "open") then
               match w_get_exchange_by_name w (ho_exchange_name kv.2) with
               | Some ex => [mk ex kv.1]
               | None => []
               end
             else []) <$> orders) =
  (fun ie : string * ExchangeRef => mk ie.2 ie.1) <$> open_members w orders.
Proof.
  unfold open_members. induction orders as [|[k v] orders IH]; [done|].
  rewrite fmap_cons. cbn [concat omap list_omap fst snd]. rewrite IH.
  destruct (decide (ho_status v = "open")); [|done].
  by destruct (w_get_exchange_by_name w (ho_exchange_name v)).
Qed.

Lemma cancel_member_trace symbol k v hm tr :
  ∃ v' evs, cancel_member w symbol k v hm tr = (Ok v', hm, tr ++ evs) ∧
    List.filter is_cancel_order evs =
      if decide (ho_status v = "open") then
        match w_get_exchange_by_name w (ho_exchange_name v) with
        | Some ex => [EvCancelOrder ex k symbol]
        | None => []
        end
      else [].
Proof.
  unfold cancel_member.
  destruct (decide (ho_status v = "open")) as [Hopen|Hopen].
  - destruct (w_get_exchange_by_name w (ho_exchange_name v)) as [ex|].
    + rewrite try_except_run, bind_run. unfold call.
      destruct (w_cancel_order w tr ex k symbol) as [b|e].
      * eexists _, [_; _; _].
        split; [unfold time_time, ask, log, emit, bind, ret; by rewrite <-!app_assoc|done].
      * eexists _, [_; _].
        split; [unfold log, emit, bind, ret; by rewrite <-!app_assoc|done].
    + eexists _, [_]. split; [reflexivity|done].
  - exists v, []. by rewrite app_nil_r.
Qed.

Lemma update_member_trace symbol k v hm tr :
  ∃ v' evs, update_member w symbol k v hm tr = (Ok v', hm, tr ++ evs) ∧
    List.filter is_fetch_order evs =
      if decide (ho_status v = "open") then
        match w_get_exchange_by_name w (ho_exchange_name v) with
        | Some ex => [EvFetchOrder ex k symbol]
        | None => []
        end
      else [].
Proof.
  unfold update_member.
  destruct (decide (ho_status v = "open")) as [Hopen|Hopen].
  - destruct (w_get_exchange_by_name w (ho_exchange_name v)) as [ex|].
    + rewrite try_except_run, bind_run. unfold call.
      destruct (w_fetch_order w tr ex k symbol) as [status|e].
      * destruct (decide (status = "closed")); [|destruct (decide (status = "canceled"))].
        -- eexists _, [_; _; _].
           split; [unfold time_time, ask, log, emit, bind, ret; by rewrite <-!app_assoc|done].
        -- eexists _, [_; _; _].
           split; [unfold time_time, ask, log, emit, bind, ret; by rewrite <-!app_assoc|done].
        -- eexists _, [_]. split; [reflexivity|done].
      * eexists _, [_; _].
        split; [unfold log, emit, bind, ret; by rewrite <-!app_assoc|done].
    + exists v, []. by rewrite app_nil_r.
  - exists v, []. by rewrite app_nil_r.
Qed.

(** X15.  For a group of a configured strategy, [cancel_hedge_orders] returns
    normally, and the cancellations it requests are exactly those of the
    members that are open and whose venue is found by name, one each, in
    the order of the group, on the configured pair. *)
Theorem cancel_hedge_orders_requests_open_members (hm : HedgeManager) (tr : Trace)
    (original_order_id : string) (g : HedgeGroup) (cfg : HedgeConfig) :
  get_hedge_order_by_original original_order_id hm = Some g →
  hedge_strategies hm !! hg_strategy_id g = Some cfg →
  ∃ hm' evs,
    cancel_hedge_orders w original_order_id hm tr = (Ok tt, hm', tr ++ evs) ∧
    List.filter is_cancel_order evs =
      (fun ie : string * ExchangeRef => EvCancelOrder ie.2 ie.1 (hc_trading_pair cfg))
        <$> open_members w (hg_orders g).
Proof.
  unfold get_hedge_order_by_original. intros Hg Hcfg.
  unfold cancel_hedge_orders. rewrite bind_run. simpl. rewrite Hg, Hcfg.
  rewrite bind_run.
  destruct (items_mapM_trace (cancel_member w (hc_trading_pair cfg)) is_cancel_order _
              (cancel_member_trace (hc_trading_pair cfg)) (hg_orders g) hm tr)
    as (orders & evs & -> & Hf).
  eexists _, evs. split; [reflexivity|]. rewrite Hf.
  apply (open_members_requests (fun ex k => EvCancelOrder ex k (hc_trading_pair cfg))).
Qed.

(** X16.  [update(strategy_id)] for a configured strategy returns normally, and
    the order statuses it fetches are exactly those of the open members
    (with a venue found by name) of the open groups of that strategy, group
    after group in the order of [get_hedge_orders_by_strategy]. *)
Theorem update_polls_open_members (hm : HedgeManager) (tr : Trace)
    (strategy_id : string) (cfg : HedgeConfig) :
  hedge_strategies hm !! strategy_id = Some cfg →
  ∃ hm' evs,
    update w strategy_id hm tr = (Ok tt, hm', tr ++ evs) ∧
    List.filter is_fetch_order evs =
      concat ((fun kg : string * HedgeGroup =>
                 (fun ie : string * ExchangeRef =>
                    EvFetchOrder ie.2 ie.1 (hc_trading_pair cfg))
                 <$> open_members w (hg_orders kg.2))
              <$> filter (fun kg : string * HedgeGroup => hg_status kg.2 = "open")
                    (get_hedge_orders_by_strategy strategy_id hm)).
Proof.
  intros Hcfg. unfold update. rewrite bind_run. simpl. rewrite Hcfg.
  rewrite bind_run.
  set (req := fun (k : string) (g : HedgeGroup) =>
    if decide (hg_strategy_id g = strategy_id) then
      if decide (hg_status g = "open") then
        (fun ie : string * ExchangeRef => EvFetchOrder ie.2 ie.1 (hc_trading_pair cfg))
          <$> open_members w (hg_orders g)
      else []
    else []).
  assert (Hgroup : ∀ k g hm tr, ∃ g' evs,
    update_group w strategy_id (hc_trading_pair cfg) k g hm tr = (Ok g', hm, tr ++ evs) ∧
    List.filter is_fetch_order evs = req k g).
  { intros k g hm0 tr0. unfold update_group, req.
    destruct (decide (hg_strategy_id g = strategy_id));
      [|exists g, []; by rewrite app_nil_r].
    destruct (decide (hg_status g = "open"));
      [|exists g, []; by rewrite app_nil_r].
    rewrite bind_run.
    destruct (items_mapM_trace (update_member w (hc_trading_pair cfg)) is_fetch_order _
                (update_member_trace (hc_trading_pair cfg)) (hg_orders g) hm0 tr0)
      as (orders & evs & -> & Hf).
    eexists _, evs. split; [reflexivity|]. rewrite Hf.
    apply (open_members_requests
             (fun ex k => EvFetchOrder ex k (hc_trading_pair cfg))). }
  destruct (items_mapM_trace _ is_fetch_order req Hgroup (hedge_orders hm) hm tr)
    as (groups & evs & -> & Hf).
  eexists _, evs. split; [reflexivity|]. rewrite Hf.
  unfold get_hedge_orders_by_strategy. generalize (hedge_orders hm).
  unfold pydict. clear. intros d.
  induction d as [|[k g] d IH]; [done|].
  rewrite fmap_cons. cbn [concat fst snd]. rewrite IH. unfold req at 1.
  rewrite filter_cons. simpl.
  destruct (decide (hg_strategy_id g = strategy_id)); [|done].
  rewrite filter_cons. simpl.
  destruct (decide (hg_status g = "open")); done.
Qed.

End HedgeRuns.

Section HedgeRunsExamples.
Import HedgeManager HedgeQueries.

Lemma hedge_groups_stay_registered_witness :
  ∃ hm' tr',
    cancel_hedge_orders w_demo "p1" (hedge_run w_demo ops_create).1
      (hedge_run w_demo ops_create).2 = (Ok tt, hm', tr').
Proof.
  destruct (hedge_groups_stay_registered w_demo ops_create) as (_ & Hcancel & _).
  apply Hcancel.
Defined.

Lemma closed_members_are_final_witness :
  ∃ v, ho_status v = "filled" ∧
       member_of (foldl (fun s op => run_hedge_op w_demo op s)
                    (hedge_run w_demo (ops_create ++ [OpUpdate "s1"]))
                    [OpCancel "p1"; OpUpdate "s1"]).1 "p1" "h2" = Some v.
Proof.
  pose proof (closed_members_are_final w_demo [OpCancel "p1"; OpUpdate "s1"]
                (hedge_run w_demo (ops_create ++ [OpUpdate "s1"])) "p1" "h2" _
                ltac:(repeat constructor) ltac:(vm_compute; reflexivity)
                ltac:(vm_compute; discriminate)) as H.
  eexists. split; [|exact H]. reflexivity.
Defined.

Lemma cancel_hedge_orders_requests_open_members_witness :
  ∃ hm' evs,
    cancel_hedge_orders w_demo "p1" (hedge_run w_demo ops_create).1
      (hedge_run w_demo ops_create).2
      = (Ok tt, hm', (hedge_run w_demo ops_create).2 ++ evs) ∧
    List.filter is_cancel_order evs = [EvCancelOrder venue_h "h2" "BTC/USDT"].
Proof.
  destruct (cancel_hedge_orders_requests_open_members w_demo
              (hedge_run w_demo ops_create).1 (hedge_run w_demo ops_create).2 "p1" _ _
              ltac:(vm_compute; reflexivity) ltac:(vm_compute; reflexivity))
    as (hm' & evs & Hrun & Hf).
  exists hm', evs. split; [exact Hrun|]. rewrite Hf. vm_compute. reflexivity.
Defined.

Lemma update_polls_open_members_witness :
  ∃ hm' evs,
    update w_demo "s1" (hedge_run w_demo ops_create).1 (hedge_run w_demo ops_create).2
      = (Ok tt, hm', (hedge_run w_demo ops_create).2 ++ evs) ∧
    List.filter is_fetch_order evs = [EvFetchOrder venue_h "h2" "BTC/USDT"].
Proof.
  destruct (update_polls_open_members w_demo
              (hedge_run w_demo ops_create).1 (hedge_run w_demo ops_create).2 "s1" _
              ltac:(vm_compute; reflexivity))
    as (hm' & evs & Hrun & Hf).
  exists hm', evs. split; [exact Hrun|]. rewrite Hf. vm_compute. reflexivity.
Defined.

End HedgeRunsExamples.

(** *** GridStrategy: cancellation, reconciliation and placement *)

Section StrategyMore.
Context (w : World).
Import GridStrategy GridShutdown.

(** X17.  [handle_order_canceled] for a tracked order whose level exists reads
    the clock, marks the order canceled with that time, and clears the
    level's reference of the order's side.  A level that was waiting for
    the order goes back one step (BUYING to READY, SELLING to BOUGHT); in
    another status it keeps its status.  Id, price and amount of the level,
    the other levels, the trade records and the hedge manager are not
    touched. *)
Theorem handle_order_canceled_resets_level (st : GridStrategy) (tr : Trace)
    (order_id : string) (od : OrderData) (i : nat) :
  order_manager st !! order_id = Some od →
  find_level (od_level_id od) st = Some i →
  ∃ st' level level',
    handle_order_canceled w order_id st tr =
      (Ok tt, st', tr ++ [EvTime; EvLog (LogOrderCanceled order_id)]) ∧
    order_manager st' = <[order_id := mark_canceled (w_time w tr) od]> (order_manager st) ∧
    grid_levels_data st !! i = Some level ∧
    grid_levels_data st' !! i = Some level' ∧
    (∀ j, j ≠ i → grid_levels_data st' !! j = grid_levels_data st !! j) ∧
    gl_id level' = gl_id level ∧ gl_price level' = gl_price level ∧
    gl_amount level' = gl_amount level ∧
    (od_side od = "buy" →
       buy_order_id level' = None ∧ sell_order_id level' = sell_order_id level ∧
       gl_status level' = if decide (gl_status level = BUYING) then READY
                          else gl_status level) ∧
    (od_side od ≠ "buy" →
       sell_order_id level' = None ∧ buy_order_id level' = buy_order_id level ∧
       gl_status level' = if decide (gl_status level = SELLING) then BOUGHT
                          else gl_status level) ∧
    trade_recorder st' = trade_recorder st ∧
    completed_trades st' = completed_trades st ∧
    hedge_manager st' = hedge_manager st.
Proof.
  intros Hod Hfind.
  assert (Hlevel : ∃ level, grid_levels_data st !! i = Some level).
  { unfold find_level in Hfind.
    destruct (list_find _ (grid_levels_data st)) as [[i' l]|] eqn:Hf; [|done].
    simpl in Hfind. injection Hfind as ->.
    apply list_find_Some in Hf as (Hl & _). eauto. }
  destruct Hlevel as (level & Hlevel).
  unfold handle_order_canceled. rewrite bind_run. simpl.
  unfold OrderManager.get_order. rewrite Hod.
  rewrite bind_run. unfold time_time at 1, ask at 1.
  rewrite bind_run. unfold modify at 1.
  rewrite Hfind. rewrite bind_run.
  destruct (decide (od_side od = "buy")) as [Hside|Hside].
  - unfold modify_level, modify, log, emit. eexists _, level, _.
    split; [by rewrite <-app_assoc|]. simpl.
    split; [unfold OrderManager.update_order; by rewrite Hod|].
    split; [done|]. rewrite list_lookup_alter_eq, Hlevel. simpl.
    split; [done|]. split; [intros j Hj; by rewrite list_lookup_alter_ne|].
    split; [done|]. split; [done|]. split; [done|].
    split; [done|]. split; [done|]. done.
  - unfold modify_level, modify, log, emit. eexists _, level, _.
    split; [by rewrite <-app_assoc|]. simpl.
    split; [unfold OrderManager.update_order; by rewrite Hod|].
    split; [done|]. rewrite list_lookup_alter_eq, Hlevel. simpl.
    split; [done|]. split; [intros j Hj; by rewrite list_lookup_alter_ne|].
    split; [done|]. split; [done|]. split; [done|].
    split; [done|]. split; [done|]. done.
Qed.

Lemma handlers_skip_untracked order_id st tr :
  order_manager st !! order_id = None →
  handle_order_filled w order_id st tr =
    (Ok tt, st, tr ++ [EvLog (LogOrderNotFound order_id)]) ∧
  handle_order_canceled w order_id st tr =
    (Ok tt, st, tr ++ [EvLog (LogOrderNotFound order_id)]).
Proof.
  intros Hnone. unfold handle_order_filled, handle_order_canceled.
  rewrite !bind_run. simpl. unfold OrderManager.get_order. by rewrite Hnone.
Qed.

Lemma no_references_no_ids (levels : list GridLevel) :
  Forall (fun l => truthy (buy_order_id l) = false ∧ truthy (sell_order_id l) = false)
    levels →
  concat (level_order_ids <$> levels) = [].
Proof.
  induction 1 as [|l levels [Hb Hs] _ IH]; [done|].
  rewrite fmap_cons. simpl. rewrite IH. unfold level_order_ids. by rewrite Hb, Hs.
Qed.

(** X18.  Edges of [check_order_status].  When no level refers to an order it
    does nothing and asks no venue.  Otherwise it asks the primary venue
    once, for all referenced ids together; an exception of that request
    propagates with the strategy unchanged; and an answer in which every
    order is either still working or not tracked leaves the strategy
    unchanged, with nothing but not-found log lines. *)
Theorem check_order_status_edges (st : GridStrategy) (tr : Trace) :
  let ids : gset string :=
    list_to_set (concat (level_order_ids <$> grid_levels_data st)) in
  let request := EvFetchOrdersByIds (primary_exchange st) ids (trading_pair st) in
  let answer := w_fetch_orders_by_ids w tr (primary_exchange st) ids (trading_pair st) in
  (Forall (fun l => truthy (buy_order_id l) = false ∧ truthy (sell_order_id l) = false)
     (grid_levels_data st) →
   check_order_status w st tr = (Ok tt, st, tr)) ∧
  (ids ≠ ∅ → ∀ e, answer = Raise e →
   check_order_status w st tr = (Raise e, st, tr ++ [request])) ∧
  (ids ≠ ∅ → ∀ orders_info, answer = Ok orders_info →
   Forall (fun kv : string * string =>
             (kv.2 ≠ "closed" ∧ kv.2 ≠ "canceled") ∨ order_manager st !! kv.1 = None)
     orders_info →
   ∃ logs, check_order_status w st tr = (Ok tt, st, (tr ++ [request]) ++ logs) ∧
           Forall (fun ev => ∃ order_id, ev = EvLog (LogOrderNotFound order_id)) logs).
Proof.
  intros ids request answer. unfold check_order_status.
  rewrite bind_run. simpl. fold ids. split; [|split].
  - intros Hnone. subst ids. rewrite (no_references_no_ids _ Hnone). done.
  - intros Hids e Hans. rewrite decide_False by done.
    rewrite bind_run. unfold call. fold answer. by rewrite Hans.
  - intros Hids orders_info Hans Hall. rewrite decide_False by done.
    rewrite bind_run. unfold call. fold answer. rewrite Hans. fold request.
    generalize (tr ++ [request]). clear Hans.
    induction Hall as [|[order_id status] info Hx _ IH]; intros tr0; simpl.
    + exists []. by rewrite app_nil_r.
    + rewrite bind_run. simpl in Hx.
      assert (Hstep : ∃ logs1,
        (if decide (status = "closed") then handle_order_filled w order_id
         else if decide (status = "canceled") then handle_order_canceled w order_id
         else ret ()) st tr0 = (Ok tt, st, tr0 ++ logs1) ∧
        Forall (fun ev => ∃ order_id, ev = EvLog (LogOrderNotFound order_id)) logs1).
      { destruct (decide (status = "closed")) as [Hc|Hc];
          [|destruct (decide (status = "canceled")) as [Hd|Hd]].
        - destruct Hx as [[? _]|Hx]; [done|].
          destruct (handlers_skip_untracked order_id st tr0 Hx) as [-> _].
          eexists [_]. split; [done|]. repeat constructor. by eexists.
        - destruct Hx as [[_ ?]|Hx]; [done|].
          destruct (handlers_skip_untracked order_id st tr0 Hx) as [_ ->].
          eexists [_]. split; [done|]. repeat constructor. by eexists.
        - exists []. by rewrite app_nil_r. }
      destruct Hstep as (logs1 & -> & Hl1).
      destruct (IH (tr0 ++ logs1)) as (logs2 & -> & Hl2).
      exists (logs1 ++ logs2). rewrite app_assoc. split; [done|].
      by apply Forall_app.
Qed.

(** X19.  [cancel_all_orders] requests one cancellation for each order id that
    a level refers to, buy before sell, level after level, on the primary
    venue; it returns normally whatever the venue answers and leaves the
    strategy as it is: the levels keep their references and statuses.
    [shutdown] does the same. *)
Theorem cancel_all_orders_leaves_state (st : GridStrategy) (tr : Trace) :
  ∃ evs,
    cancel_all_orders w st tr = (Ok tt, st, tr ++ evs) ∧
    shutdown w st tr = (Ok tt, st, tr ++ evs) ∧
    List.filter is_cancel_order evs =
      (fun order_id => EvCancelOrder (primary_exchange st) order_id (trading_pair st))
        <$> concat (level_order_ids <$> grid_levels_data st).
Proof.
  unfold shutdown. rewrite try_except_run.
  unfold cancel_all_orders. rewrite bind_run. simpl.
  set (ids := concat (level_order_ids <$> grid_levels_data st)).
  assert (Hloop : ∀ l tr0,
    for_each l
      (fun order_id =>
         try_except
           (call (fun tr => w_cancel_order w tr (primary_exchange st) order_id
                              (trading_pair st))
              (EvCancelOrder (primary_exchange st) order_id (trading_pair st));;;
            ret tt)
           (fun _ => ret tt)) st tr0 =
    (Ok tt, st,
     tr0 ++ ((fun order_id =>
                EvCancelOrder (primary_exchange st) order_id (trading_pair st)) <$> l))).
  { induction l as [|order_id l IH]; intros tr0; simpl.
    - by rewrite app_nil_r.
    - rewrite bind_run, try_except_run, bind_run. unfold call.
      destruct (w_cancel_order w tr0 (primary_exchange st) order_id (trading_pair st));
        simpl; rewrite IH; by rewrite <-app_assoc. }
  exists ((fun order_id =>
             EvCancelOrder (primary_exchange st) order_id (trading_pair st)) <$> ids).
  assert (Hf : ∀ l : list string,
    List.filter is_cancel_order
      ((fun order_id =>
          EvCancelOrder (primary_exchange st) order_id (trading_pair st)) <$> l) =
    (fun order_id =>
       EvCancelOrder (primary_exchange st) order_id (trading_pair st)) <$> l).
  { induction l as [|order_id l IH]; [done|]. rewrite fmap_cons. simpl. by rewrite IH. }
  destruct ids as [|order_id ids'] eqn:Hids.
  - simpl. by rewrite app_nil_r.
  - rewrite Hloop. split; [done|]. split; [done|]. apply Hf.
Qed.

(** X20.  One level of [update_grid_orders], whatever the price.  A level that is
    BUYING or SELLING, a BOUGHT level that refers to a sell order and a
    SOLD level that refers to a buy order are left alone, with no request.
    A BOUGHT level without sell order is given to [place_sell_order] and a
    SOLD level without buy order to [place_buy_order], and the step returns
    normally. *)
Theorem update_level_waits_for_outstanding_orders (cur : Decimal) (i : nat)
    (st : GridStrategy) (tr : Trace) (level : GridLevel) :
  grid_levels_data st !! i = Some level →
  let res := update_level w cur i st tr in
  (gl_status level = BUYING ∨ gl_status level = SELLING → res = (Ok tt, st, tr)) ∧
  (gl_status level = BOUGHT → truthy (sell_order_id level) = true →
     res = (Ok tt, st, tr)) ∧
  (gl_status level = SOLD → truthy (buy_order_id level) = true →
     res = (Ok tt, st, tr)) ∧
  (gl_status level = BOUGHT → truthy (sell_order_id level) = false →
     ∃ r, place_sell_order w i st tr = (Ok r, res.1.2, res.2) ∧ res.1.1 = Ok tt) ∧
  (gl_status level = SOLD → truthy (buy_order_id level) = false →
     ∃ r, place_buy_order w i st tr = (Ok r, res.1.2, res.2) ∧ res.1.1 = Ok tt).
Proof.
  intros Hl res. subst res. unfold update_level. rewrite bind_run. simpl. rewrite Hl.
  assert (Hplace : ∀ side hside set_ref placing,
    ∃ r, place_order w side hside set_ref placing i st tr =
           (Ok r, ((place_order w side hside set_ref placing i;;; ret tt) st tr).1.2,
            ((place_order w side hside set_ref placing i;;; ret tt) st tr).2) ∧
         ((place_order w side hside set_ref placing i;;; ret tt) st tr).1.1 = Ok tt).
  { intros. rewrite bind_run.
    destruct (place_order_spec w side hside set_ref placing i st tr)
      as (r & st' & tr' & -> & _). by exists r. }
  split; [|split; [|split; [|split]]].
  - intros [-> | ->]; done.
  - intros -> ->. done.
  - intros -> ->. done.
  - intros -> ->. simpl. apply Hplace.
  - intros -> ->. simpl. apply Hplace.
Qed.



End StrategyMore.

Section StrategyMoreExamples.
Import GridStrategy GridShutdown.

Lemma handle_order_canceled_resets_level_witness :
  ∃ st' level',
    (handle_order_canceled w_grid "o1" st_buying []).1.2 = st' ∧
    grid_levels_data st' !! 0%nat = Some level' ∧
    gl_status level' = READY ∧ buy_order_id level' = None.
Proof.
  destruct (handle_order_canceled_resets_level w_grid st_buying [] "o1" _ 0%nat
              ltac:(vm_compute; reflexivity) ltac:(vm_compute; reflexivity))
    as (st' & level & level' & Hrun & _ & Hl & Hl' & _ & _ & _ & _ & Hbuy & _).
  exists st', level'. rewrite Hrun. split; [reflexivity|]. split; [exact Hl'|].
  destruct (Hbuy eq_refl) as (Href & _ & Hst).
  split; [|exact Href]. rewrite Hst.
  vm_compute in Hl. injection Hl as <-. reflexivity.
Defined.

Lemma check_order_status_edges_witness :
  check_order_status w_grid st_ready [] = (Ok tt, st_ready, []).
Proof.
  destruct (check_order_status_edges w_grid st_ready []) as (Hnone & _).
  apply Hnone. repeat constructor.
Defined.

Lemma update_level_waits_for_outstanding_orders_witness :
  update_level w_grid (dec 50 0) 0 st_buying [] = (Ok tt, st_buying, []).
Proof.
  destruct (update_level_waits_for_outstanding_orders w_grid (dec 50 0) 0 st_buying [] _
              eq_refl) as (Hwait & _).
  apply Hwait. by left.
Defined.


End StrategyMoreExamples.

(** *** Trade records and the lookup of a venue *)

Section TradeRecords.
Import TradeRecorder.

(** X22.  Recording and reading back.  After a sequence of [record_trade] calls,
    the cached trades of a strategy are those it had before, followed by
    the recorded trades of that strategy in the order they were recorded;
    trades of other strategies never show up. *)
Theorem recorded_trades_by_strategy (trades : list Trade) (cache : TradeRecorder.t)
    (strategy_id : string) :
  trades_of strategy_id (foldl (fun c t => record_trade t c) cache trades) =
  trades_of strategy_id cache ++
  filter (fun t => tr_strategy_id t = strategy_id) trades.
Proof.
  revert cache. induction trades as [|t trades IH]; intros cache; simpl.
  - by rewrite app_nil_r.
  - rewrite IH, filter_cons. unfold trades_of, record_trade.
    destruct (decide (tr_strategy_id t = strategy_id)) as [<-|Hne].
    + rewrite lookup_insert_eq. simpl. by rewrite <-app_assoc.
    + by rewrite lookup_insert_ne.
Qed.

End TradeRecords.

Section ExchangeLookup.
Import ExchangeManager HedgeManager HedgeQueries.

(** X23.  [get_exchange_by_name] returns the first exchange, in the order of the
    dict, whose name is the one asked for, and [None] exactly when there is
    none.  So of two different exchanges with the same name the later one
    is never returned. *)
Theorem get_exchange_by_name_first_match (exchanges : ExchangeManager.t)
    (exchange_name : string) :
  (∀ ex, get_exchange_by_name exchanges exchange_name = Some ex →
     ex_name ex = exchange_name ∧
     ∃ i, dvalues exchanges !! i = Some ex ∧
          ∀ j other, (j < i)%nat → dvalues exchanges !! j = Some other →
                     ex_name other ≠ exchange_name) ∧
  (get_exchange_by_name exchanges exchange_name = None ↔
     ∀ ex, ex ∈ dvalues exchanges → ex_name ex ≠ exchange_name) ∧
  (∀ i j first second,
     NoDup (dvalues exchanges) →
     dvalues exchanges !! i = Some first →
     dvalues exchanges !! j = Some second →
     (i < j)%nat →
     ex_name first = exchange_name →
     get_exchange_by_name exchanges exchange_name ≠ Some second).
Proof.
  assert (H1 : ∀ ex, get_exchange_by_name exchanges exchange_name = Some ex →
     ex_name ex = exchange_name ∧
     ∃ i, dvalues exchanges !! i = Some ex ∧
          ∀ j other, (j < i)%nat → dvalues exchanges !! j = Some other →
                     ex_name other ≠ exchange_name).
  { unfold get_exchange_by_name. intros ex.
    destruct (list_find _ (dvalues exchanges)) as [[i ex']|] eqn:Hf; simpl; [|done].
    intros [= ->].
    apply list_find_Some in Hf as (Hi & Hname & Hfirst).
    split; [done|]. exists i. split; [done|]. intros j other Hj Hother.
    by apply (Hfirst j). }
  split; [exact H1|]. split.
  - unfold get_exchange_by_name.
    destruct (list_find _ (dvalues exchanges)) as [[i ex']|] eqn:Hf; simpl.
    + apply list_find_Some in Hf as (Hi & Hname & _). split; [done|].
      intros Hall. exfalso. apply (Hall ex'); [|done].
      by apply list_elem_of_lookup_2 in Hi.
    + apply list_find_None in Hf. rewrite Forall_forall in Hf. done.
  - intros i j first second Hnd Hi Hj Hlt Hname Hget.
    destruct (H1 second Hget) as (_ & k & Hk & Hfirst).
    assert (k = j) as -> by (by apply (NoDup_lookup (dvalues exchanges) k j second)).
    by apply (Hfirst i first).
Qed.

Lemma get_exchange_by_name_first_match_witness :
  ExchangeManager.get_exchange_by_name
    [("binance_main", venue_p); ("binance_hedge", venue_h)] "binance" ≠ Some venue_h.
Proof.
  destruct (get_exchange_by_name_first_match
              [("binance_main", venue_p); ("binance_hedge", venue_h)] "binance")
    as (_ & _ & H).
  apply (H 0%nat 1%nat venue_p venue_h); try reflexivity; [|lia].
  apply NoDup_cons. split.
  - rewrite list_elem_of_singleton. discriminate.
  - apply NoDup_singleton.
Defined.

End ExchangeLookup.

(** *** Profit *)

Section DecimalRepr.
Import Decimal.







Lemma ltb_zero_zero e : ltb zero (mk 0 e) = false.
Proof. unfold ltb, cmp, scaled, zero, of_Z. simpl. done. Qed.

End DecimalRepr.

Section Profit.

Lemma strategy_totals_buys_only trades :
  Forall (fun t => tr_side t = "buy") trades →
  ∀ acc totals,
    res_foldl StrategyProfit.step acc trades = Ok totals →
    StrategyProfit.sell_volume totals = StrategyProfit.sell_volume acc ∧
    StrategyProfit.sell_revenue totals = StrategyProfit.sell_revenue acc.
Proof.
  induction 1 as [|t trades Hbuy _ IH]; intros acc totals; simpl.
  - by intros [= <-].
  - unfold StrategyProfit.step at 1. rewrite decide_True by done.
    destruct (Decimal.add _ _) as [v|]; [|done]. cbn [res_bind].
    destruct (Decimal.mul _ _) as [x|]; [|done]. cbn [res_bind].
    destruct (Decimal.add _ x) as [c|]; [|done]. cbn [res_bind].
    intros Hrest. by destruct (IH _ _ Hrest).
Qed.

Lemma strategy_totals_sells_only trades :
  Forall (fun t => tr_side t ≠ "buy") trades →
  ∀ acc totals,
    res_foldl StrategyProfit.step acc trades = Ok totals →
    StrategyProfit.buy_volume totals = StrategyProfit.buy_volume acc ∧
    StrategyProfit.buy_cost totals = StrategyProfit.buy_cost acc.
Proof.
  induction 1 as [|t trades Hsell _ IH]; intros acc totals; simpl.
  - by intros [= <-].
  - unfold StrategyProfit.step at 1. rewrite decide_False by done.
    destruct (Decimal.add _ _) as [v|]; [|done]. cbn [res_bind].
    destruct (Decimal.mul _ _) as [x|]; [|done]. cbn [res_bind].
    destruct (Decimal.add _ x) as [c|]; [|done]. cbn [res_bind].
    intros Hrest. by destruct (IH _ _ Hrest).
Qed.

(** X24.  [GridStrategy.calculate_profit] without both sides.  When all trades
    are buys, the stored total profit is returned as it was.  When no trade
    is a buy, the result is the stored total or zero: nothing is divided by
    the zero buy volume. *)
Theorem profit_needs_both_sides (trades : list Trade) (total_profit r : Decimal) :
  StrategyProfit.calculate_profit trades total_profit = Ok r →
  (Forall (fun t => tr_side t = "buy") trades → r = total_profit) ∧
  (Forall (fun t => tr_side t ≠ "buy") trades →
     r = total_profit ∨ r = Decimal.zero).
Proof.
  unfold StrategyProfit.calculate_profit.
  destruct (res_foldl _ _ trades) as [totals|] eqn:Hfold; [|done].
  cbn [res_bind]. intros Hr. split; intros Hall.
  - destruct (strategy_totals_buys_only trades Hall _ _ Hfold) as [_ Hrev].
    simpl in Hrev. rewrite Hrev in Hr.
    change (Decimal.ltb Decimal.zero Decimal.zero) with false in Hr. congruence.
  - destruct (strategy_totals_sells_only trades Hall _ _ Hfold) as [Hvol _].
    simpl in Hvol. rewrite Hvol in Hr.
    change (Decimal.ltb Decimal.zero Decimal.zero) with false in Hr.
    destruct (Decimal.ltb Decimal.zero _); [right|left]; congruence.
Qed.

Lemma profit_needs_both_sides_witness :
  ∃ r, StrategyProfit.calculate_profit
         [mkTrade "s1" "b" "BTC/USDT" "buy" (dec 20000 0) (dec 5 (-1)) 0] (dec 7 0)
       = Ok r ∧ r = dec 7 0.
Proof.
  eexists. split; [vm_compute; reflexivity|].
  apply (profit_needs_both_sides
           [mkTrade "s1" "b" "BTC/USDT" "buy" (dec 20000 0) (dec 5 (-1)) 0]
           (dec 7 0) _ ltac:(vm_compute; reflexivity)).
  repeat constructor.
Defined.



End Profit.
